(** * sftp server (server.go): a shallow embedding and its properties

    The restricted, upload-only SFTP server of [server.go] is embedded as
    state-passing Rocq functions.  Everything the server asks of the
    operating system, of the hooks and of the transport is recorded in a
    trace of events; the results of those calls come from an environment
    that is a parameter of the development. *)

From Stdlib Require Import ZArith String Ascii List Lia.
From stdpp Require Import gmap strings list pretty.

Open Scope string_scope.
Open Scope list_scope.
Open Scope Z_scope.

#[local] Arguments append !s1 s2 : simpl nomatch.

(** ** Go strings

    A Go string is a sequence of bytes; so is a Rocq [string]. *)

Module GoString.

Definition len (s : string) : Z := Z.of_nat (String.length s).

(** [strings.HasPrefix(s, prefix)] *)
Fixpoint HasPrefix (s pre : string) {struct pre} : bool :=
  match pre with
  | EmptyString => true
  | String c pre' =>
      match s with
      | EmptyString => false
      | String d s' => if Ascii.eqb c d then HasPrefix s' pre' else false
      end
  end.

(** [strings.ContainsRune(s, r)] for a one-byte rune *)
Fixpoint ContainsRune (s : string) (r : ascii) : bool :=
  match s with
  | EmptyString => false
  | String c s' => if Ascii.eqb c r then true else ContainsRune s' r
  end.

(** [strings.Index(s, sep)]: the index of the first instance of [sep]
    in [s], or -1 *)
Fixpoint Index (s sep : string) : Z :=
  if HasPrefix s sep then 0
  else match s with
       | EmptyString => -1
       | String _ s' => let i := Index s' sep in
                        if i <? 0 then -1 else i + 1
       end.

Fixpoint drop (n : nat) (s : string) : string :=
  match n, s with
  | O, _ => s
  | S n', String _ s' => drop n' s'
  | S _, EmptyString => EmptyString
  end.

Fixpoint take (n : nat) (s : string) : string :=
  match n, s with
  | S n', String c s' => String c (take n' s')
  | _, _ => EmptyString
  end.

(** [s[n:]]; [None] is the run-time panic of a slice out of range *)
Definition slice_from (s : string) (n : Z) : option string :=
  if (0 <=? n) && (n <=? len s) then Some (drop (Z.to_nat n) s) else None.

(** [s[:n]] *)
Definition slice_to (s : string) (n : Z) : option string :=
  if (0 <=? n) && (n <=? len s) then Some (take (Z.to_nat n) s) else None.

(** [s[0]] *)
Definition first_byte (s : string) : option ascii :=
  match s with
  | EmptyString => None
  | String c _ => Some c
  end.

End GoString.

(** ** Machine integers *)

(** [int64(x)] of a [uint64], and the result of signed 64-bit arithmetic:
    the value is taken modulo 2^64 into [-2^63, 2^63). *)
Definition int64 (x : Z) : Z := (x + 2 ^ 63) mod 2 ^ 64 - 2 ^ 63.

Definition uint32 (x : Z) : Z := x mod 2 ^ 32.

(** [strconv.Itoa] *)
Definition Itoa (n : Z) : string := pretty n.

(** ** Protocol constants

    The packet types and status codes are constants of the package that
    [server.go] only names; they are embedded as enumerations. *)

(** Packet types. [fxp_byte b] stands for a type byte that is none of the
    named constants. *)
Inductive fxp : Type :=
| ssh_FXP_INIT | ssh_FXP_VERSION | ssh_FXP_OPEN | ssh_FXP_CLOSE
| ssh_FXP_READ | ssh_FXP_WRITE | ssh_FXP_LSTAT | ssh_FXP_FSTAT
| ssh_FXP_SETSTAT | ssh_FXP_FSETSTAT | ssh_FXP_OPENDIR | ssh_FXP_READDIR
| ssh_FXP_REMOVE | ssh_FXP_MKDIR | ssh_FXP_RMDIR | ssh_FXP_REALPATH
| ssh_FXP_STAT | ssh_FXP_RENAME | ssh_FXP_READLINK | ssh_FXP_SYMLINK
| ssh_FXP_STATUS | ssh_FXP_HANDLE | ssh_FXP_DATA | ssh_FXP_NAME
| ssh_FXP_ATTRS | ssh_FXP_EXTENDED | ssh_FXP_EXTENDED_REPLY
| fxp_byte (b : Z).

(** Status codes. *)
Inductive fx : Type :=
| ssh_FX_OK | ssh_FX_EOF | ssh_FX_NO_SUCH_FILE | ssh_FX_PERMISSION_DENIED
| ssh_FX_FAILURE | ssh_FX_BAD_MESSAGE | ssh_FX_NO_CONNECTION
| ssh_FX_CONNECTION_LOST | ssh_FX_OP_UNSUPPORTED | ssh_FX_INVALID_FILENAME
| ssh_FX_NO_SUCH_PATH.

(** Open flags of the protocol (bits of [Pflags]). *)
Definition ssh_FXF_READ : Z := 1.
Definition ssh_FXF_WRITE : Z := 2.
Definition ssh_FXF_APPEND : Z := 4.
Definition ssh_FXF_CREAT : Z := 8.
Definition ssh_FXF_TRUNC : Z := 16.
Definition ssh_FXF_EXCL : Z := 32.

(** Attribute flags of the protocol. *)
Definition ssh_FILEXFER_ATTR_SIZE : Z := 1.
Definition ssh_FILEXFER_ATTR_UIDGID : Z := 2.
Definition ssh_FILEXFER_ATTR_PERMISSIONS : Z := 4.
Definition ssh_FILEXFER_ATTR_ACMODTIME : Z := 8.

Definition sftpProtocolVersion : Z := 3.

(** [os.ModeDir | 0755] *)
Definition os_ModeDir : Z := 2 ^ 31.
Definition ModeDir_0755 : Z := Z.lor os_ModeDir 493.

(** ** Errors

    A Go [error] value is a dynamic type together with a value.  The
    server distinguishes the sentinel [io.EOF], a [syscall.Errno] and an
    [*os.PathError]; every other dynamic type is seen through its text
    only.  [nil] is [None] of [option error]. *)
Inductive error : Type :=
| io_EOF
| syscall_Errno (errno : Z)
| os_PathError (Op Path : string) (Err : error)
| errors_withMessage (cause : error) (msg : string)
| other_error (text : string).

Definition syscall_EPERM : Z := 1.
Definition syscall_ENOENT : Z := 2.
Definition syscall_EBADF : Z := 9.
Definition syscall_EFBIG : Z := 27.

Definition EPERM : error := syscall_Errno syscall_EPERM.
Definition ENOENT : error := syscall_Errno syscall_ENOENT.
Definition EBADF : error := syscall_Errno syscall_EBADF.
Definition EFBIG : error := syscall_Errno syscall_EFBIG.

(** [syscall.Errno.Error]: the entry of the platform's table of messages,
    or "errno N" where the table has none. *)
Definition Errno_Error (table : list string) (e : Z) : string :=
  let fallback := "errno " +:+ Itoa e in
  if (0 <=? e) && (e <? Z.of_nat (length table)) then
    match table !! Z.to_nat e with
    | Some EmptyString | None => fallback
    | Some s => s
    end
  else fallback.

(** [err.Error()] *)
Fixpoint Error (table : list string) (err : error) : string :=
  match err with
  | io_EOF => "EOF"
  | syscall_Errno e => Errno_Error table e
  | os_PathError op path inner => op +:+ " " +:+ path +:+ ": " +:+ Error table inner
  | errors_withMessage cause msg => msg +:+ ": " +:+ Error table cause
  | other_error text => text
  end.

(** ** Files, directory entries, responses *)

(** An open [*os.File]: the name it was opened with, and a number that
    tells two opens of one name apart. *)
Record File : Type := mkFile { Name : string; fd : nat }.

(** An [os.FileInfo]: either the server's own [fileInfo] (a fabricated
    directory entry) or one that the operating system or a hook returned. *)
Inductive FileInfo : Type :=
| fileInfo (name : string) (mode : Z) (mtime : Z)
| os_FileInfo (name : string) (size mode mtime : Z).

(** Modelled from the spec: the [Name] method of the server's own
    [fileInfo] is declared outside server.go; the name of a fabricated
    entry is the name it was made with. *)
Definition FileInfo_Name (fi : FileInfo) : string :=
  match fi with
  | fileInfo n _ _ => n
  | os_FileInfo n _ _ _ => n
  end.

Inductive Attrs : Type :=
| emptyFileStat
| Attrs_of (info : FileInfo).

Record sshFxpNameAttr : Type := mkNameAttr {
  na_Name : string;
  na_LongName : string;
  na_Attrs : Attrs
}.

Record StatusError : Type := mkStatusError {
  Code : fx;
  msg : string
}.

Record sshFxpStatusPacket : Type := mkStatus {
  st_ID : Z;
  st_StatusError : StatusError
}.

(** What the server sends. *)
Inductive Response : Type :=
| sshFxVersionPacket (Version : Z)
| R_Status (p : sshFxpStatusPacket)
| sshFxpHandlePacket (ID : Z) (Handle : string)
| sshFxpStatResponse (ID : Z) (info : FileInfo)
| sshFxpNamePacket (ID : Z) (NameAttrs : list sshFxpNameAttr)
| sshFxpDataPacket (ID : Z) (Length : Z) (Data : list Byte.byte).

(** ** The trace

    One event per call that leaves the server: into the operating system,
    into a hook, onto the debug stream or onto the connection. *)
Inductive Event : Type :=
| os_Open (name : string)
| os_Create (name : string)
| os_Mkdir (path : string) (perm : Z)
| os_Remove (path : string)
| os_Rename (oldpath newpath : string)
| os_Symlink (targetpath linkpath : string)
| os_Readlink (path : string)
| os_Chtimes (name : string) (atime mtime : Z)
| File_Close (f : File)
| File_Stat (f : File)
| File_ReadAt (f : File) (buflen off : Z)
| File_WriteAt (f : File) (data : list Byte.byte) (off : Z)
| File_Readdir (f : File) (n : Z)
| File_Truncate (f : File) (size : Z)
| File_Chmod (f : File) (mode : Z)
| File_Chown (f : File) (uid gid : Z)
| time_Now
| call_uploadNotifier (name : string)
| call_opendirHook
| call_readdirHook
| debugStream_Fprintf (handle : string) (name : string)
| conn_Close
| sendPacket_of (m : Response).

(** ** The server *)

Record openDirInfo : Type := mkDirInfo {
  di_name : string;
  di_read : bool
}.

(** The fields of [Server] that [server.go] reads or writes.  A hook that
    is only called for its effect is embedded by whether it is set (not
    [nil]); a call of it is an event of the trace. *)
Record Server : Type := mkServer {
  readOnly : bool;
  openFiles : gmap string File;
  openDirs : gmap string openDirInfo;
  handleCount : Z;
  maxTxPacket : Z;
  uploadPath : string;
  fileSizeLimit : Z;
  fileNameMapper : option (string -> string * bool * option error);
  uploadNotifier : bool;
  opendirHook : bool;
  readdirHook : bool
}.

Definition set_openFiles (svr : Server) (m : gmap string File) : Server :=
  mkServer (readOnly svr) m (openDirs svr) (handleCount svr) (maxTxPacket svr)
    (uploadPath svr) (fileSizeLimit svr) (fileNameMapper svr)
    (uploadNotifier svr) (opendirHook svr) (readdirHook svr).

Definition set_openDirs (svr : Server) (m : gmap string openDirInfo) : Server :=
  mkServer (readOnly svr) (openFiles svr) m (handleCount svr) (maxTxPacket svr)
    (uploadPath svr) (fileSizeLimit svr) (fileNameMapper svr)
    (uploadNotifier svr) (opendirHook svr) (readdirHook svr).

Definition set_handleCount (svr : Server) (n : Z) : Server :=
  mkServer (readOnly svr) (openFiles svr) (openDirs svr) n (maxTxPacket svr)
    (uploadPath svr) (fileSizeLimit svr) (fileNameMapper svr)
    (uploadNotifier svr) (opendirHook svr) (readdirHook svr).

Definition set_uploadPath (svr : Server) (p : string) : Server :=
  mkServer (readOnly svr) (openFiles svr) (openDirs svr) (handleCount svr)
    (maxTxPacket svr) p (fileSizeLimit svr) (fileNameMapper svr)
    (uploadNotifier svr) (opendirHook svr) (readdirHook svr).

(** ** State and the monad of the handlers

    A handler runs on the server and the trace so far.  It returns, or it
    stops in a run-time panic (a slice out of range). *)
Record State : Type := mkState {
  server : Server;
  trace : list Event
}.

Inductive Outcome (A : Type) : Type :=
| Returns (a : A) (s : State)
| Panics (s : State).
Arguments Returns {A} a s.
Arguments Panics {A} s.

Definition M (A : Type) : Type := State -> Outcome A.

Definition ret {A} (a : A) : M A := fun s => Returns a s.

Definition bind {A B} (c : M A) (k : A -> M B) : M B :=
  fun s => match c s with
           | Returns a s' => k a s'
           | Panics s' => Panics s'
           end.

Notation "'let*' x ':=' c 'in' k" := (bind c (fun x => k))
  (at level 10, x pattern, c at level 100, k at level 200).

Definition panic {A} : M A := fun s => Panics s.

Definition get_server : M Server := fun s => Returns (server s) s.

Definition put_server (svr : Server) : M unit :=
  fun s => Returns tt (mkState svr (trace s)).

(** A value that a slice expression yields, or the panic. *)
Definition index_or_panic {A} (o : option A) : M A :=
  match o with
  | Some a => ret a
  | None => panic
  end.

(** ** Request packets *)

Record sshFxpOpenPacket : Type := mkOpen {
  ID : Z;
  Path : string;
  Pflags : Z;
  Flags : Z
}.

(** The packet inside an extended packet: whether it is read-only and how
    it responds are its own. *)
Record SpecificPacket : Type := mkSpecific {
  sp_readonly : bool;
  sp_respond : M (option error)
}.

(** A decoded request: the dynamic type and the fields. *)
Inductive Packet : Type :=
| sshFxInitPacket (Version : Z)
| sshFxpLstatPacket (ID : Z) (Path : string)
| P_Open (p : sshFxpOpenPacket)
| sshFxpClosePacket (ID : Z) (Handle : string)
| sshFxpReadPacket (ID : Z) (Handle : string) (Offset : Z) (Len : Z)
| sshFxpWritePacket (ID : Z) (Handle : string) (Offset : Z) (Data : list Byte.byte)
| sshFxpFstatPacket (ID : Z) (Handle : string)
| sshFxpSetstatPacket (ID : Z) (Path : string) (Flags : Z) (Attrs : list Byte.byte)
| sshFxpFsetstatPacket (ID : Z) (Handle : string) (Flags : Z) (Attrs : list Byte.byte)
| sshFxpOpendirPacket (ID : Z) (Path : string)
| sshFxpReaddirPacket (ID : Z) (Handle : string)
| sshFxpRemovePacket (ID : Z) (Filename : string)
| sshFxpMkdirPacket (ID : Z) (Path : string) (Flags : Z)
| sshFxpRmdirPacket (ID : Z) (Path : string)
| sshFxpRealpathPacket (ID : Z) (Path : string)
| sshFxpStatPacket (ID : Z) (Path : string)
| sshFxpRenamePacket (ID : Z) (Oldpath Newpath : string)
| sshFxpReadlinkPacket (ID : Z) (Path : string)
| sshFxpSymlinkPacket (ID : Z) (Targetpath Linkpath : string)
| sshFxpExtendedPacket (ID : Z) (ExtendedRequest : string) (Specific : SpecificPacket).

(** [p.id()]; the init packet has no ID. *)
Definition id (p : Packet) : Z :=
  match p with
  | sshFxInitPacket _ => 0
  | P_Open p => ID p
  | sshFxpLstatPacket i _ | sshFxpClosePacket i _ | sshFxpReadPacket i _ _ _
  | sshFxpWritePacket i _ _ _ | sshFxpFstatPacket i _
  | sshFxpSetstatPacket i _ _ _ | sshFxpFsetstatPacket i _ _ _
  | sshFxpOpendirPacket i _ | sshFxpReaddirPacket i _
  | sshFxpRemovePacket i _ | sshFxpMkdirPacket i _ _ | sshFxpRmdirPacket i _
  | sshFxpRealpathPacket i _ | sshFxpStatPacket i _
  | sshFxpRenamePacket i _ _ | sshFxpReadlinkPacket i _
  | sshFxpSymlinkPacket i _ _ | sshFxpExtendedPacket i _ _ => i
  end.

Record rxPacket : Type := mkRx {
  pktType : fxp;
  pktBytes : list Byte.byte
}.

(** ** The environment

    What [server.go] calls and this development does not define: the
    table of messages of package syscall, [path.Clean], [runLs], the
    name of a packet type, the decoders of the packet bodies ([UnmarshalBinary], one per layout of
    fields) and of the numbers inside the attributes of fsetstat, the text
    that [sendErrorCode] attaches to a bare code, and
    the result of every call recorded in the trace, given the trace
    before the call. *)
Record Env : Type := mkEnv {
  syscall_errors : list string;
  fxp_String : fxp -> string;
  path_Clean : string -> string;
  runLs : string -> FileInfo -> string;
  code_text : fx -> string;
  unmarshal_Init : list Byte.byte -> error + Z;
  unmarshal_string : fxp -> list Byte.byte -> error + (Z * string);
  unmarshal_Open : list Byte.byte -> error + sshFxpOpenPacket;
  unmarshal_Read : list Byte.byte -> error + (Z * string * Z * Z);
  unmarshal_Write : list Byte.byte -> error + (Z * string * Z * list Byte.byte);
  unmarshal_attrs : fxp -> list Byte.byte -> error + (Z * string * Z * list Byte.byte);
  unmarshal_Mkdir : list Byte.byte -> error + (Z * string * Z);
  unmarshal_strings : fxp -> list Byte.byte -> error + (Z * string * string);
  unmarshal_Extended : list Byte.byte -> error + (Z * string * SpecificPacket);
  unmarshalUint32Safe : list Byte.byte -> Z * list Byte.byte * option error;
  unmarshalUint64Safe : list Byte.byte -> Z * list Byte.byte * option error;
  result_error : list Event -> Event -> option error;
  result_FileInfo : list Event -> Event -> FileInfo;
  result_string : list Event -> Event -> string;
  result_bytes : list Event -> Event -> list Byte.byte;
  result_dirents : list Event -> Event -> list FileInfo;
  result_time : list Event -> Z
}.

(** ** The handlers *)

Section Handlers.

Variable env : Env.

(** *** Calls that leave the server *)

(** A call for its effect only. *)
Definition record (ev : Event) : M unit :=
  fun s => Returns tt (mkState (server s) (trace s ++ [ev])).

(** A call with a result: the environment gives the result from the
    trace before the call. *)
Definition call {A} (result : Env -> list Event -> Event -> A) (ev : Event) : M A :=
  fun s => Returns (result env (trace s) ev) (mkState (server s) (trace s ++ [ev])).

Definition call_error (ev : Event) : M (option error) := call result_error ev.

(** A call with a value and an error. *)
Definition call_with_error {A} (result : Env -> list Event -> Event -> A)
    (ev : Event) : M (A * option error) :=
  fun s => Returns (result env (trace s) ev, result_error env (trace s) ev)
                   (mkState (server s) (trace s ++ [ev])).

(** [os.Open] and [os.Create]: the file and the error. *)
Definition open_file (ev : Event) (name : string) : M (File * option error) :=
  fun s => Returns (mkFile name (length (trace s)), result_error env (trace s) ev)
                   (mkState (server s) (trace s ++ [ev])).

Definition time_Now_call : M Z :=
  fun s => Returns (result_time env (trace s))
                   (mkState (server s) (trace s ++ [time_Now])).

(** Modelled from the spec: [sendPacket] is a method of the server declared
    outside server.go, the framed write of a marshaled response onto the
    transport; it may fail. *)
Definition sendPacket (m : Response) : M (option error) :=
  call_error (sendPacket_of m).

(** *** Translation of errors (server.go, lines 694 to 740) *)

Definition translateErrno (errno : Z) : fx :=
  if errno =? 0 then ssh_FX_OK
  else if errno =? syscall_ENOENT then ssh_FX_NO_SUCH_FILE
  else if errno =? syscall_EPERM then ssh_FX_PERMISSION_DENIED
  else ssh_FX_FAILURE.

Definition statusFromError (p : Packet) (err : option error) : sshFxpStatusPacket :=
  match err with
  | None => mkStatus (id p) (mkStatusError ssh_FX_OK "")
  | Some err =>
      let text := Error (syscall_errors env) err in
      match err with
      | io_EOF => mkStatus (id p) (mkStatusError ssh_FX_EOF text)
      | syscall_Errno errno =>
          mkStatus (id p) (mkStatusError (translateErrno errno) text)
      | os_PathError _ _ (syscall_Errno errno) =>
          mkStatus (id p) (mkStatusError (translateErrno errno) text)
      | _ => mkStatus (id p) (mkStatusError ssh_FX_FAILURE text)
      end
  end.

(** Modelled from the spec: [sendError] is a method of the server declared
    outside server.go.  An operation's failure is translated by
    [statusFromError] and sent as a status response. *)
Definition sendError (p : Packet) (err : option error) : M (option error) :=
  sendPacket (R_Status (statusFromError p err)).

(** Modelled from the spec: [sendErrorCode] is a method of the server
    declared outside server.go.  A bare code is sent as a status response
    with the ID of the packet and that code; the text that goes with the
    code is left to the environment. *)
Definition sendErrorCode (p : Packet) (code : fx) : M (option error) :=
  sendPacket (R_Status (mkStatus (id p) (mkStatusError code (code_text env code)))).

(** *** The table of handles (server.go, lines 52 to 96) *)

(** [handleCount] is a Go [int], 64 bits wide. *)
Definition nextHandle (f : File) (dirName : string) : M string :=
  let* svr := get_server in
  let count := int64 (handleCount svr + 1) in
  let handle := Itoa count in
  let svr := set_handleCount svr count in
  let svr := set_openFiles svr (<[handle := f]> (openFiles svr)) in
  let svr := if String.eqb dirName "" then svr
             else set_openDirs svr (<[handle := mkDirInfo dirName false]> (openDirs svr)) in
  let* _ := put_server svr in
  ret handle.

Definition closeHandle (handle : string) : M (option error) :=
  let* svr := get_server in
  match openFiles svr !! handle with
  | Some f =>
      let svr := set_openFiles svr (delete handle (openFiles svr)) in
      let isDir := bool_decide (is_Some (openDirs svr !! handle)) in
      let svr := if isDir then set_openDirs svr (delete handle (openDirs svr)) else svr in
      let* _ := put_server svr in
      let fileName := Name f in
      let* err := call_error (File_Close f) in
      let* _ := if uploadNotifier svr && negb isDir
                then record (call_uploadNotifier fileName) else ret tt in
      ret err
  | None => ret (Some EBADF)
  end.

Definition getHandle (handle : string) : M (option File) :=
  let* svr := get_server in ret (openFiles svr !! handle).

Definition getHandleDirInfo (handle : string) : M (option openDirInfo) :=
  let* svr := get_server in ret (openDirs svr !! handle).

(** *** The virtual directory (server.go, lines 318 to 323) *)

Definition isUploadDirOrAncestor (s : Server) (dir : string) : bool :=
  if String.eqb dir (uploadPath s) || String.eqb dir "/" then true
  else GoString.HasPrefix (uploadPath s) (dir +:+ "/").

(** *** Open (server.go, lines 511 to 574) *)

Definition hasPflags (p : sshFxpOpenPacket) (flags : list Z) : bool :=
  forallb (fun f => negb (Z.land (Pflags p) f =? 0)) flags.

Definition readonly (p : sshFxpOpenPacket) : bool :=
  negb (hasPflags p [ssh_FXF_WRITE]).

(** The body of [respond] up to the point where a file is at hand:
    [inl] is an early return with what [sendErrorCode] returned, [inr]
    is the file, the error of opening it and the directory name. *)
Definition open_or_create (p : sshFxpOpenPacket)
  : M (option error + (File * option error * string)) :=
  let* svr := get_server in
  let reqPath := path_Clean env (Path p) in
  if isUploadDirOrAncestor svr reqPath && readonly p then
    let* (f, err) := open_file (os_Open "/dev/null") "/dev/null" in
    let* _ := if opendirHook svr then record call_opendirHook else ret tt in
    ret (inr (f, err, reqPath))
  else if negb (hasPflags p [ssh_FXF_WRITE]) || hasPflags p [ssh_FXF_APPEND] then
    let* e := sendErrorCode (P_Open p) ssh_FX_OP_UNSUPPORTED in ret (inl e)
  else
    let prefix := uploadPath svr in
    let prefix := if String.eqb prefix "/" then prefix else prefix +:+ "/" in
    if negb (GoString.HasPrefix (Path p) prefix) then
      let* e := sendErrorCode (P_Open p) ssh_FX_NO_SUCH_PATH in ret (inl e)
    else
      let* fileName := index_or_panic (GoString.slice_from (Path p) (GoString.len prefix)) in
      if GoString.ContainsRune fileName "/" then
        let* e := sendErrorCode (P_Open p) ssh_FX_NO_SUCH_PATH in ret (inl e)
      else
        match fileNameMapper svr with
        | Some mapper =>
            let '(mapped, ok, err) := mapper fileName in
            match err with
            | Some _ =>
                let* e := sendErrorCode (P_Open p) ssh_FX_FAILURE in ret (inl e)
            | None =>
                if negb ok then
                  let* e := sendErrorCode (P_Open p) ssh_FX_INVALID_FILENAME in ret (inl e)
                else
                  let* (f, err) := open_file (os_Create mapped) mapped in
                  ret (inr (f, err, ""))
            end
        | None =>
            let* (f, err) := open_file (os_Create fileName) fileName in
            ret (inr (f, err, ""))
        end.

Definition sshFxpOpenPacket_respond (p : sshFxpOpenPacket) : M (option error) :=
  let* r := open_or_create p in
  match r with
  | inl e => ret e
  | inr (f, Some err, _) => sendError (P_Open p) (Some err)
  | inr (f, None, dirName) =>
      let* handle := nextHandle f dirName in
      sendPacket (sshFxpHandlePacket (ID p) handle)
  end.

(** *** Readdir (server.go, lines 576 to 640) *)

(** [dirInfo.read = true], through the pointer that the table holds. *)
Definition mark_read (handle : string) : M unit :=
  let* svr := get_server in
  put_server (set_openDirs svr
    (alter (fun di => mkDirInfo (di_name di) true) handle (openDirs svr))).

(** The body of [respond] up to the listing: [inl] is an early return,
    [inr] is [dirname], [dirents] and [err]. *)
Definition list_directory (p : Packet) (Handle : string) (f : File)
  : M (option error + (string * list FileInfo * option error)) :=
  let* svr := get_server in
  if readdirHook svr then
    let* dio := getHandleDirInfo Handle in
    match dio with
    | None => let* e := sendError p (Some EBADF) in ret (inl e)
    | Some dirInfo =>
        let dirPath := di_name dirInfo in
        if String.eqb dirPath (uploadPath svr) then
          let* (dirents, err) := call_with_error result_dirents call_readdirHook in
          ret (inr ("", dirents, err))
        else if isUploadDirOrAncestor svr dirPath then
          if di_read dirInfo then ret (inr ("", [], Some io_EOF))
          else
            let prefixLen := if String.eqb dirPath "/" then 1
                             else GoString.len dirPath + 1 in
            let* childDirName :=
              index_or_panic (GoString.slice_from (uploadPath svr) prefixLen) in
            let i := GoString.Index childDirName "/" in
            let* childDirName :=
              if i =? -1 then ret childDirName
              else index_or_panic (GoString.slice_to childDirName i) in
            let* now := time_Now_call in
            let dirents := [fileInfo childDirName ModeDir_0755 now] in
            let* _ := mark_read Handle in
            ret (inr ("", dirents, None))
        else
          let* e := sendError p (Some EBADF) in ret (inl e)
    end
  else
    let dirname := Name f in
    let* (dirents, err) := call_with_error result_dirents (File_Readdir f 128) in
    ret (inr (dirname, dirents, err)).

Definition sshFxpReaddirPacket_respond (ID : Z) (Handle : string) : M (option error) :=
  let p := sshFxpReaddirPacket ID Handle in
  let* fo := getHandle Handle in
  match fo with
  | None => sendError p (Some EBADF)
  | Some f =>
      let* r := list_directory p Handle f in
      match r with
      | inl e => ret e
      | inr (_, _, Some err) => sendError p (Some err)
      | inr (dirname, dirents, None) =>
          sendPacket (sshFxpNamePacket ID
            (map (fun dirent => mkNameAttr (FileInfo_Name dirent)
                                           (runLs env dirname dirent)
                                           (Attrs_of dirent)) dirents))
      end
  end.

(** *** Setstat and fsetstat (server.go, lines 642 to 692) *)

Definition sshFxpSetstatPacket_respond (p : Packet) : M (option error) :=
  sendError p None.

Definition sshFxpFsetstatPacket_respond (p : Packet) (Handle : string)
    (Flags : Z) (Attrs : list Byte.byte) : M (option error) :=
  let* fo := getHandle Handle in
  match fo with
  | None => sendError p (Some EBADF)
  | Some f =>
      let b := Attrs in
      let err : option error := None in
      let* (b, err) :=
        if negb (Z.land Flags ssh_FILEXFER_ATTR_SIZE =? 0) then
          match unmarshalUint64Safe env b with
          | (size, b, None) =>
              let* err := call_error (File_Truncate f (int64 size)) in ret (b, err)
          | (_, b, err) => ret (b, err)
          end
        else ret (b, err) in
      let* (b, err) :=
        if negb (Z.land Flags ssh_FILEXFER_ATTR_PERMISSIONS =? 0) then
          match unmarshalUint32Safe env b with
          | (mode, b, None) =>
              let* err := call_error (File_Chmod f mode) in ret (b, err)
          | (_, b, err) => ret (b, err)
          end
        else ret (b, err) in
      let* (b, err) :=
        if negb (Z.land Flags ssh_FILEXFER_ATTR_ACMODTIME =? 0) then
          match unmarshalUint32Safe env b with
          | (atime, b, None) =>
              match unmarshalUint32Safe env b with
              | (mtime, b, None) =>
                  let* err := call_error (os_Chtimes (Name f) atime mtime) in
                  ret (b, err)
              | (_, b, err) => ret (b, err)
              end
          | (_, b, err) => ret (b, err)
          end
        else ret (b, err) in
      let* (b, err) :=
        if negb (Z.land Flags ssh_FILEXFER_ATTR_UIDGID =? 0) then
          match unmarshalUint32Safe env b with
          | (uid, b, None) =>
              match unmarshalUint32Safe env b with
              | (gid, b, None) =>
                  let* err := call_error (File_Chown f uid gid) in ret (b, err)
              | (_, b, err) => ret (b, err)
              end
          | (_, b, err) => ret (b, err)
          end
        else ret (b, err) in
      sendError p err
  end.

(** *** handlePacket (server.go, lines 325 to 452) *)

Definition clamp (v max : Z) : Z := if v >? max then max else v.

Definition is_EOF (err : error) : bool :=
  match err with
  | io_EOF => true
  | _ => false
  end.

(** [errors.Wrap(err, message)]: [nil] stays [nil]. *)
Definition errors_Wrap (err : option error) (message : string) : option error :=
  match err with
  | None => None
  | Some e => Some (errors_withMessage e message)
  end.

Definition doStat (p : Packet) (reqPath : string) : M (option error) :=
  let* s := get_server in
  let reqPath := path_Clean env reqPath in
  if isUploadDirOrAncestor s reqPath then
    let* now := time_Now_call in
    sendPacket (sshFxpStatResponse (id p) (fileInfo reqPath ModeDir_0755 now))
  else sendError p (Some ENOENT).

Definition handlePacket (p : Packet) : M (option error) :=
  let* s := get_server in
  match p with
  | sshFxInitPacket _ => sendPacket (sshFxVersionPacket sftpProtocolVersion)
  | sshFxpStatPacket _ Path => doStat p Path
  | sshFxpLstatPacket _ Path => doStat p Path
  | sshFxpFstatPacket ID Handle =>
      let* fo := getHandle Handle in
      match fo with
      | None => sendError p (Some EBADF)
      | Some f =>
          let* (info, err) := call_with_error result_FileInfo (File_Stat f) in
          match err with
          | Some e => sendError p (Some e)
          | None => sendPacket (sshFxpStatResponse ID info)
          end
      end
  | sshFxpMkdirPacket _ Path _ =>
      let* err := call_error (os_Mkdir Path 493) in sendError p err
  | sshFxpRmdirPacket _ Path =>
      let* err := call_error (os_Remove Path) in sendError p err
  | sshFxpRemovePacket _ Filename =>
      let* err := call_error (os_Remove Filename) in sendError p err
  | sshFxpRenamePacket _ Oldpath Newpath =>
      let* err := call_error (os_Rename Oldpath Newpath) in sendError p err
  | sshFxpSymlinkPacket _ Targetpath Linkpath =>
      let* err := call_error (os_Symlink Targetpath Linkpath) in sendError p err
  | sshFxpClosePacket _ Handle =>
      let* err := closeHandle Handle in sendError p err
  | sshFxpReadlinkPacket ID Path =>
      let* (f, err) := call_with_error result_string (os_Readlink Path) in
      match err with
      | Some e => sendError p (Some e)
      | None => sendPacket (sshFxpNamePacket ID [mkNameAttr f f emptyFileStat])
      end
  | sshFxpRealpathPacket ID Path =>
      let retPath :=
        match GoString.first_byte Path with
        | Some "/"%char => path_Clean env Path
        | _ => path_Clean env (uploadPath s +:+ "/" +:+ Path)
        end in
      sendPacket (sshFxpNamePacket ID [mkNameAttr retPath retPath emptyFileStat])
  | sshFxpOpendirPacket ID Path =>
      sshFxpOpenPacket_respond (mkOpen ID Path ssh_FXF_READ 0)
  | sshFxpReadPacket ID Handle Offset Len =>
      let* fo := getHandle Handle in
      match fo with
      | None => sendError p (Some EBADF)
      | Some f =>
          let buflen := clamp Len (maxTxPacket s) in
          let* (bytes, err) :=
            call_with_error result_bytes (File_ReadAt f buflen (int64 Offset)) in
          let data := firstn (Z.to_nat buflen) bytes in
          let n := Z.of_nat (length data) in
          match err with
          | Some e =>
              if negb (is_EOF e) || (n =? 0) then sendError p (Some e)
              else sendPacket (sshFxpDataPacket ID (uint32 n) data)
          | None => sendPacket (sshFxpDataPacket ID (uint32 n) data)
          end
      end
  | sshFxpWritePacket _ Handle Offset Data =>
      let* fo := getHandle Handle in
      match fo with
      | None => sendError p (Some EBADF)
      | Some f =>
          let* err :=
            if (fileSizeLimit s >? 0)
               && (int64 (int64 Offset + Z.of_nat (length Data)) >? fileSizeLimit s)
            then ret (Some EFBIG)
            else call_error (File_WriteAt f Data (int64 Offset)) in
          sendError p err
      end
  | P_Open op =>
      let* err := sshFxpOpenPacket_respond op in
      ret (errors_Wrap err "pkt.respond failed")
  | sshFxpReaddirPacket ID Handle =>
      let* err := sshFxpReaddirPacket_respond ID Handle in
      ret (errors_Wrap err "pkt.respond failed")
  | sshFxpSetstatPacket _ _ _ _ =>
      let* err := sshFxpSetstatPacket_respond p in
      ret (errors_Wrap err "pkt.respond failed")
  | sshFxpFsetstatPacket _ Handle Flags Attrs =>
      let* err := sshFxpFsetstatPacket_respond p Handle Flags Attrs in
      ret (errors_Wrap err "pkt.respond failed")
  | sshFxpExtendedPacket _ _ Specific =>
      let* err := sp_respond Specific in
      ret (errors_Wrap err "pkt.respond failed")
  end.

(** *** The worker (server.go, lines 209 to 316) *)

Definition allowedPacketTypes (t : fxp) : bool :=
  match t with
  | ssh_FXP_INIT | ssh_FXP_OPEN | ssh_FXP_CLOSE | ssh_FXP_WRITE
  | ssh_FXP_STAT | ssh_FXP_LSTAT | ssh_FXP_OPENDIR | ssh_FXP_READDIR
  | ssh_FXP_SETSTAT | ssh_FXP_REALPATH => true
  | _ => false
  end.

Definition decoded {A} (r : error + A) (mk : A -> Packet) : error + Packet :=
  match r with
  | inl e => inl e
  | inr a => inr (mk a)
  end.

(** The first switch of the worker together with [UnmarshalBinary]: the
    packet struct chosen for the type, decoded from the bytes, and the
    initial value of [readonly]; [None] is the default case. *)
Definition decode (t : fxp) (b : list Byte.byte) : option ((error + Packet) * bool) :=
  match t with
  | ssh_FXP_INIT => Some (decoded (unmarshal_Init env b) sshFxInitPacket, true)
  | ssh_FXP_LSTAT =>
      Some (decoded (unmarshal_string env t b) (fun '(i, s) => sshFxpLstatPacket i s), true)
  | ssh_FXP_OPEN => Some (decoded (unmarshal_Open env b) P_Open, true)
  | ssh_FXP_CLOSE =>
      Some (decoded (unmarshal_string env t b) (fun '(i, s) => sshFxpClosePacket i s), true)
  | ssh_FXP_READ =>
      Some (decoded (unmarshal_Read env b)
              (fun '(i, h, off, n) => sshFxpReadPacket i h off n), true)
  | ssh_FXP_WRITE =>
      Some (decoded (unmarshal_Write env b)
              (fun '(i, h, off, d) => sshFxpWritePacket i h off d), false)
  | ssh_FXP_FSTAT =>
      Some (decoded (unmarshal_string env t b) (fun '(i, s) => sshFxpFstatPacket i s), true)
  | ssh_FXP_SETSTAT =>
      Some (decoded (unmarshal_attrs env t b)
              (fun '(i, s, fl, a) => sshFxpSetstatPacket i s fl a), false)
  | ssh_FXP_FSETSTAT =>
      Some (decoded (unmarshal_attrs env t b)
              (fun '(i, s, fl, a) => sshFxpFsetstatPacket i s fl a), false)
  | ssh_FXP_OPENDIR =>
      Some (decoded (unmarshal_string env t b) (fun '(i, s) => sshFxpOpendirPacket i s), true)
  | ssh_FXP_READDIR =>
      Some (decoded (unmarshal_string env t b) (fun '(i, s) => sshFxpReaddirPacket i s), true)
  | ssh_FXP_REMOVE =>
      Some (decoded (unmarshal_string env t b) (fun '(i, s) => sshFxpRemovePacket i s), false)
  | ssh_FXP_MKDIR =>
      Some (decoded (unmarshal_Mkdir env b)
              (fun '(i, s, fl) => sshFxpMkdirPacket i s fl), false)
  | ssh_FXP_RMDIR =>
      Some (decoded (unmarshal_string env t b) (fun '(i, s) => sshFxpRmdirPacket i s), false)
  | ssh_FXP_REALPATH =>
      Some (decoded (unmarshal_string env t b) (fun '(i, s) => sshFxpRealpathPacket i s), true)
  | ssh_FXP_STAT =>
      Some (decoded (unmarshal_string env t b) (fun '(i, s) => sshFxpStatPacket i s), true)
  | ssh_FXP_RENAME =>
      Some (decoded (unmarshal_strings env t b)
              (fun '(i, o, n) => sshFxpRenamePacket i o n), false)
  | ssh_FXP_READLINK =>
      Some (decoded (unmarshal_string env t b) (fun '(i, s) => sshFxpReadlinkPacket i s), true)
  | ssh_FXP_SYMLINK =>
      Some (decoded (unmarshal_strings env t b)
              (fun '(i, tp, lp) => sshFxpSymlinkPacket i tp lp), false)
  | ssh_FXP_EXTENDED =>
      Some (decoded (unmarshal_Extended env b)
              (fun '(i, r, sp) => sshFxpExtendedPacket i r sp), true)
  | _ => None
  end.

(** The second switch: open and extended packets say themselves whether
    they are read-only. *)
Definition classify (pkt : Packet) (readonly0 : bool) : bool :=
  match pkt with
  | P_Open op => readonly op
  | sshFxpExtendedPacket _ _ Specific => sp_readonly Specific
  | _ => readonly0
  end.

(** One turn of the loop of the worker on a received packet: [None] is
    to go on with the next packet, [Some err] is [return err]. *)
Definition sftpServerWorker_turn (p : rxPacket) : M (option error) :=
  match decode (pktType p) (pktBytes p) with
  | None =>
      ret (Some (other_error ("unhandled packet type: " +:+ fxp_String env (pktType p))))
  | Some (inl err, _) => ret (Some err)
  | Some (inr pkt, readonly0) =>
      let* svr := get_server in
      if negb (allowedPacketTypes (pktType p)) then
        let* err := sendErrorCode pkt ssh_FX_OP_UNSUPPORTED in
        ret (errors_Wrap err "failed to send op unsupported response")
      else
        let readonly := classify pkt readonly0 in
        if negb readonly && readOnly svr then
          let* err := sendError pkt (Some EPERM) in
          ret (errors_Wrap err "failed to send read only packet response")
        else handlePacket pkt
  end.

(** The loop over the packets of the channel, in the order of arrival. *)
Fixpoint sftpServerWorker (pkts : list rxPacket) : M (option error) :=
  match pkts with
  | [] => ret None
  | p :: rest =>
      let* err := sftpServerWorker_turn p in
      match err with
      | Some e => ret (Some e)
      | None => sftpServerWorker rest
      end
  end.

(** *** Serve (server.go, lines 454 to 488)

    With one worker (sftpServerWorkerCount = 1) the packets are handled
    one after the other in the order in which the receive loop read
    them.  [received] are the packets read before [recvPacket] failed
    with [recvErr]; a worker that fails closes the connection. *)

(** close any still-open files *)
Fixpoint close_left_open (l : list (string * File)) : M unit :=
  match l with
  | [] => ret tt
  | (handle, file) :: rest =>
      let* _ := record (debugStream_Fprintf handle (Name file)) in
      let* _ := call_error (File_Close file) in
      close_left_open rest
  end.

Definition Serve (received : list rxPacket) (recvErr : error) : M (option error) :=
  let* werr := sftpServerWorker received in
  let* _ := match werr with
            | Some _ => record conn_Close
            | None => ret tt
            end in
  let* svr := get_server in
  let* _ := close_left_open (map_to_list (openFiles svr)) in
  ret (Some recvErr).

End Handlers.

(** ** An environment for the examples

    The examples run the server in a small environment: paths arrive
    clean (so [path.Clean] leaves them as they are), a packet body is a
    few bytes of fields followed by the bytes of a string, and the
    result of a call is chosen by [fails]. *)

Definition linux_errors : list string :=
  [""; "operation not permitted"; "no such file or directory";
   "no such process"; "interrupted system call"; "input/output error";
   "no such device or address"; "argument list too long";
   "exec format error"; "bad file descriptor"; "no child processes";
   "resource temporarily unavailable"; "cannot allocate memory";
   "permission denied"; "bad address"; "block device required";
   "device or resource busy"; "file exists"; "invalid cross-device link";
   "no such device"; "not a directory"; "is a directory";
   "invalid argument"; "too many open files in system";
   "too many open files"; "inappropriate ioctl for device";
   "text file busy"; "file too large"].

Definition byte_Z (b : Byte.byte) : Z := Z.of_N (Byte.to_N b).

Definition errShortPacket : error := other_error "packet too short".

(** A big-endian number of [width] bytes off the front of the bytes. *)
Definition be_uint (bs : list Byte.byte) : Z :=
  fold_left (fun acc b => acc * 256 + byte_Z b) bs 0.

Definition unmarshalUintSafe (width : nat) (b : list Byte.byte)
  : Z * list Byte.byte * option error :=
  if (length b <? width)%nat then (0, [], Some errShortPacket)
  else (be_uint (firstn width b), skipn width b, None).

Definition bytes_string (b : list Byte.byte) : string := string_of_list_byte b.

Definition example_env (fails : Event -> option error) : Env :=
  {| syscall_errors := linux_errors;
     fxp_String := fun _ => "SSH_FXP";
     path_Clean := fun p => p;
     runLs := fun _ fi => FileInfo_Name fi;
     code_text := fun _ => "";
     unmarshal_Init := fun _ => inr 3;
     unmarshal_string := fun _ b =>
       match b with
       | i :: rest => inr (byte_Z i, bytes_string rest)
       | [] => inl errShortPacket
       end;
     unmarshal_Open := fun b =>
       match b with
       | i :: fl :: rest => inr (mkOpen (byte_Z i) (bytes_string rest) (byte_Z fl) 0)
       | _ => inl errShortPacket
       end;
     unmarshal_Read := fun b =>
       match b with
       | i :: off :: n :: rest => inr (byte_Z i, bytes_string rest, byte_Z off, byte_Z n)
       | _ => inl errShortPacket
       end;
     unmarshal_Write := fun b =>
       match b with
       | i :: off :: h :: data => inr (byte_Z i, bytes_string [h], byte_Z off, data)
       | _ => inl errShortPacket
       end;
     unmarshal_attrs := fun _ b =>
       match b with
       | i :: fl :: rest => inr (byte_Z i, bytes_string rest, byte_Z fl, [])
       | _ => inl errShortPacket
       end;
     unmarshal_Mkdir := fun b =>
       match b with
       | i :: rest => inr (byte_Z i, bytes_string rest, 0)
       | [] => inl errShortPacket
       end;
     unmarshal_strings := fun _ b =>
       match b with
       | i :: a :: rest => inr (byte_Z i, bytes_string [a], bytes_string rest)
       | _ => inl errShortPacket
       end;
     unmarshal_Extended := fun _ => inl errShortPacket;
     unmarshalUint32Safe := unmarshalUintSafe 4;
     unmarshalUint64Safe := unmarshalUintSafe 8;
     result_error := fun _ ev => fails ev;
     result_FileInfo := fun _ _ => os_FileInfo "" 0 0 0;
     result_string := fun _ _ => "";
     result_bytes := fun _ _ => [];
     result_dirents := fun _ _ => [];
     result_time := fun tr => Z.of_nat (length tr) |}.

(** Every call succeeds. *)
Definition no_failure : Event -> option error := fun _ => None.

(** A server that serves "/up", with nothing open. *)
Definition example_server : Server :=
  {| readOnly := false;
     openFiles := ∅;
     openDirs := ∅;
     handleCount := 0;
     maxTxPacket := 2 ^ 15;
     uploadPath := "/up";
     fileSizeLimit := 0;
     fileNameMapper := None;
     uploadNotifier := true;
     opendirHook := false;
     readdirHook := true |}.

Definition set_readOnly (svr : Server) (b : bool) : Server :=
  mkServer b (openFiles svr) (openDirs svr) (handleCount svr) (maxTxPacket svr)
    (uploadPath svr) (fileSizeLimit svr) (fileNameMapper svr)
    (uploadNotifier svr) (opendirHook svr) (readdirHook svr).

Definition set_fileSizeLimit (svr : Server) (n : Z) : Server :=
  mkServer (readOnly svr) (openFiles svr) (openDirs svr) (handleCount svr)
    (maxTxPacket svr) (uploadPath svr) n (fileNameMapper svr)
    (uploadNotifier svr) (opendirHook svr) (readdirHook svr).

Definition set_fileNameMapper (svr : Server)
    (f : option (string -> string * bool * option error)) : Server :=
  mkServer (readOnly svr) (openFiles svr) (openDirs svr) (handleCount svr)
    (maxTxPacket svr) (uploadPath svr) (fileSizeLimit svr) f
    (uploadNotifier svr) (opendirHook svr) (readdirHook svr).

Definition start (svr : Server) : State := mkState svr [].

(** ** Vocabulary of the properties *)

(** The errno that [statusFromError] finds in an error: the error itself,
    or the one wrapped one level inside a path error. *)
Definition errno_of (err : error) : option Z :=
  match err with
  | syscall_Errno errno => Some errno
  | os_PathError _ _ (syscall_Errno errno) => Some errno
  | _ => None
  end.

(** The names with which the upload notifier was called, in order. *)
Definition notifications (tr : list Event) : list string :=
  flat_map (fun ev => match ev with
                      | call_uploadNotifier n => [n]
                      | _ => []
                      end) tr.

(** A server with an open file "file.txt" under handle "1" and a virtual
    directory "/" under handle "2". *)
Definition busy_server : Server :=
  set_handleCount
    (set_openDirs
       (set_openFiles example_server
          (<["1" := mkFile "file.txt" 0]> (<["2" := mkFile "/dev/null" 1]> ∅)))
       (<["2" := mkDirInfo "/" false]> ∅))
    2.

(** What the sweep at the end of [Serve] does for the entries of the table
    that it ranges over. *)
Definition sweep_events (l : list (string * File)) : list Event :=
  flat_map (fun '(handle, file) =>
              [debugStream_Fprintf handle (Name file); File_Close file]) l.

(** The answers of the two gates of the worker. *)
Definition op_unsupported_answer (env : Env) (pkt : Packet) : Event :=
  sendPacket_of (R_Status (mkStatus (id pkt)
    (mkStatusError ssh_FX_OP_UNSUPPORTED (code_text env ssh_FX_OP_UNSUPPORTED)))).

Definition permission_denied_answer (env : Env) (pkt : Packet) : Event :=
  sendPacket_of (R_Status (statusFromError env pkt (Some EPERM))).

(** The packet types that the worker lets through to [handlePacket], and
    the other types that it decodes. *)
Definition routed_types : list fxp :=
  [ssh_FXP_INIT; ssh_FXP_OPEN; ssh_FXP_CLOSE; ssh_FXP_WRITE; ssh_FXP_STAT;
   ssh_FXP_LSTAT; ssh_FXP_SETSTAT; ssh_FXP_REALPATH; ssh_FXP_OPENDIR;
   ssh_FXP_READDIR].

Definition refused_types : list fxp :=
  [ssh_FXP_READ; ssh_FXP_FSTAT; ssh_FXP_FSETSTAT; ssh_FXP_MKDIR; ssh_FXP_RMDIR;
   ssh_FXP_REMOVE; ssh_FXP_RENAME; ssh_FXP_SYMLINK; ssh_FXP_READLINK;
   ssh_FXP_EXTENDED].

(** A read-only copy of the server of the examples. *)
Definition readonly_server : Server := set_readOnly example_server true.

(** The types whose packets the first switch of the worker marks as
    writing. *)
Definition writing_types : list fxp :=
  [ssh_FXP_WRITE; ssh_FXP_SETSTAT; ssh_FXP_FSETSTAT; ssh_FXP_REMOVE;
   ssh_FXP_MKDIR; ssh_FXP_RMDIR; ssh_FXP_RENAME; ssh_FXP_SYMLINK].

(** A server with a limit of 100 bytes on the size of a file, and the
    file "file.txt" open under handle "1". *)
Definition limited_server : Server := set_fileSizeLimit busy_server 100.

(** The prefix that a path opened for writing must have (server.go, lines
    545 to 548). *)
Definition upload_prefix (svr : Server) : string :=
  if String.eqb (uploadPath svr) "/" then uploadPath svr else uploadPath svr +:+ "/".

(** The open handler refuses with a bare status code and leaves the server
    as it was. *)
Definition refuses (env : Env) (p : sshFxpOpenPacket) (st : State) (code : fx) : Prop :=
  let answer := sendPacket_of (R_Status (mkStatus (ID p)
                  (mkStatusError code (code_text env code)))) in
  sshFxpOpenPacket_respond env p st
  = Returns (result_error env (trace st) answer)
      (mkState (server st) (trace st ++ [answer])).

(** The server after [nextHandle] on a file that is not a directory. *)
Definition with_file_handle (svr : Server) (f : File) : Server :=
  let count := int64 (handleCount svr + 1) in
  set_openFiles (set_handleCount svr count) (<[Itoa count := f]> (openFiles svr)).

(** The open handler calls [os.Create] on [name]; if that fails it sends
    the translated error and leaves the server as it was, and if it
    succeeds it allocates the next handle for the file and sends it. *)
Definition creates (env : Env) (p : sshFxpOpenPacket) (st : State) (name : string) : Prop :=
  let created := trace st ++ [os_Create name] in
  match result_error env (trace st) (os_Create name) with
  | Some err =>
      let answer := sendPacket_of (R_Status (statusFromError env (P_Open p) (Some err))) in
      sshFxpOpenPacket_respond env p st
      = Returns (result_error env created answer)
          (mkState (server st) (created ++ [answer]))
  | None =>
      let answer := sendPacket_of
                      (sshFxpHandlePacket (ID p)
                         (Itoa (int64 (handleCount (server st) + 1)))) in
      sshFxpOpenPacket_respond env p st
      = Returns (result_error env created answer)
          (mkState (with_file_handle (server st) (mkFile name (length (trace st))))
             (created ++ [answer]))
  end.

(** The filename-mapping hook, when set, accepts [name] as [final]. *)
Definition accepts (svr : Server) (name final : string) : Prop :=
  match fileNameMapper svr with
  | None => final = name
  | Some mapper => mapper name = (final, true, None)
  end.

(** The open handler allocates a handle for [f]: the server gains the next
    handle, bound to [f], and the handle is what is sent last. *)
Definition allocates (env : Env) (p : sshFxpOpenPacket) (st : State) (f : File) : Prop :=
  exists r tr,
    sshFxpOpenPacket_respond env p st
    = Returns r (mkState (with_file_handle (server st) f) tr) /\
    last tr
    = Some (sendPacket_of (sshFxpHandlePacket (ID p)
                             (Itoa (int64 (handleCount (server st) + 1))))).

(** An environment in which [os.Create] is denied. *)
Definition create_denied : Event -> option error :=
  fun ev => match ev with
            | os_Create name => Some (os_PathError "open" name (syscall_Errno 13))
            | _ => None
            end.

(** A server whose filename-mapping hook puts every upload into a spool
    directory. *)
Definition spool_server : Server :=
  set_fileNameMapper example_server
    (Some (fun name => ("/srv/incoming/" +:+ name, true, None))).

(** The server after [nextHandle] on the file of a virtual directory. *)
Definition with_dir_handle (svr : Server) (f : File) (dirName : string) : Server :=
  set_openDirs (with_file_handle svr f)
    (<[Itoa (int64 (handleCount svr + 1)) := mkDirInfo dirName false]> (openDirs svr)).

(** A directory and the name of a child, joined into a path. *)
Definition child_path (dir child : string) : string :=
  if String.eqb dir "/" then "/" +:+ child else dir +:+ "/" +:+ child.

(** [child] is the next segment from [dir] toward [target]: it has no
    slash, and [target] is [dir/child] or lies below it. *)
Definition next_segment (dir target child : string) : Prop :=
  GoString.ContainsRune child "/" = false /\
  exists rest, target = child_path dir child +:+ rest /\
               (rest = "" \/ GoString.HasPrefix rest "/" = true).

(** The listing that [readdir] sends for a virtual directory: the one
    fabricated entry. *)
Definition one_child_listing (env : Env) (ID : Z) (child : string) (now : Z) : Event :=
  let entry := fileInfo child ModeDir_0755 now in
  sendPacket_of (sshFxpNamePacket ID
    [mkNameAttr child (runLs env "" entry) (Attrs_of entry)]).


(** A server that serves "/srv/up", with the virtual directory "/" open
    for reading under handle "1" and not yet listed. *)
Definition deep_server : Server :=
  set_handleCount
    (set_openDirs
       (set_openFiles (set_uploadPath example_server "/srv/up")
          (<["1" := mkFile "/dev/null" 0]> ∅))
       (<["1" := mkDirInfo "/" false]> ∅))
    1.

(** [dirInfo.read = true] on an entry. *)
Definition mark (di : openDirInfo) : openDirInfo := mkDirInfo (di_name di) true.

(** How one turn of the worker may change the server. *)
Inductive server_step (svr : Server) : Server -> Prop :=
| step_same : server_step svr svr
| step_close (h : string) :
    server_step svr
      (set_openDirs (set_openFiles svr (delete h (openFiles svr)))
         (delete h (openDirs svr)))
| step_file (f : File) : server_step svr (with_file_handle svr f)
| step_dir (f : File) (d : string) :
    d <> "" -> server_step svr (with_dir_handle svr f d)
| step_read (h : string) :
    server_step svr (set_openDirs svr (alter mark h (openDirs svr))).

Definition not_extended (pkt : Packet) : Prop :=
  match pkt with
  | sshFxpExtendedPacket _ _ _ => False
  | _ => True
  end.

(** Every handle of the table is the decimal text of a number that the
    counter has passed. *)
Definition handles_issued (svr : Server) : Prop :=
  0 <= handleCount svr /\
  forall h, is_Some (openFiles svr !! h) \/ is_Some (openDirs svr !! h) ->
            exists n, h = Itoa n /\ 0 < n <= handleCount svr.


(** ** NewServer and the options (server.go, lines 104 to 202) *)

Definition set_uploadNotifier (svr : Server) (b : bool) : Server :=
  mkServer (readOnly svr) (openFiles svr) (openDirs svr) (handleCount svr)
    (maxTxPacket svr) (uploadPath svr) (fileSizeLimit svr) (fileNameMapper svr)
    b (opendirHook svr) (readdirHook svr).

Definition set_opendirHook (svr : Server) (b : bool) : Server :=
  mkServer (readOnly svr) (openFiles svr) (openDirs svr) (handleCount svr)
    (maxTxPacket svr) (uploadPath svr) (fileSizeLimit svr) (fileNameMapper svr)
    (uploadNotifier svr) b (readdirHook svr).

Definition set_readdirHook (svr : Server) (b : bool) : Server :=
  mkServer (readOnly svr) (openFiles svr) (openDirs svr) (handleCount svr)
    (maxTxPacket svr) (uploadPath svr) (fileSizeLimit svr) (fileNameMapper svr)
    (uploadNotifier svr) (opendirHook svr) b.

(** A [ServerOption] is a function that configures the server, or fails. *)
Definition ServerOption : Type := Server -> error + Server.

(** The debug stream is not a field of [Server] here: what is written
    onto it is an event of the trace. *)
Definition WithDebug : ServerOption := fun s => inr s.

Definition WithFileSizeLimit (limit : Z) : ServerOption :=
  fun s => inr (set_fileSizeLimit s limit).

Definition ReadOnly : ServerOption := fun s => inr (set_readOnly s true).

Definition UploadPath (path : string) : ServerOption :=
  fun s => inr (set_uploadPath s path).

Definition FileNameMapper (f : option (string -> string * bool * option error))
  : ServerOption :=
  fun s => inr (set_fileNameMapper s f).

(** The three hooks, by whether the function given is not [nil]. *)
Definition UploadNotifier (f : bool) : ServerOption :=
  fun s => inr (set_uploadNotifier s f).

Definition ReaddirHook (f : bool) : ServerOption :=
  fun s => inr (set_readdirHook s f).

Definition OpendirHook (f : bool) : ServerOption :=
  fun s => inr (set_opendirHook s f).

(** [s[i]]; [None] is the run-time panic of an index out of range *)
Definition byte_at (s : string) (i : Z) : option ascii :=
  if (0 <=? i) && (i <? GoString.len s) then String.get (Z.to_nat i) s else None.

(** The loop over the options: the first error ends it. *)
Fixpoint apply_options (options : list ServerOption) (s : Server) : error + Server :=
  match options with
  | [] => inr s
  | o :: rest =>
      match o s with
      | inl err => inl err
      | inr s' => apply_options rest s'
      end
  end.

(** The fields of the new server before the options; what is not set has
    the zero value of its type.  The connection, the channel of the
    packets and the debug stream are not fields of [Server] here. *)
Definition new_Server : Server :=
  {| readOnly := false;
     openFiles := ∅;
     openDirs := ∅;
     handleCount := 0;
     maxTxPacket := Z.shiftl 1 15;
     uploadPath := "";
     fileSizeLimit := 0;
     fileNameMapper := None;
     uploadNotifier := false;
     opendirHook := false;
     readdirHook := false |}.

(** [NewServer]: the error of an option, or the server; [None] is a
    run-time panic. *)
Definition NewServer (env : Env) (options : list ServerOption) : option (error + Server) :=
  match apply_options options new_Server with
  | inl err => Some (inl err)
  | inr s =>
      if String.eqb (uploadPath s) "" then Some (inr (set_uploadPath s "/"))
      else
        let up := path_Clean env (uploadPath s) in
        if GoString.len up >? 1 then
          match byte_at up (GoString.len up - 1) with
          | None => None
          | Some c =>
              if Ascii.eqb c "/" then
                match GoString.slice_to up (GoString.len up - 1) with
                | None => None
                | Some up' => Some (inr (set_uploadPath s up'))
                end
              else Some (inr (set_uploadPath s up))
          end
        else Some (inr (set_uploadPath s up))
  end.

(** The options that server.go defines. *)
Inductive library_option : ServerOption -> Prop :=
| lib_WithDebug : library_option WithDebug
| lib_WithFileSizeLimit (limit : Z) : library_option (WithFileSizeLimit limit)
| lib_ReadOnly : library_option ReadOnly
| lib_UploadPath (path : string) : library_option (UploadPath path)
| lib_FileNameMapper (f : option (string -> string * bool * option error)) :
    library_option (FileNameMapper f)
| lib_UploadNotifier (f : bool) : library_option (UploadNotifier f)
| lib_ReaddirHook (f : bool) : library_option (ReaddirHook f)
| lib_OpendirHook (f : bool) : library_option (OpendirHook f).

(** ** Vocabulary of the further properties *)

(** The calls that the handler of a packet may make before it answers,
    read off the cases of [handlePacket] and the [respond] methods. *)
Definition permitted (pkt : Packet) (ev : Event) : Prop :=
  match pkt, ev with
  | sshFxpStatPacket _ _, time_Now => True
  | sshFxpLstatPacket _ _, time_Now => True
  | sshFxpFstatPacket _ _, File_Stat _ => True
  | sshFxpMkdirPacket _ Path _, os_Mkdir path perm => path = Path /\ perm = 493
  | sshFxpRmdirPacket _ Path, os_Remove path => path = Path
  | sshFxpRemovePacket _ Filename, os_Remove path => path = Filename
  | sshFxpRenamePacket _ Oldpath Newpath, os_Rename o n => o = Oldpath /\ n = Newpath
  | sshFxpSymlinkPacket _ Targetpath Linkpath, os_Symlink t l =>
      t = Targetpath /\ l = Linkpath
  | sshFxpReadlinkPacket _ Path, os_Readlink path => path = Path
  | sshFxpClosePacket _ _, File_Close _ => True
  | sshFxpClosePacket _ _, call_uploadNotifier _ => True
  | sshFxpOpendirPacket _ _, os_Open name => name = "/dev/null"
  | sshFxpOpendirPacket _ _, call_opendirHook => True
  | P_Open p, os_Open name => name = "/dev/null" /\ readonly p = true
  | P_Open p, call_opendirHook => readonly p = true
  | P_Open p, os_Create _ => readonly p = false
  | sshFxpReadPacket _ _ Offset _, File_ReadAt _ _ off => off = int64 Offset
  | sshFxpWritePacket _ _ Offset Data, File_WriteAt _ data off =>
      data = Data /\ off = int64 Offset
  | sshFxpReaddirPacket _ _, call_readdirHook => True
  | sshFxpReaddirPacket _ _, time_Now => True
  | sshFxpReaddirPacket _ _, File_Readdir _ n => n = 128
  | sshFxpFsetstatPacket _ _ _ _, File_Truncate _ _ => True
  | sshFxpFsetstatPacket _ _ _ _, File_Chmod _ _ => True
  | sshFxpFsetstatPacket _ _ _ _, os_Chtimes _ _ _ => True
  | sshFxpFsetstatPacket _ _ _ _, File_Chown _ _ _ => True
  | _, _ => False
  end.

(** The ID that a response carries; the version packet has none. *)
Definition response_ID (m : Response) : option Z :=
  match m with
  | sshFxVersionPacket _ => None
  | R_Status p => Some (st_ID p)
  | sshFxpHandlePacket i _ | sshFxpStatResponse i _ | sshFxpNamePacket i _
  | sshFxpDataPacket i _ _ => Some i
  end.

Definition request_ID (pkt : Packet) : option Z :=
  match pkt with
  | sshFxInitPacket _ => None
  | _ => Some (id pkt)
  end.

(** The packet is answered: after calls that are permitted for it, one
    response is sent, last, with the ID of the request; the handler
    returns no error exactly when the response could be sent. *)
Definition answered (env : Env) (pkt : Packet) (st st' : State) (r : option error) : Prop :=
  exists pre m,
    trace st' = (trace st ++ pre) ++ [sendPacket_of m] /\
    Forall (permitted pkt) pre /\
    (r = None <-> result_error env (trace st ++ pre) (sendPacket_of m) = None) /\
    response_ID m = request_ID pkt.

(** The calls that the worker can make at all: it opens nothing but
    "/dev/null", it creates, writes, lists and closes files, it asks the
    clock and the hooks, and it sends. *)
Definition confined (ev : Event) : Prop :=
  match ev with
  | os_Open name => name = "/dev/null"
  | File_Readdir _ n => n = 128
  | os_Create _ | File_Close _ | File_WriteAt _ _ _ | time_Now
  | call_uploadNotifier _ | call_opendirHook | call_readdirHook
  | sendPacket_of _ => True
  | _ => False
  end.

(** The calls that change a file. *)
Definition writes (ev : Event) : Prop :=
  match ev with
  | os_Create _ | File_WriteAt _ _ _ | File_Truncate _ _ | File_Chmod _ _
  | File_Chown _ _ _ | os_Chtimes _ _ _ | os_Mkdir _ _ | os_Remove _
  | os_Rename _ _ | os_Symlink _ _ => True
  | _ => False
  end.

(** A packet that cannot be decoded. *)
Definition undecodable (env : Env) (p : rxPacket) : Prop :=
  match decode env (pktType p) (pktBytes p) with
  | None | Some (inl _, _) => True
  | Some (inr _, _) => False
  end.

(** Every handle of a directory is a handle of a file. *)
Definition dirs_are_files (svr : Server) : Prop :=
  forall h, is_Some (openDirs svr !! h) -> is_Some (openFiles svr !! h).

(** The handle that a packet names, for the packets that work on an open
    file. *)
Definition handle_of (pkt : Packet) : option string :=
  match pkt with
  | sshFxpClosePacket _ h | sshFxpReadPacket _ h _ _ | sshFxpWritePacket _ h _ _
  | sshFxpFstatPacket _ h | sshFxpFsetstatPacket _ h _ _
  | sshFxpReaddirPacket _ h => Some h
  | _ => None
  end.

(** The status that reports an errno of the table of package syscall. *)
Definition errno_answer (env : Env) (pkt : Packet) (code : fx) (errno : Z) : Event :=
  sendPacket_of (R_Status (mkStatus (id pkt)
    (mkStatusError code (Errno_Error (syscall_errors env) errno)))).

(** The answer to a read: the bytes, or the status of the error.  An
    end of file that comes with bytes is not reported. *)
Definition read_answer (env : Env) (p : Packet) (ID : Z) (data : list Byte.byte)
    (err : option error) : Response :=
  match err with
  | None => sshFxpDataPacket ID (uint32 (Z.of_nat (length data))) data
  | Some e =>
      match e, data with
      | io_EOF, _ :: _ => sshFxpDataPacket ID (uint32 (Z.of_nat (length data))) data
      | _, _ => R_Status (statusFromError env p (Some e))
      end
  end.

(** Every handle of a file is the handle of a directory: no upload is
    open. *)
Definition files_are_dirs (svr : Server) : Prop :=
  forall h, is_Some (openFiles svr !! h) -> is_Some (openDirs svr !! h).

(** The environment of the examples, with a [path.Clean] that gives "."
    for the empty path, as the one of Go does. *)
Definition clean_env : Env :=
  let env := example_env no_failure in
  {| syscall_errors := syscall_errors env;
     fxp_String := fxp_String env;
     path_Clean := fun p => if String.eqb p "" then "." else p;
     runLs := runLs env;
     code_text := code_text env;
     unmarshal_Init := unmarshal_Init env;
     unmarshal_string := unmarshal_string env;
     unmarshal_Open := unmarshal_Open env;
     unmarshal_Read := unmarshal_Read env;
     unmarshal_Write := unmarshal_Write env;
     unmarshal_attrs := unmarshal_attrs env;
     unmarshal_Mkdir := unmarshal_Mkdir env;
     unmarshal_strings := unmarshal_strings env;
     unmarshal_Extended := unmarshal_Extended env;
     unmarshalUint32Safe := unmarshalUint32Safe env;
     unmarshalUint64Safe := unmarshalUint64Safe env;
     result_error := result_error env;
     result_FileInfo := result_FileInfo env;
     result_string := result_string env;
     result_bytes := result_bytes env;
     result_dirents := result_dirents env;
     result_time := result_time env |}.

(** * Properties *)

(** Unfolding of the monad and of the calls that leave the server. *)
Create HintDb sftp_run.
#[local] Hint Unfold bind ret panic get_server put_server record call
  call_error call_with_error open_file time_Now_call sendPacket sendError
  sendErrorCode index_or_panic getHandle getHandleDirInfo : sftp_run.

Ltac run := autounfold with sftp_run; cbn [server trace].

(** ** Go strings *)

Module GoStringFacts.
Import GoString.

Lemma HasPrefix_app (pre rest : string) : HasPrefix (pre +:+ rest) pre = true.
Proof.
  induction pre as [|c pre IH]; [reflexivity|].
  cbn [append HasPrefix]. rewrite Ascii.eqb_refl. exact IH.
Qed.

Lemma HasPrefix_inv (s pre : string) :
  HasPrefix s pre = true -> exists rest, s = pre +:+ rest.
Proof.
  revert s. induction pre as [|c pre IH]; intros s H; cbn [HasPrefix append] in *.
  - exists s. reflexivity.
  - destruct s as [|d s]; [discriminate|].
    destruct (Ascii.eqb c d) eqn:E; [|discriminate].
    apply Ascii.eqb_eq in E. subst d.
    destruct (IH _ H) as [rest ->]. exists rest. reflexivity.
Qed.

Lemma HasPrefix_iff (s pre : string) :
  HasPrefix s pre = true <-> exists rest, s = pre +:+ rest.
Proof.
  split; [apply HasPrefix_inv|]. intros [rest ->]. apply HasPrefix_app.
Qed.

Lemma app_assoc (a b c : string) : (a +:+ b) +:+ c = a +:+ (b +:+ c).
Proof. induction a as [|x a IH]; simpl; [reflexivity|]. now rewrite IH. Qed.

Lemma len_app (a b : string) : len (a +:+ b) = len a + len b.
Proof.
  unfold len. induction a as [|x a IH]; simpl String.length; [lia|].
  rewrite !Nat2Z.inj_succ. lia.
Qed.

Lemma len_nonneg (a : string) : 0 <= len a.
Proof. unfold len. lia. Qed.

Lemma drop_app (pre rest : string) : drop (String.length pre) (pre +:+ rest) = rest.
Proof. induction pre as [|c pre IH]; simpl; [reflexivity|exact IH]. Qed.

Lemma slice_from_app (pre rest : string) :
  slice_from (pre +:+ rest) (len pre) = Some rest.
Proof.
  unfold slice_from. rewrite len_app.
  pose proof (len_nonneg pre). pose proof (len_nonneg rest).
  replace (0 <=? len pre) with true by (symmetry; apply Z.leb_le; lia).
  replace (len pre <=? len pre + len rest) with true by (symmetry; apply Z.leb_le; lia).
  simpl. unfold len. rewrite Nat2Z.id. now rewrite drop_app.
Qed.

Lemma ContainsRune_app (a b : string) (r : ascii) :
  ContainsRune (a +:+ b) r = ContainsRune a r || ContainsRune b r.
Proof.
  induction a as [|c a IH]; [reflexivity|].
  cbn [append ContainsRune]. destruct (Ascii.eqb c r); [reflexivity|exact IH].
Qed.

Lemma Index_cons (c : ascii) (s : string) :
  Index (String c s) "/" =
  if Ascii.eqb "/" c then 0
  else if Index s "/" <? 0 then -1 else Index s "/" + 1.
Proof.
  cbn [Index HasPrefix]. destruct (Ascii.eqb "/" c); [destruct s|]; reflexivity.
Qed.

Lemma Index_slash_ge (s : string) : -1 <= Index s "/".
Proof.
  induction s as [|d t IHt]; [simpl; lia|].
  rewrite Index_cons.
  destruct (Ascii.eqb "/" d); [lia|].
  destruct (Index t "/" <? 0) eqn:L'; [lia|]. apply Z.ltb_ge in L'. lia.
Qed.

Lemma Index_slash_none (s : string) :
  Index s "/" = -1 <-> ContainsRune s "/" = false.
Proof.
  induction s as [|c s IH]; [simpl; tauto|].
  rewrite Index_cons. cbn [ContainsRune]. rewrite (eqb_sym c).
  pose proof (Index_slash_ge s).
  destruct (Ascii.eqb "/" c); [split; discriminate|].
  destruct (Index s "/" <? 0) eqn:L.
  - apply Z.ltb_lt in L. split; [intros _; apply IH; lia|reflexivity].
  - apply Z.ltb_ge in L. split; [lia|]. intros H'. apply IH in H'. lia.
Qed.

Lemma slice_to_cons (c : ascii) (s : string) (i : Z) :
  0 <= i -> slice_to s i = Some (take (Z.to_nat i) s) ->
  slice_to (String c s) (i + 1) = Some (String c (take (Z.to_nat i) s)).
Proof.
  unfold slice_to, len. simpl String.length. intros Hi.
  destruct ((0 <=? i) && (i <=? Z.of_nat (String.length s))) eqn:B; [|discriminate].
  apply andb_true_iff in B. destruct B as [B1 B2]. apply Z.leb_le in B1, B2.
  intros _.
  replace (0 <=? i + 1) with true by (symmetry; apply Z.leb_le; lia).
  replace (i + 1 <=? Z.of_nat (S (String.length s))) with true
    by (symmetry; apply Z.leb_le; lia).
  simpl. replace (Z.to_nat (i + 1)) with (S (Z.to_nat i)) by lia. reflexivity.
Qed.

(** The segment up to the first "/": what [Index] and [s[:i]] compute. *)
Lemma Index_slash_split (s : string) :
  Index s "/" <> -1 ->
  exists seg rest,
    slice_to s (Index s "/") = Some seg /\
    s = seg +:+ "/" +:+ rest /\
    ContainsRune seg "/" = false.
Proof.
  induction s as [|c s IH]; [simpl; congruence|].
  rewrite Index_cons. pose proof (Index_slash_ge s) as Hge.
  destruct (Ascii.eqb "/" c) eqn:E.
  - apply Ascii.eqb_eq in E. subst c. intros _. exists "", s.
    repeat split.
  - destruct (Index s "/" <? 0) eqn:L; [congruence|].
    apply Z.ltb_ge in L. intros _.
    destruct IH as (seg & rest & H1 & H2 & H3); [lia|].
    exists (String c seg), rest. split; [|split].
    + assert (seg = take (Z.to_nat (Index s "/")) s) as ->.
      { unfold slice_to in H1.
        destruct ((0 <=? Index s "/") && (Index s "/" <=? len s)); congruence. }
      apply slice_to_cons; [lia|exact H1].
    + simpl. f_equal. exact H2.
    + cbn [ContainsRune]. rewrite eqb_sym, E. exact H3.
Qed.

Lemma app_inv_head (a b c : string) : a +:+ b = a +:+ c -> b = c.
Proof. induction a as [|x a IH]; cbn [append]; [tauto|]. intros H. inversion H. auto. Qed.

Lemma app_empty_r (a : string) : a +:+ "" = a.
Proof. induction a as [|c a IH]; cbn [append]; [reflexivity|now rewrite IH]. Qed.

End GoStringFacts.

(** ** The virtual directory *)

(** C2. For every string [p], [isUploadDirOrAncestor] answers true exactly
    when [p] is the upload directory, or [p] is "/", or the upload
    directory starts with [p] followed by "/". *)
Theorem isUploadDirOrAncestor_iff (s : Server) (p : string) :
  isUploadDirOrAncestor s p = true <->
  p = uploadPath s \/ p = "/" \/ exists rest, uploadPath s = p +:+ "/" +:+ rest.
Proof.
  unfold isUploadDirOrAncestor.
  destruct (String.eqb p (uploadPath s)) eqn:E1; simpl.
  - apply String.eqb_eq in E1. tauto.
  - destruct (String.eqb p "/") eqn:E2.
    + apply String.eqb_eq in E2. tauto.
    + apply String.eqb_neq in E1, E2.
      rewrite GoStringFacts.HasPrefix_iff. split.
      * intros [rest H]. right; right. exists rest.
        rewrite H, GoStringFacts.app_assoc. reflexivity.
      * intros [H|[H|[rest H]]]; try contradiction.
        exists rest. rewrite H, GoStringFacts.app_assoc. reflexivity.
Qed.

(** ** Translation of errors *)

Lemma Errno_Error_nonempty (table : list string) (e : Z) : Errno_Error table e <> "".
Proof.
  unfold Errno_Error.
  destruct ((0 <=? e) && (e <? Z.of_nat (length table))); [|discriminate].
  destruct (table !! Z.to_nat e) as [[|c s]|]; discriminate.
Qed.

Lemma append_nonempty_r (a b : string) : b <> "" -> a +:+ b <> "".
Proof. destruct a; [tauto|discriminate]. Qed.

(** Only an error whose own text is empty has an empty description. *)
Lemma Error_empty_iff (table : list string) (err : error) :
  Error table err = "" <-> err = other_error "".
Proof.
  split; [|intros ->; reflexivity].
  destruct err as [|e|op path inner|cause m|text]; cbn [Error]; intros H.
  - discriminate.
  - now apply Errno_Error_nonempty in H.
  - exfalso. revert H. apply append_nonempty_r. discriminate.
  - exfalso. revert H. apply append_nonempty_r. discriminate.
  - now subst.
Qed.

(** C5, as stated, fails: an error whose text is empty (a hook may return
    one) is answered with FAILURE and an empty message. *)
Lemma statusFromError_empty_message :
  statusFromError (example_env no_failure) (sshFxpReaddirPacket 7 "1")
    (Some (other_error ""))
  = mkStatus 7 (mkStatusError ssh_FX_FAILURE "").
Proof. reflexivity. Qed.

(** C5, amended. [statusFromError] is a total function of the packet and
    the error: no error gives OK; [io.EOF] gives EOF; an errno, bare or
    wrapped one level inside a path error, is translated by
    [translateErrno] (ENOENT to NO_SUCH_FILE, EPERM to PERMISSION_DENIED,
    0 to OK, anything else to FAILURE); every other error gives FAILURE;
    the message is always the text of the error, which is empty only for
    an error whose own text is empty. *)
Theorem statusFromError_translation (env : Env) (p : Packet) :
  statusFromError env p None = mkStatus (id p) (mkStatusError ssh_FX_OK "") /\
  Code (st_StatusError (statusFromError env p (Some io_EOF))) = ssh_FX_EOF /\
  Code (st_StatusError (statusFromError env p (Some ENOENT))) = ssh_FX_NO_SUCH_FILE /\
  Code (st_StatusError (statusFromError env p (Some EPERM))) = ssh_FX_PERMISSION_DENIED /\
  (forall op path errno,
      statusFromError env p (Some (os_PathError op path (syscall_Errno errno)))
      = mkStatus (id p)
          (mkStatusError
             (Code (st_StatusError (statusFromError env p (Some (syscall_Errno errno)))))
             (Error (syscall_errors env) (os_PathError op path (syscall_Errno errno))))) /\
  (forall errno,
      Code (st_StatusError (statusFromError env p (Some (syscall_Errno errno))))
      = translateErrno errno) /\
  translateErrno 0 = ssh_FX_OK /\
  (forall errno,
      errno <> 0 -> errno <> syscall_ENOENT -> errno <> syscall_EPERM ->
      translateErrno errno = ssh_FX_FAILURE) /\
  (forall err,
      err <> io_EOF -> errno_of err = None ->
      Code (st_StatusError (statusFromError env p (Some err))) = ssh_FX_FAILURE) /\
  (forall err,
      st_ID (statusFromError env p (Some err)) = id p /\
      msg (st_StatusError (statusFromError env p (Some err)))
      = Error (syscall_errors env) err) /\
  (forall err,
      msg (st_StatusError (statusFromError env p (Some err))) = "" <->
      err = other_error "").
Proof.
  assert (Hmsg : forall err,
             st_ID (statusFromError env p (Some err)) = id p /\
             msg (st_StatusError (statusFromError env p (Some err)))
             = Error (syscall_errors env) err).
  { intros err. destruct err as [|e|op path [|e| | |]|cause m|text]; split; reflexivity. }
  repeat split; try reflexivity.
  - intros errno H0 H1 H2. unfold translateErrno.
    apply Z.eqb_neq in H0, H1, H2. now rewrite H0, H1, H2.
  - intros err Hne Hno.
    destruct err as [|e|op path [|e| | |]|cause m|text];
      try reflexivity; try congruence; discriminate.
  - apply Hmsg.
  - apply Hmsg.
  - intros H. apply (Error_empty_iff (syscall_errors env)).
    now rewrite <- (proj2 (Hmsg err)).
  - intros ->. reflexivity.
Qed.

Lemma statusFromError_translation_witness :
  Code (st_StatusError
          (statusFromError (example_env no_failure) (sshFxpReaddirPacket 7 "1")
             (Some (syscall_Errno 13)))) = ssh_FX_FAILURE /\
  Code (st_StatusError
          (statusFromError (example_env no_failure) (sshFxpReaddirPacket 7 "1")
             (Some (other_error "listing failed")))) = ssh_FX_FAILURE.
Proof.
  pose proof (statusFromError_translation (example_env no_failure)
                (sshFxpReaddirPacket 7 "1")) as (_ & _ & _ & _ & _ & Herrno & _ & Hother & Hrest & _).
  split.
  - rewrite Herrno. apply Hother; discriminate.
  - apply Hrest; [discriminate|reflexivity].
Defined.

(** ** The table of handles *)

Lemma closeHandle_unknown (env : Env) (st : State) (handle : string) :
  openFiles (server st) !! handle = None ->
  closeHandle env handle st = Returns (Some EBADF) st.
Proof.
  intros H. unfold closeHandle. run. rewrite H. reflexivity.
Qed.

Lemma closeHandle_known (env : Env) (st : State) (handle : string) (f : File) :
  openFiles (server st) !! handle = Some f ->
  closeHandle env handle st =
  Returns (result_error env (trace st) (File_Close f))
    (mkState
       (set_openDirs (set_openFiles (server st) (delete handle (openFiles (server st))))
          (delete handle (openDirs (server st))))
       (trace st ++ File_Close f ::
          (if uploadNotifier (server st)
           then match openDirs (server st) !! handle with
                | None => [call_uploadNotifier (Name f)]
                | Some _ => []
                end
           else []))).
Proof.
  intros H. unfold closeHandle. run. rewrite H. run.
  destruct st as [svr tr]. cbn [server trace] in *.
  destruct svr as [ro ofs ods hc mtp up fsl fnm un oh rh]; cbn in *.
  case_bool_decide as Hd; cbn.
  - rewrite andb_false_r. destruct Hd as [di ->]. destruct un; reflexivity.
  - rewrite andb_true_r. assert (ods !! handle = None) as Hn.
    { destruct (ods !! handle) eqn:E; [exfalso; apply Hd; eauto|reflexivity]. }
    rewrite (delete_id _ _ Hn), Hn.
    destruct un; cbn; rewrite <- ?app_assoc; reflexivity.
Qed.

Lemma notifications_app (a b : list Event) :
  notifications (a ++ b) = (notifications a ++ notifications b)%list.
Proof. unfold notifications. apply flat_map_app. Qed.

(** C6. A handle of the table is removed by its first close, which closes
    the file; a second close fails with EBADF (bad handle) and does
    nothing.  The upload notifier, when set, is called exactly once, with
    the name of the file, for a handle that is not a directory handle, and
    is not called for a directory handle. *)
Theorem closeHandle_twice (env : Env) (st : State) (handle : string) (f : File) :
  openFiles (server st) !! handle = Some f ->
  exists st1,
    closeHandle env handle st
    = Returns (result_error env (trace st) (File_Close f)) st1 /\
    openFiles (server st1) !! handle = None /\
    openDirs (server st1) !! handle = None /\
    (exists notified,
        trace st1 = trace st ++ File_Close f :: notified /\
        notified = (if uploadNotifier (server st)
                    then match openDirs (server st) !! handle with
                         | None => [call_uploadNotifier (Name f)]
                         | Some _ => []
                         end
                    else [])) /\
    closeHandle env handle st1 = Returns (Some EBADF) st1 /\
    (forall ID,
        let p := sshFxpClosePacket ID handle in
        let answer := sendPacket_of (R_Status (statusFromError env p (Some EBADF))) in
        handlePacket env p st1
        = Returns (result_error env (trace st1) answer)
            (mkState (server st1) (trace st1 ++ [answer]))) /\
    notifications (trace st1)
    = (notifications (trace st)
       ++ (if uploadNotifier (server st)
           then match openDirs (server st) !! handle with
                | None => [Name f]
                | Some _ => []
                end
           else []))%list.
Proof.
  intros H. eexists. split; [apply closeHandle_known; exact H|].
  assert (Hgone : openFiles
                    (set_openDirs
                       (set_openFiles (server st) (delete handle (openFiles (server st))))
                       (delete handle (openDirs (server st)))) !! handle = None).
  { cbn. apply lookup_delete_eq. }
  repeat split.
  - exact Hgone.
  - cbn. apply lookup_delete_eq.
  - eexists. split; reflexivity.
  - apply closeHandle_unknown. exact Hgone.
  - intros ID. cbv zeta. unfold handlePacket. run.
    rewrite closeHandle_unknown by exact Hgone. reflexivity.
  - cbn [trace]. rewrite notifications_app. f_equal.
    destruct (uploadNotifier (server st)); [|reflexivity].
    destruct (openDirs (server st) !! handle); reflexivity.
Qed.

Lemma closeHandle_twice_witness :
  exists st1,
    closeHandle (example_env no_failure) "1" (start busy_server) = Returns None st1 /\
    closeHandle (example_env no_failure) "1" st1 = Returns (Some EBADF) st1 /\
    notifications (trace st1) = ["file.txt"].
Proof.
  destruct (closeHandle_twice (example_env no_failure) (start busy_server) "1"
              (mkFile "file.txt" 0) eq_refl)
    as (st1 & H1 & _ & _ & _ & H2 & _ & H3).
  exists st1. repeat split; assumption.
Defined.

(** ** Shutdown *)

Lemma close_left_open_trace (env : Env) (l : list (string * File)) (st : State) :
  close_left_open env l st
  = Returns tt (mkState (server st) (trace st ++ sweep_events l)).
Proof.
  revert st. induction l as [|[handle file] l IH]; intros st.
  - cbn. rewrite app_nil_r. now destruct st.
  - cbn [close_left_open]. run. rewrite IH. cbn [server trace sweep_events flat_map].
    rewrite <- !app_assoc. reflexivity.
Qed.

Lemma notifications_sweep (l : list (string * File)) :
  notifications (sweep_events l) = [].
Proof. induction l as [|[h f] l IH]; [reflexivity|exact IH]. Qed.

Lemma In_sweep_events (l : list (string * File)) (ev : Event) :
  In ev (sweep_events l) <->
  exists h f, In (h, f) l /\ (ev = debugStream_Fprintf h (Name f) \/ ev = File_Close f).
Proof.
  unfold sweep_events. rewrite in_flat_map. split.
  - intros [[h f] [Hin Hev]]. exists h, f. split; [exact Hin|].
    cbn in Hev. intuition.
  - intros (h & f & Hin & Hev). exists (h, f). split; [exact Hin|].
    cbn. intuition.
Qed.

(** C9, as stated, fails: with the notifier set and the file "file.txt"
    left open under handle "1", the shutdown closes the file and never
    calls the notifier. *)
Lemma Serve_leaves_notifier_uncalled :
  uploadNotifier busy_server = true /\
  openFiles busy_server !! "1" = Some (mkFile "file.txt" 0) /\
  openDirs busy_server !! "1" = None /\
  exists st',
    Serve (example_env no_failure) [] io_EOF (start busy_server)
    = Returns (Some io_EOF) st' /\
    In (File_Close (mkFile "file.txt" 0)) (trace st') /\
    notifications (trace st') = [].
Proof.
  repeat split. eexists. split; [reflexivity|]. split; [|reflexivity].
  cbn. tauto.
Qed.

(** C9, amended. When the serving loop shuts down, every handle still in
    the table has its file closed and is reported on the debug stream;
    whatever the closes return, [Serve] returns the error of the receive
    loop.  Nothing else happens in the sweep: the upload notifier is not
    called and the table keeps its entries. *)
Theorem Serve_shutdown (env : Env) (received : list rxPacket) (recvErr : error)
    (st st_w : State) (werr : option error) :
  sftpServerWorker env received st = Returns werr st_w ->
  exists sweep,
    Serve env received recvErr st
    = Returns (Some recvErr)
        (mkState (server st_w)
           (trace st_w
            ++ match werr with
               | Some _ => [conn_Close]
               | None => []
               end
            ++ sweep)) /\
    (forall h f, openFiles (server st_w) !! h = Some f ->
                 In (debugStream_Fprintf h (Name f)) sweep /\ In (File_Close f) sweep) /\
    (forall ev, In ev sweep ->
                exists h f, openFiles (server st_w) !! h = Some f /\
                            (ev = debugStream_Fprintf h (Name f) \/ ev = File_Close f)) /\
    length sweep = (2 * size (openFiles (server st_w)))%nat /\
    notifications sweep = [].
Proof.
  intros Hw. exists (sweep_events (map_to_list (openFiles (server st_w)))).
  split; [|split; [|split; [|split]]].
  - unfold Serve. run. rewrite Hw.
    destruct werr as [e|]; run; rewrite close_left_open_trace; cbn [server trace].
    + rewrite <- app_assoc. reflexivity.
    + reflexivity.
  - intros h f Hl. apply elem_of_map_to_list, list_elem_of_In in Hl.
    split; apply In_sweep_events; exists h, f; auto.
  - intros ev Hev. apply In_sweep_events in Hev as (h & f & Hin & Hev).
    exists h, f. split; [|exact Hev].
    now apply elem_of_map_to_list, list_elem_of_In.
  - rewrite <- length_map_to_list. unfold sweep_events.
    induction (map_to_list (openFiles (server st_w))) as [|[h f] l IH]; [reflexivity|].
    cbn [flat_map length app]. rewrite IH. cbn [length]. lia.
  - apply notifications_sweep.
Qed.

Lemma Serve_shutdown_witness :
  exists sweep,
    Serve (example_env no_failure) [] io_EOF (start busy_server)
    = Returns (Some io_EOF) (mkState busy_server sweep) /\
    notifications sweep = [] /\ length sweep = 4%nat.
Proof.
  destruct (Serve_shutdown (example_env no_failure) [] io_EOF (start busy_server)
              (start busy_server) None eq_refl)
    as (sweep & H1 & _ & _ & H2 & H3).
  exists sweep. split; [exact H1|]. split; [exact H3|exact H2].
Defined.

(** ** The worker *)

Lemma decode_types (env : Env) (t : fxp) (b : list Byte.byte)
    (r : error + Packet) (ro : bool) :
  decode env t b = Some (r, ro) ->
  (In t routed_types /\ allowedPacketTypes t = true) \/
  (In t refused_types /\ allowedPacketTypes t = false).
Proof.
  destruct t; cbn [decode]; try discriminate; intros _;
    cbn [allowedPacketTypes routed_types refused_types In];
    (left; split; [tauto|reflexivity]) || (right; split; [tauto|reflexivity]).
Qed.

Lemma turn_unsupported (env : Env) (p : rxPacket) (pkt : Packet) (ro : bool) (st : State) :
  decode env (pktType p) (pktBytes p) = Some (inr pkt, ro) ->
  allowedPacketTypes (pktType p) = false ->
  sftpServerWorker_turn env p st
  = Returns (errors_Wrap (result_error env (trace st) (op_unsupported_answer env pkt))
               "failed to send op unsupported response")
      (mkState (server st) (trace st ++ [op_unsupported_answer env pkt])).
Proof.
  intros Hd Ha. unfold sftpServerWorker_turn. rewrite Hd, Ha. run. reflexivity.
Qed.

Lemma turn_denied (env : Env) (p : rxPacket) (pkt : Packet) (ro : bool) (st : State) :
  decode env (pktType p) (pktBytes p) = Some (inr pkt, ro) ->
  allowedPacketTypes (pktType p) = true ->
  classify pkt ro = false ->
  readOnly (server st) = true ->
  sftpServerWorker_turn env p st
  = Returns (errors_Wrap (result_error env (trace st) (permission_denied_answer env pkt))
               "failed to send read only packet response")
      (mkState (server st) (trace st ++ [permission_denied_answer env pkt])).
Proof.
  intros Hd Ha Hc Hr. unfold sftpServerWorker_turn. rewrite Hd, Ha. run.
  rewrite Hc, Hr. reflexivity.
Qed.

Lemma turn_handled (env : Env) (p : rxPacket) (pkt : Packet) (ro : bool) (st : State) :
  decode env (pktType p) (pktBytes p) = Some (inr pkt, ro) ->
  allowedPacketTypes (pktType p) = true ->
  classify pkt ro = true \/ readOnly (server st) = false ->
  sftpServerWorker_turn env p st = handlePacket env pkt st.
Proof.
  intros Hd Ha Hc. unfold sftpServerWorker_turn. rewrite Hd, Ha. run.
  destruct Hc as [-> | ->]; [reflexivity|]. now rewrite andb_false_r.
Qed.

(** C1, as stated, fails: a read packet, which decodes, is answered with
    "operation unsupported" and never reaches its handler. *)
Lemma worker_read_unsupported :
  decode (example_env no_failure) ssh_FXP_READ [Byte.x01; Byte.x00; Byte.x0a; Byte.x31]
  = Some (inr (sshFxpReadPacket 1 "1" 0 10), true) /\
  sftpServerWorker_turn (example_env no_failure)
    (mkRx ssh_FXP_READ [Byte.x01; Byte.x00; Byte.x0a; Byte.x31]) (start busy_server)
  = Returns None
      (mkState busy_server
         [sendPacket_of
            (R_Status (mkStatus 1 (mkStatusError ssh_FX_OP_UNSUPPORTED "")))]).
Proof. split; reflexivity. Qed.

(** C1, amended. A packet that decodes has one of twenty types.  If its
    type is init, open, close, write, stat, lstat, setstat, realpath,
    opendir or readdir, the worker hands it to [handlePacket] unless the
    server is read-only and the packet is classified as writing.  If its
    type is any other (read, fstat, fsetstat, mkdir, rmdir, remove, rename,
    symlink, readlink, extended), the worker answers "operation
    unsupported" and changes nothing in the server. *)
Theorem worker_dispatch (env : Env) (p : rxPacket) (pkt : Packet) (ro : bool) (st : State) :
  decode env (pktType p) (pktBytes p) = Some (inr pkt, ro) ->
  (In (pktType p) routed_types /\
   (classify pkt ro = true \/ readOnly (server st) = false ->
    sftpServerWorker_turn env p st = handlePacket env pkt st))
  \/
  (In (pktType p) refused_types /\
   sftpServerWorker_turn env p st
   = Returns (errors_Wrap (result_error env (trace st) (op_unsupported_answer env pkt))
                "failed to send op unsupported response")
       (mkState (server st) (trace st ++ [op_unsupported_answer env pkt]))).
Proof.
  intros Hd. destruct (decode_types _ _ _ _ _ Hd) as [[Hin Ha]|[Hin Ha]].
  - left. split; [exact Hin|]. intros Hc. now apply (turn_handled env p pkt ro).
  - right. split; [exact Hin|]. now apply (turn_unsupported env p pkt ro).
Qed.

Lemma worker_dispatch_witness :
  sftpServerWorker_turn (example_env no_failure)
    (mkRx ssh_FXP_CLOSE [Byte.x05; Byte.x31]) (start busy_server)
  = handlePacket (example_env no_failure) (sshFxpClosePacket 5 "1") (start busy_server).
Proof.
  destruct (worker_dispatch (example_env no_failure)
              (mkRx ssh_FXP_CLOSE [Byte.x05; Byte.x31])
              (sshFxpClosePacket 5 "1") true (start busy_server) eq_refl)
    as [[_ H]|[Hin _]].
  - apply H. left. reflexivity.
  - exfalso. cbn in Hin. intuition discriminate.
Defined.

(** ** The read-only gate *)

Ltac decoded_cases env b :=
  unfold decoded;
  repeat match goal with
         | |- context [unmarshal_Init env b] => destruct (unmarshal_Init env b)
         | |- context [unmarshal_string env ?t b] =>
             destruct (unmarshal_string env t b) as [?|[? ?]]
         | |- context [unmarshal_Open env b] => destruct (unmarshal_Open env b)
         | |- context [unmarshal_Read env b] =>
             destruct (unmarshal_Read env b) as [?|[[[? ?] ?] ?]]
         | |- context [unmarshal_Write env b] =>
             destruct (unmarshal_Write env b) as [?|[[[? ?] ?] ?]]
         | |- context [unmarshal_attrs env ?t b] =>
             destruct (unmarshal_attrs env t b) as [?|[[[? ?] ?] ?]]
         | |- context [unmarshal_Mkdir env b] =>
             destruct (unmarshal_Mkdir env b) as [?|[[? ?] ?]]
         | |- context [unmarshal_strings env ?t b] =>
             destruct (unmarshal_strings env t b) as [?|[[? ?] ?]]
         | |- context [unmarshal_Extended env b] =>
             destruct (unmarshal_Extended env b) as [?|[[? ?] ?]]
         end.

(** Which decoded packets the worker classifies as writing. *)
Lemma classify_writing (env : Env) (t : fxp) (b : list Byte.byte) (pkt : Packet) (ro : bool) :
  decode env t b = Some (inr pkt, ro) ->
  classify pkt ro = false <->
  In t writing_types \/
  (t = ssh_FXP_OPEN /\ exists op, pkt = P_Open op /\ hasPflags op [ssh_FXF_WRITE] = true) \/
  (t = ssh_FXP_EXTENDED /\
   exists i r sp, pkt = sshFxpExtendedPacket i r sp /\ sp_readonly sp = false).
Proof.
  destruct t; cbn [decode]; try discriminate; decoded_cases env b;
    intros H; inversion H; subst; clear H;
    cbn [classify writing_types In]; unfold readonly.
  all: try (split; [discriminate|];
            intros [Hw|[[Ht _]|[Ht _]]]; [intuition discriminate|discriminate..]).
  all: try (split; [intros _; left; tauto|reflexivity]).
  - split.
    + intros Hc. right; left. split; [reflexivity|]. eexists. split; [reflexivity|].
      now apply negb_false_iff in Hc.
    + intros [Hw|[[_ (op & Hop & Hf)]|[Ht _]]];
        [intuition discriminate| |discriminate].
      inversion Hop; subst. now rewrite Hf.
  - split.
    + intros Hc. right; right. split; [reflexivity|]. do 3 eexists.
      split; [reflexivity|exact Hc].
    + intros [Hw|[[Ht _]|[_ (i & r & sp & Hp & Hf)]]];
        [intuition discriminate|discriminate|].
      inversion Hp; subst. exact Hf.
Qed.

(** C8, as stated, fails: on a read-only server a mkdir packet, which is
    classified as writing, is answered with "operation unsupported", not
    with "permission denied". *)
Lemma readonly_mkdir_unsupported :
  readOnly readonly_server = true /\
  decode (example_env no_failure) ssh_FXP_MKDIR [Byte.x07; Byte.x2f; Byte.x64]
  = Some (inr (sshFxpMkdirPacket 7 "/d" 0), false) /\
  sftpServerWorker_turn (example_env no_failure)
    (mkRx ssh_FXP_MKDIR [Byte.x07; Byte.x2f; Byte.x64]) (start readonly_server)
  = Returns None
      (mkState readonly_server
         [sendPacket_of
            (R_Status (mkStatus 7 (mkStatusError ssh_FX_OP_UNSUPPORTED "")))]).
Proof. repeat split. Qed.

(** C8, amended. On a read-only server a decoded packet that is classified
    as writing never reaches its handler: the worker sends one answer and
    leaves the server as it was, so no handle is allocated.  The answer is
    "permission denied" for write, setstat and an open with the write
    flag; it is "operation unsupported" for fsetstat, remove, mkdir, rmdir,
    rename, symlink and an extended packet, which the worker refuses
    before it looks at the read-only flag. *)
Theorem readonly_gate (env : Env) (p : rxPacket) (pkt : Packet) (ro : bool) (st : State) :
  decode env (pktType p) (pktBytes p) = Some (inr pkt, ro) ->
  readOnly (server st) = true ->
  classify pkt ro = false ->
  exists answer text,
    sftpServerWorker_turn env p st
    = Returns (errors_Wrap (result_error env (trace st) answer) text)
        (mkState (server st) (trace st ++ [answer])) /\
    ((In (pktType p) [ssh_FXP_WRITE; ssh_FXP_SETSTAT; ssh_FXP_OPEN] /\
      answer = sendPacket_of (R_Status (mkStatus (id pkt)
                 (mkStatusError ssh_FX_PERMISSION_DENIED
                    (Error (syscall_errors env) EPERM)))))
     \/
     (In (pktType p) [ssh_FXP_FSETSTAT; ssh_FXP_REMOVE; ssh_FXP_MKDIR; ssh_FXP_RMDIR;
                      ssh_FXP_RENAME; ssh_FXP_SYMLINK; ssh_FXP_EXTENDED] /\
      answer = op_unsupported_answer env pkt)).
Proof.
  intros Hd Hr Hc.
  pose proof (proj1 (classify_writing env _ _ _ _ Hd) Hc) as Hw.
  destruct (allowedPacketTypes (pktType p)) eqn:Ha.
  - exists (permission_denied_answer env pkt), "failed to send read only packet response".
    split; [now apply (turn_denied env p pkt ro)|]. left. split; [|reflexivity].
    destruct Hw as [Hw|[[-> _]|[Ht _]]].
    + cbn in Hw. destruct Hw as [Hw|[Hw|Hw]];
        [rewrite <- Hw; cbn; tauto|rewrite <- Hw; cbn; tauto|].
      exfalso. repeat (destruct Hw as [Hw|Hw]; [rewrite <- Hw in Ha; discriminate|]).
      exact Hw.
    + cbn. tauto.
    + rewrite Ht in Ha. discriminate.
  - exists (op_unsupported_answer env pkt), "failed to send op unsupported response".
    split; [now apply (turn_unsupported env p pkt ro)|]. right. split; [|reflexivity].
    destruct Hw as [Hw|[[Ht _]|[-> _]]].
    + cbn in Hw. destruct Hw as [Hw|[Hw|Hw]];
        [rewrite <- Hw in Ha; discriminate|rewrite <- Hw in Ha; discriminate|].
      cbn. tauto.
    + rewrite Ht in Ha. discriminate.
    + cbn. tauto.
Qed.

Lemma readonly_gate_witness :
  exists answer text,
    sftpServerWorker_turn (example_env no_failure)
      (mkRx ssh_FXP_OPEN [Byte.x01; Byte.x02; Byte.x2f; Byte.x75; Byte.x70; Byte.x2f; Byte.x66])
      (start readonly_server)
    = Returns (errors_Wrap (result_error (example_env no_failure) [] answer) text)
        (mkState readonly_server [answer]).
Proof.
  destruct (readonly_gate (example_env no_failure)
              (mkRx ssh_FXP_OPEN
                 [Byte.x01; Byte.x02; Byte.x2f; Byte.x75; Byte.x70; Byte.x2f; Byte.x66])
              (P_Open (mkOpen 1 "/up/f" 2 0)) true (start readonly_server)
              eq_refl eq_refl eq_refl)
    as (answer & text & H & _).
  exists answer, text. exact H.
Defined.

(** ** The limit on the size of a file *)

Lemma int64_in_range (x : Z) : - 2 ^ 63 <= x < 2 ^ 63 -> int64 x = x.
Proof. intros H. unfold int64. rewrite Z.mod_small; lia. Qed.

(** What the write case of [handlePacket] does on a handle of the table. *)
Lemma write_on_handle (env : Env) (st : State) (ID : Z) (handle : string)
    (Offset : Z) (Data : list Byte.byte) (f : File) :
  openFiles (server st) !! handle = Some f ->
  let p := sshFxpWritePacket ID handle Offset Data in
  let sum := int64 (int64 Offset + Z.of_nat (length Data)) in
  handlePacket env p st =
  if (fileSizeLimit (server st) >? 0) && (sum >? fileSizeLimit (server st)) then
    let answer := sendPacket_of (R_Status (statusFromError env p (Some EFBIG))) in
    Returns (result_error env (trace st) answer)
      (mkState (server st) (trace st ++ [answer]))
  else
    let write := File_WriteAt f Data (int64 Offset) in
    let answer := sendPacket_of
                    (R_Status (statusFromError env p (result_error env (trace st) write))) in
    Returns (result_error env (trace st ++ [write]) answer)
      (mkState (server st) (trace st ++ [write; answer])).
Proof.
  intros H p sum. unfold handlePacket, p. run. rewrite H. fold sum.
  destruct ((fileSizeLimit (server st) >? 0) && (sum >? fileSizeLimit (server st)));
    run; [reflexivity|].
  rewrite <- app_assoc. reflexivity.
Qed.

(** Where the sum of offset and length fits 63 bits, the write is refused
    with EFBIG, and nothing is written, exactly when a positive limit is
    set and the sum exceeds it; otherwise the data is written at the
    offset. *)
Lemma write_limit_in_range (env : Env) (st : State) (ID : Z) (handle : string)
    (Offset : Z) (Data : list Byte.byte) (f : File) :
  openFiles (server st) !! handle = Some f ->
  0 <= Offset -> Offset + Z.of_nat (length Data) < 2 ^ 63 ->
  let p := sshFxpWritePacket ID handle Offset Data in
  let limit := fileSizeLimit (server st) in
  (0 < limit /\ limit < Offset + Z.of_nat (length Data) ->
   let answer := sendPacket_of (R_Status (statusFromError env p (Some EFBIG))) in
   handlePacket env p st
   = Returns (result_error env (trace st) answer)
       (mkState (server st) (trace st ++ [answer]))) /\
  (~ (0 < limit /\ limit < Offset + Z.of_nat (length Data)) ->
   let write := File_WriteAt f Data Offset in
   let answer := sendPacket_of
                   (R_Status (statusFromError env p (result_error env (trace st) write))) in
   handlePacket env p st
   = Returns (result_error env (trace st ++ [write]) answer)
       (mkState (server st) (trace st ++ [write; answer]))).
Proof.
  intros H H0 Hfit p limit.
  pose proof (write_on_handle env st ID handle Offset Data f H) as Hw.
  cbv zeta in Hw. fold p limit in Hw.
  rewrite (int64_in_range Offset) in Hw by lia.
  rewrite (int64_in_range (Offset + _)) in Hw by lia.
  split; intros Hc; cbv zeta; rewrite Hw.
  - destruct Hc as [Hc1 Hc2].
    apply Z.gtb_lt in Hc1, Hc2. now rewrite Hc1, Hc2.
  - destruct ((limit >? 0) && (Offset + Z.of_nat (length Data) >? limit)) eqn:E;
      [|reflexivity].
    apply andb_true_iff in E as [E1 E2]. apply Z.gtb_lt in E1, E2. tauto.
Qed.

(** C4 at the failing input: with a limit of 100 bytes, a write of one
    byte at offset 2^63 - 1 is not refused.  The sum of offset and length
    wraps to - 2^63, the check passes, and [WriteAt] is called. *)
Theorem write_limit_wraps :
  fileSizeLimit limited_server = 100 /\
  openFiles limited_server !! "1" = Some (mkFile "file.txt" 0) /\
  handlePacket (example_env no_failure)
    (sshFxpWritePacket 9 "1" (2 ^ 63 - 1) [Byte.x00]) (start limited_server)
  = Returns None
      (mkState limited_server
         [File_WriteAt (mkFile "file.txt" 0) [Byte.x00] (2 ^ 63 - 1);
          sendPacket_of (R_Status (mkStatus 9 (mkStatusError ssh_FX_OK "")))]).
Proof. repeat split. Qed.

(** ** Open *)

Lemma write_flag_not_readonly (p : sshFxpOpenPacket) :
  hasPflags p [ssh_FXF_WRITE] = true -> readonly p = false.
Proof. unfold readonly. now intros ->. Qed.

Ltac open_write st Hw Ha :=
  unfold sshFxpOpenPacket_respond, open_or_create; run;
  rewrite (write_flag_not_readonly _ Hw), andb_false_r, Hw, ?Ha;
  cbn [negb orb]; fold (upload_prefix (server st)).

Lemma open_append_refused (env : Env) (p : sshFxpOpenPacket) (st : State) :
  hasPflags p [ssh_FXF_WRITE] = true ->
  hasPflags p [ssh_FXF_APPEND] = true ->
  refuses env p st ssh_FX_OP_UNSUPPORTED.
Proof. intros Hw Ha. unfold refuses. open_write st Hw Ha. reflexivity. Qed.



Lemma open_not_child_refused (env : Env) (p : sshFxpOpenPacket) (st : State) :
  hasPflags p [ssh_FXF_WRITE] = true ->
  hasPflags p [ssh_FXF_APPEND] = false ->
  (forall name, Path p = upload_prefix (server st) +:+ name ->
                GoString.ContainsRune name "/" = true) ->
  refuses env p st ssh_FX_NO_SUCH_PATH.
Proof.
  intros Hw Ha Hn. unfold refuses. open_write st Hw Ha.
  destruct (GoString.HasPrefix (Path p) (upload_prefix (server st))) eqn:Hpre; [|reflexivity].
  cbn [negb]. destruct (GoStringFacts.HasPrefix_inv _ _ Hpre) as [rest Hrest].
  rewrite Hrest, GoStringFacts.slice_from_app, (Hn rest Hrest). reflexivity.
Qed.

Lemma int64_succ_neq (x : Z) : int64 (x + 1) <> x.
Proof.
  unfold int64. intros H.
  assert (Hm : (x + 1 + 2 ^ 63) mod 2 ^ 64 = x + 2 ^ 63) by lia.
  pose proof (Z.mod_pos_bound (x + 1 + 2 ^ 63) (2 ^ 64) ltac:(lia)) as Hb.
  rewrite Hm in Hb.
  replace (x + 1 + 2 ^ 63) with ((x + 2 ^ 63) + 1) in Hm by lia.
  rewrite <- (Z.mod_small (x + 2 ^ 63) (2 ^ 64)) in Hm at 2 by lia.
  apply (f_equal (fun z => (z - (x + 2 ^ 63) mod 2 ^ 64) mod 2 ^ 64)) in Hm.
  rewrite Z.sub_diag in Hm. rewrite Zminus_mod_idemp_l, Zminus_mod_idemp_r in Hm.
  replace (x + 2 ^ 63 + 1 - (x + 2 ^ 63)) with 1 in Hm by lia.
  cbn in Hm. discriminate.
Qed.

Lemma open_child (env : Env) (p : sshFxpOpenPacket) (st : State) (name : string) :
  hasPflags p [ssh_FXF_WRITE] = true ->
  hasPflags p [ssh_FXF_APPEND] = false ->
  Path p = upload_prefix (server st) +:+ name ->
  GoString.ContainsRune name "/" = false ->
  match fileNameMapper (server st) with
  | None => creates env p st name
  | Some mapper =>
      match mapper name with
      | (_, _, Some _) => refuses env p st ssh_FX_FAILURE
      | (_, false, None) => refuses env p st ssh_FX_INVALID_FILENAME
      | (mapped, true, None) => creates env p st mapped
      end
  end.
Proof.
  intros Hw Ha Hp Hs.
  assert (Hcreate : forall n,
             (let* r := (let* (f, err) := open_file env (os_Create n) n in
                         ret (inr (f, err, ""))) in
              match r with
              | inl e => ret e
              | inr (f, Some err, _) => sendError env (P_Open p) (Some err)
              | inr (f, None, dirName) =>
                  let* handle := nextHandle f dirName in
                  sendPacket env (sshFxpHandlePacket (ID p) handle)
              end) st
             = sshFxpOpenPacket_respond env p st ->
             creates env p st n).
  { intros n Hn. unfold creates. rewrite <- Hn. run.
    destruct (result_error env (trace st) (os_Create n)) as [e|]; [reflexivity|].
    unfold nextHandle. run. cbn [String.eqb]. unfold with_file_handle.
    rewrite <- app_assoc. reflexivity. }
  destruct (fileNameMapper (server st)) as [mapper|] eqn:Hm.
  - destruct (mapper name) as [[mapped ok] [e|]] eqn:Hmap; destruct ok;
      try apply Hcreate; unfold refuses; open_write st Hw Ha;
      rewrite Hp, GoStringFacts.HasPrefix_app, GoStringFacts.slice_from_app, Hs, Hm, Hmap; reflexivity.
  - apply Hcreate. open_write st Hw Ha.
    rewrite Hp, GoStringFacts.HasPrefix_app, GoStringFacts.slice_from_app, Hs, Hm. reflexivity.
Qed.

Lemma Returns_server {A} (a b : A) (s s' : State) :
  Returns a s = Returns b s' -> server s = server s'.
Proof. intros H. now inversion H. Qed.

Lemma with_file_handle_neq (svr : Server) (f : File) : with_file_handle svr f <> svr.
Proof.
  intros H. apply (f_equal handleCount) in H. cbn in H.
  now apply int64_succ_neq in H.
Qed.

Lemma refuses_not_allocates (env : Env) (p : sshFxpOpenPacket) (st : State)
    (code : fx) (f : File) :
  refuses env p st code -> ~ allocates env p st f.
Proof.
  unfold refuses, allocates. intros Hr (r & tr & Ha & _). rewrite Hr in Ha.
  apply Returns_server in Ha. cbn in Ha. symmetry in Ha.
  now apply with_file_handle_neq in Ha.
Qed.

Lemma creates_allocates (env : Env) (p : sshFxpOpenPacket) (st : State)
    (name : string) (f : File) :
  creates env p st name ->
  allocates env p st f <->
  result_error env (trace st) (os_Create name) = None /\
  f = mkFile name (length (trace st)).
Proof.
  unfold creates, allocates.
  destruct (result_error env (trace st) (os_Create name)) as [e|]; intros Hc.
  - split; [|intros [? _]; discriminate].
    intros (r & tr & Ha & _). rewrite Hc in Ha.
    apply Returns_server in Ha. cbn in Ha. symmetry in Ha.
    now apply with_file_handle_neq in Ha.
  - split.
    + intros (r & tr & Ha & _). rewrite Hc in Ha.
      apply Returns_server in Ha. cbn [server] in Ha. rename Ha into Hs.
      split; [reflexivity|].
      apply (f_equal (fun s => openFiles s !! Itoa (int64 (handleCount (server st) + 1)))) in Hs.
      cbn in Hs. rewrite !lookup_insert_eq in Hs. congruence.
    + intros [_ ->]. do 2 eexists. split; [exact Hc|].
      apply last_snoc.
Qed.

Lemma open_read_elsewhere_refused (env : Env) (p : sshFxpOpenPacket) (st : State) :
  hasPflags p [ssh_FXF_WRITE] = false ->
  isUploadDirOrAncestor (server st) (path_Clean env (Path p)) = false ->
  refuses env p st ssh_FX_OP_UNSUPPORTED.
Proof.
  intros Hw Hv. unfold refuses, sshFxpOpenPacket_respond, open_or_create. run.
  rewrite Hv, Hw. reflexivity.
Qed.

Lemma upload_prefix_nonempty (svr : Server) : upload_prefix svr <> "".
Proof.
  unfold upload_prefix. destruct (String.eqb (uploadPath svr) "/") eqn:E.
  - apply String.eqb_eq in E. rewrite E. discriminate.
  - destruct (uploadPath svr); discriminate.
Qed.

Lemma not_child_cases (svr : Server) (path : string) :
  (exists name, path = upload_prefix svr +:+ name /\ GoString.ContainsRune name "/" = false) \/
  (forall name, path = upload_prefix svr +:+ name -> GoString.ContainsRune name "/" = true).
Proof.
  destruct (GoString.HasPrefix path (upload_prefix svr)) eqn:Hpre.
  - destruct (GoStringFacts.HasPrefix_inv _ _ Hpre) as [rest Hrest].
    destruct (GoString.ContainsRune rest "/") eqn:Hs.
    + right. intros name Hn. rewrite Hrest in Hn. apply GoStringFacts.app_inv_head in Hn. now subst.
    + left. eauto.
  - right. intros name Hn. rewrite Hn, GoStringFacts.HasPrefix_app in Hpre. discriminate.
Qed.

(** C3, as stated, fails: the path is an immediate child of the upload
    directory and no hook is set, but [os.Create] is denied; the handler
    answers with the translated error and allocates no handle. *)
Lemma open_create_denied :
  hasPflags (mkOpen 1 "/up/f" ssh_FXF_WRITE 0) [ssh_FXF_WRITE] = true /\
  "/up/f" = upload_prefix example_server +:+ "f" /\
  fileNameMapper example_server = None /\
  sshFxpOpenPacket_respond (example_env create_denied)
    (mkOpen 1 "/up/f" ssh_FXF_WRITE 0) (start example_server)
  = Returns None
      (mkState example_server
         [os_Create "f";
          sendPacket_of
            (R_Status (mkStatus 1
               (mkStatusError ssh_FX_FAILURE "open f: permission denied")))]).
Proof. repeat split. Qed.

(** C3, amended. An open without the write flag on a path that is not
    virtual is refused as unsupported.  An open with the write flag is
    refused as unsupported if it has the append flag; otherwise it is
    refused with "no such path" unless the path, as sent, is the upload
    prefix followed by a name without a slash; otherwise the hook, when
    set, is asked: its error gives a plain failure, its rejection gives
    "invalid filename"; otherwise [os.Create] is called, and its failure is
    answered with the translated error.  A handle is allocated if and only
    if the append flag is absent, the path is such a child, the hook (when
    set) accepts the name and the creation succeeds. *)
Theorem open_for_write (env : Env) (p : sshFxpOpenPacket) (st : State) :
  (hasPflags p [ssh_FXF_WRITE] = false ->
   isUploadDirOrAncestor (server st) (path_Clean env (Path p)) = false ->
   refuses env p st ssh_FX_OP_UNSUPPORTED) /\
  (hasPflags p [ssh_FXF_WRITE] = true ->
   (hasPflags p [ssh_FXF_APPEND] = true -> refuses env p st ssh_FX_OP_UNSUPPORTED) /\
   (hasPflags p [ssh_FXF_APPEND] = false ->
    ((forall name, Path p = upload_prefix (server st) +:+ name ->
                   GoString.ContainsRune name "/" = true) ->
     refuses env p st ssh_FX_NO_SUCH_PATH) /\
    (forall name,
        Path p = upload_prefix (server st) +:+ name ->
        GoString.ContainsRune name "/" = false ->
        match fileNameMapper (server st) with
        | None => creates env p st name
        | Some mapper =>
            match mapper name with
            | (_, _, Some _) => refuses env p st ssh_FX_FAILURE
            | (_, false, None) => refuses env p st ssh_FX_INVALID_FILENAME
            | (mapped, true, None) => creates env p st mapped
            end
        end)) /\
   (forall f,
       allocates env p st f <->
       hasPflags p [ssh_FXF_APPEND] = false /\
       exists name final,
         Path p = upload_prefix (server st) +:+ name /\
         GoString.ContainsRune name "/" = false /\
         accepts (server st) name final /\
         result_error env (trace st) (os_Create final) = None /\
         f = mkFile final (length (trace st)))).
Proof.
  split; [apply open_read_elsewhere_refused|]. intros Hw.
  split; [apply open_append_refused; exact Hw|].
  split; [intros Ha; split;
          [apply open_not_child_refused; assumption|
           intros name; apply open_child; assumption]|].
  intros f. split.
  - intros Hal.
    destruct (hasPflags p [ssh_FXF_APPEND]) eqn:Ha.
    { exfalso. revert Hal. apply (refuses_not_allocates env p st ssh_FX_OP_UNSUPPORTED).
      now apply open_append_refused. }
    split; [reflexivity|].
    destruct (not_child_cases (server st) (Path p)) as [(name & Hp & Hs)|Hn].
    2:{ exfalso. revert Hal. apply (refuses_not_allocates env p st ssh_FX_NO_SUCH_PATH).
        now apply open_not_child_refused. }
    pose proof (open_child env p st name Hw Ha Hp Hs) as Hc.
    exists name. unfold accepts.
    destruct (fileNameMapper (server st)) as [mapper|].
    + destruct (mapper name) as [[mapped ok] [e|]]; destruct ok;
        try (exfalso; revert Hal; eapply refuses_not_allocates; exact Hc).
      exists mapped. apply (creates_allocates env p st mapped f Hc) in Hal as [H1 H2].
      auto.
    + exists name. apply (creates_allocates env p st name f Hc) in Hal as [H1 H2].
      auto.
  - intros (Ha & name & final & Hp & Hs & Hacc & Hres & Hf).
    pose proof (open_child env p st name Hw Ha Hp Hs) as Hc.
    unfold accepts in Hacc.
    destruct (fileNameMapper (server st)) as [mapper|].
    + rewrite Hacc in Hc. apply (creates_allocates env p st final f Hc). auto.
    + subst final. apply (creates_allocates env p st name f Hc). auto.
Qed.

Lemma open_for_write_witness :
  allocates (example_env no_failure) (mkOpen 1 "/up/f" ssh_FXF_WRITE 0)
    (start example_server) (mkFile "f" 0).
Proof.
  destruct (open_for_write (example_env no_failure) (mkOpen 1 "/up/f" ssh_FXF_WRITE 0)
              (start example_server)) as [_ H].
  destruct (H eq_refl) as (_ & _ & Hiff).
  apply Hiff. split; [reflexivity|]. exists "f", "f". repeat split.
Defined.

(** C10, as stated, fails: the hook may map the name to a path with
    directories, and that path is what [os.Create] is given. *)
Lemma create_in_spool_directory :
  sshFxpOpenPacket_respond (example_env no_failure)
    (mkOpen 1 "/up/f" ssh_FXF_WRITE 0) (start spool_server)
  = Returns None
      (mkState (with_file_handle spool_server (mkFile "/srv/incoming/f" 0))
         [os_Create "/srv/incoming/f"; sendPacket_of (sshFxpHandlePacket 1 "1")]) /\
  GoString.ContainsRune "/srv/incoming/f" "/" = true.
Proof. split; reflexivity. Qed.

(** C10, amended. For an open with the write flag that passes the checks,
    the path given to [os.Create] is the name that follows the upload
    prefix, which has no slash, or what the hook maps that name to when a
    hook is set.  Without a hook the path given to [os.Create] therefore
    has no directory part and is not the path that the client sent: the
    file is created relative to the working directory. *)
Theorem create_path (env : Env) (p : sshFxpOpenPacket) (st : State) (name final : string) :
  hasPflags p [ssh_FXF_WRITE] = true ->
  hasPflags p [ssh_FXF_APPEND] = false ->
  Path p = upload_prefix (server st) +:+ name ->
  GoString.ContainsRune name "/" = false ->
  accepts (server st) name final ->
  creates env p st final /\
  (fileNameMapper (server st) = None ->
   final = name /\ GoString.ContainsRune final "/" = false /\ final <> Path p).
Proof.
  intros Hw Ha Hp Hs Hacc.
  pose proof (open_child env p st name Hw Ha Hp Hs) as Hc.
  unfold accepts in Hacc. destruct (fileNameMapper (server st)) as [mapper|].
  - rewrite Hacc in Hc. split; [exact Hc|discriminate].
  - subst final. split; [exact Hc|]. intros _. repeat split; [exact Hs|].
    intros Heq. rewrite Hp in Heq.
    apply (f_equal String.length) in Heq. revert Heq.
    pose proof (upload_prefix_nonempty (server st)) as Hne.
    destruct (upload_prefix (server st)) as [|c pre]; [congruence|].
    cbn [append String.length].
    assert (forall a b, String.length (a +:+ b) = (String.length a + String.length b)%nat) as Hl.
    { induction a; intros; cbn [append String.length]; [reflexivity|now rewrite IHa]. }
    rewrite Hl. lia.
Qed.

Lemma create_path_witness :
  creates (example_env no_failure) (mkOpen 1 "/up/f" ssh_FXF_WRITE 0)
    (start example_server) "f" /\
  "f" <> "/up/f".
Proof.
  destruct (create_path (example_env no_failure) (mkOpen 1 "/up/f" ssh_FXF_WRITE 0)
              (start example_server) "f" "f" eq_refl eq_refl eq_refl eq_refl eq_refl)
    as [Hc Hn].
  split; [exact Hc|]. apply Hn. reflexivity.
Defined.

(** ** Listing a virtual directory *)

Lemma alter_known {A} (g : A -> A) (m : gmap string A) (i : string) (x : A) :
  m !! i = Some x -> alter g i m = <[i := g x]> m.
Proof.
  intros H. apply map_eq. intros j. destruct (decide (i = j)) as [->|Hne].
  - rewrite lookup_alter_eq, lookup_insert_eq, H. reflexivity.
  - rewrite lookup_alter_ne, lookup_insert_ne by assumption. reflexivity.
Qed.

Lemma ancestor_below (svr : Server) (d : string) :
  isUploadDirOrAncestor svr d = true ->
  d <> uploadPath svr -> d <> "/" ->
  exists rest, uploadPath svr = (d +:+ "/") +:+ rest.
Proof.
  unfold isUploadDirOrAncestor. intros H H1 H2.
  apply String.eqb_neq in H1, H2. rewrite H1, H2 in H. cbn [orb] in H.
  now apply GoStringFacts.HasPrefix_inv.
Qed.

(** The child that the readdir handler computes for a virtual directory
    other than the upload directory. *)
Lemma readdir_child (svr : Server) (d : string) :
  GoString.HasPrefix (uploadPath svr) "/" = true ->
  isUploadDirOrAncestor svr d = true ->
  d <> uploadPath svr ->
  exists tail child,
    GoString.slice_from (uploadPath svr)
      (if String.eqb d "/" then 1 else GoString.len d + 1) = Some tail /\
    (if GoString.Index tail "/" =? -1 then Some tail
     else GoString.slice_to tail (GoString.Index tail "/")) = Some child /\
    next_segment d (uploadPath svr) child.
Proof.
  intros Habs Hanc Hne.
  assert (exists tail, uploadPath svr = child_path d "" +:+ tail /\
                       GoString.len (child_path d "")
                       = if String.eqb d "/" then 1 else GoString.len d + 1)
    as (tail & Htail & Hlen).
  { unfold child_path. destruct (String.eqb d "/") eqn:E.
    - apply GoStringFacts.HasPrefix_inv in Habs as [tail Ht]. exists tail. split; [exact Ht|reflexivity].
    - apply String.eqb_neq in E.
      destruct (ancestor_below svr d Hanc Hne E) as [rest H].
      exists rest. split; [exact H|].
      rewrite GoStringFacts.len_app. reflexivity. }
  exists tail. rewrite <- Hlen, Htail, GoStringFacts.slice_from_app.
  assert (Hjoin : forall c r, child_path d "" +:+ c +:+ r = child_path d c +:+ r).
  { intros c r. unfold child_path. destruct (String.eqb d "/"); [reflexivity|].
    now rewrite !GoStringFacts.app_assoc. }
  destruct (GoString.Index tail "/" =? -1) eqn:Ei.
  - apply Z.eqb_eq in Ei. exists tail. repeat split.
    + now apply GoStringFacts.Index_slash_none.
    + exists "". split; [|left; reflexivity]. rewrite <- (Hjoin tail ""), GoStringFacts.app_empty_r. reflexivity.
  - apply Z.eqb_neq in Ei.
    destruct (GoStringFacts.Index_slash_split tail Ei) as (seg & rest & Hs1 & Hs2 & Hs3).
    exists seg. repeat split; [exact Hs1|exact Hs3|].
    exists ("/" +:+ rest). split; [|right; reflexivity].
    rewrite <- (Hjoin seg ("/" +:+ rest)). now rewrite <- Hs2.
Qed.

Lemma readdir_first (env : Env) (st : State) (ID : Z) (h : string) (f : File) (d : string) :
  readdirHook (server st) = true ->
  GoString.HasPrefix (uploadPath (server st)) "/" = true ->
  openFiles (server st) !! h = Some f ->
  openDirs (server st) !! h = Some (mkDirInfo d false) ->
  isUploadDirOrAncestor (server st) d = true ->
  d <> uploadPath (server st) ->
  exists child,
    next_segment d (uploadPath (server st)) child /\
    let answer := one_child_listing env ID child (result_time env (trace st)) in
    sshFxpReaddirPacket_respond env ID h st
    = Returns (result_error env (trace st ++ [time_Now]) answer)
        (mkState (set_openDirs (server st)
                    (<[h := mkDirInfo d true]> (openDirs (server st))))
           (trace st ++ [time_Now; answer])).
Proof.
  intros Hhook Habs Hf Hd Hanc Hne.
  destruct (readdir_child (server st) d Habs Hanc Hne) as (tail & child & Ht & Hc & Hseg).
  exists child. split; [exact Hseg|].
  unfold sshFxpReaddirPacket_respond, list_directory, mark_read. run.
  rewrite Hf, Hhook, Hd. cbn [di_name di_read].
  apply String.eqb_neq in Hne. rewrite Hne, Hanc, Ht.
  destruct (GoString.Index tail "/" =? -1).
  - injection Hc as ->. cbn [server trace].
    rewrite (alter_known _ _ _ _ Hd), <- app_assoc. reflexivity.
  - rewrite Hc. cbn [server trace].
    rewrite (alter_known _ _ _ _ Hd), <- app_assoc. reflexivity.
Qed.






Ltac destruct_inner x :=
  match x with
  | context [match ?y with _ => _ end] => destruct_inner y
  | _ => destruct x eqn:?
  end.

Ltac split_matches H :=
  repeat (cbv beta iota in H; cbn [server trace] in H;
          match type of H with
          | context [match ?x with _ => _ end] => destruct_inner x
          end).

Ltac same_server H :=
  apply Returns_server in H; cbn [server] in H; rewrite <- H.

Lemma closeHandle_step (env : Env) (h : string) (st st' : State) (r : option error) :
  closeHandle env h st = Returns r st' -> server_step (server st) (server st').
Proof.
  intros H. destruct (openFiles (server st) !! h) eqn:Hf.
  - rewrite (closeHandle_known env st h f Hf) in H. same_server H. apply step_close.
  - rewrite (closeHandle_unknown env st h Hf) in H. same_server H. apply step_same.
Qed.

Lemma open_step (env : Env) (p : sshFxpOpenPacket) (st st' : State) (r : option error) :
  sshFxpOpenPacket_respond env p st = Returns r st' ->
  server_step (server st) (server st').
Proof.
  unfold sshFxpOpenPacket_respond, open_or_create, nextHandle. run. intros H.
  split_matches H; try discriminate H; same_server H;
    first [apply step_same
          |apply (step_file (server st))
          |apply (step_dir (server st));
           match goal with E : (_ =? "")%string = false |- _ =>
             now apply String.eqb_neq in E end].
Qed.

Lemma readdir_step (env : Env) (ID : Z) (h : string) (st st' : State) (r : option error) :
  sshFxpReaddirPacket_respond env ID h st = Returns r st' ->
  server_step (server st) (server st').
Proof.
  unfold sshFxpReaddirPacket_respond, list_directory, mark_read. run. intros H.
  split_matches H; try discriminate H; same_server H;
    first [apply step_same | apply (step_read (server st))].
Qed.

Lemma fsetstat_step (env : Env) (p : Packet) (h : string) (fl : Z) (a : list Byte.byte)
    (st st' : State) (r : option error) :
  sshFxpFsetstatPacket_respond env p h fl a st = Returns r st' ->
  server (st) = server st'.
Proof.
  unfold sshFxpFsetstatPacket_respond. run. intros H.
  split_matches H; try discriminate H; now same_server H.
Qed.

Lemma handlePacket_step (env : Env) (pkt : Packet) (st st' : State) (r : option error) :
  not_extended pkt ->
  handlePacket env pkt st = Returns r st' ->
  server_step (server st) (server st').
Proof.
  intros Hx H. destruct pkt; cbn [not_extended] in Hx; try contradiction;
    unfold handlePacket, doStat, sshFxpSetstatPacket_respond in H; revert H; run; intros H.
  all: try (split_matches H; try discriminate H; same_server H; apply step_same).
  all: try (eapply open_step; exact H).
  all: match goal with
       | H : match ?x with _ => _ end = Returns _ _ |- _ =>
           let E := fresh "E" in
           destruct x eqn:E; [|discriminate H]; cbv beta iota in H; same_server H
       end.
  - eapply open_step; eassumption.
  - eapply closeHandle_step; eassumption.
  - match goal with E : _ = Returns _ _ |- _ => apply fsetstat_step in E; rewrite <- E end.
    apply step_same.
  - eapply readdir_step; eassumption.
Qed.

Lemma decode_allowed_not_extended (env : Env) (t : fxp) (b : list Byte.byte)
    (pkt : Packet) (ro : bool) :
  decode env t b = Some (inr pkt, ro) ->
  allowedPacketTypes t = true -> not_extended pkt.
Proof.
  destruct t; cbn [decode allowedPacketTypes]; try discriminate;
    decoded_cases env b; intros H; inversion H; subst; intros _; exact I.
Qed.

Lemma turn_step (env : Env) (p : rxPacket) (st st' : State) (r : option error) :
  sftpServerWorker_turn env p st = Returns r st' ->
  server_step (server st) (server st').
Proof.
  unfold sftpServerWorker_turn.
  destruct (decode env (pktType p) (pktBytes p)) as [[[e|pkt] ro]|] eqn:Hd; run.
  - intros H. same_server H. apply step_same.
  - destruct (allowedPacketTypes (pktType p)) eqn:Ha; cbn [negb].
    + destruct (negb (classify pkt ro) && readOnly (server st)).
      * intros H. same_server H. apply step_same.
      * apply handlePacket_step. eapply decode_allowed_not_extended; eassumption.
    + intros H. same_server H. apply step_same.
  - intros H. same_server H. apply step_same.
Qed.

Lemma Itoa_inj (n m : Z) : Itoa n = Itoa m -> n = m.
Proof. unfold Itoa. apply (inj pretty). Qed.

Lemma step_issued (svr svr' : Server) :
  handles_issued svr -> handleCount svr + 1 < 2 ^ 63 ->
  server_step svr svr' ->
  handles_issued svr' /\ handleCount svr <= handleCount svr' <= handleCount svr + 1.
Proof.
  intros [H0 Hwf] Hb Hs.
  assert (Hnext : int64 (handleCount svr + 1) = handleCount svr + 1)
    by (apply int64_in_range; lia).
  destruct Hs as [|h'|f|f d Hd|h'].
  - split; [split; assumption|lia].
  - split; [|cbn; lia]. split; [exact H0|]. cbn. intros h [Hh|Hh]; apply Hwf.
    + left. destruct (decide (h' = h)) as [->|Hne].
      * rewrite lookup_delete_eq in Hh. now destruct Hh.
      * now rewrite lookup_delete_ne in Hh.
    + right. destruct (decide (h' = h)) as [->|Hne].
      * rewrite lookup_delete_eq in Hh. now destruct Hh.
      * now rewrite lookup_delete_ne in Hh.
  - unfold with_file_handle. cbn. rewrite Hnext. split; [|lia].
    split; [cbn; lia|]. cbn. intros h Hh.
    destruct (decide (Itoa (handleCount svr + 1) = h)) as [<-|Hne].
    + exists (handleCount svr + 1). split; [reflexivity|lia].
    + rewrite lookup_insert_ne in Hh by exact Hne.
      destruct (Hwf h Hh) as (n & -> & Hn). exists n. split; [reflexivity|lia].
  - unfold with_dir_handle, with_file_handle. cbn. rewrite Hnext. split; [|lia].
    split; [cbn; lia|]. cbn. intros h Hh.
    destruct (decide (Itoa (handleCount svr + 1) = h)) as [<-|Hne].
    + exists (handleCount svr + 1). split; [reflexivity|lia].
    + rewrite !lookup_insert_ne in Hh by exact Hne.
      destruct (Hwf h Hh) as (n & -> & Hn). exists n. split; [reflexivity|lia].
  - split; [|cbn; lia]. split; [exact H0|]. cbn. intros h [Hh|Hh]; apply Hwf.
    + now left.
    + right. destruct (decide (h' = h)) as [->|Hne].
      * rewrite lookup_alter_eq in Hh. destruct (openDirs svr !! h); [eauto|].
        now destruct Hh.
      * now rewrite lookup_alter_ne in Hh.
Qed.


(** The table of a new server has no handle, and the worker keeps the
    table within what the counter has issued, as long as the counter does
    not overflow. *)
Lemma new_server_issued (svr : Server) :
  openFiles svr = ∅ -> openDirs svr = ∅ -> 0 <= handleCount svr ->
  handles_issued svr.
Proof.
  intros Hf Hd H0. split; [exact H0|]. rewrite Hf, Hd. intros h [Hh|Hh];
    rewrite lookup_empty in Hh; now destruct Hh.
Qed.

Lemma worker_issued (env : Env) (pkts : list rxPacket) :
  forall (st st' : State) (r : option error),
    sftpServerWorker env pkts st = Returns r st' ->
    handles_issued (server st) ->
    handleCount (server st) + Z.of_nat (length pkts) < 2 ^ 63 ->
    handles_issued (server st') /\
    handleCount (server st) <= handleCount (server st')
    <= handleCount (server st) + Z.of_nat (length pkts).
Proof.
  induction pkts as [|p pkts IH]; intros st st' r Hrun Hwf Hb.
  - cbn in Hrun. apply Returns_server in Hrun. rewrite <- Hrun. cbn. split; [exact Hwf|lia].
  - cbn [sftpServerWorker] in Hrun. unfold bind in Hrun.
    destruct (sftpServerWorker_turn env p st) as [r1 st1|] eqn:Hturn; [|discriminate].
    apply turn_step in Hturn.
    cbn [length] in *. rewrite Nat2Z.inj_succ in *.
    assert (Hb1 : handleCount (server st) + 1 < 2 ^ 63) by lia.
    destruct (step_issued _ _ Hwf Hb1 Hturn) as [Hwf1 Hc1].
    destruct r1 as [e|].
    + apply Returns_server in Hrun. rewrite <- Hrun. split; [exact Hwf1|lia].
    + destruct (IH st1 st' r Hrun Hwf1) as [Hwf' Hc']; [lia|].
      split; [exact Hwf'|lia].
Qed.


Lemma ancestor_same_path (svr svr' : Server) (d : string) :
  uploadPath svr' = uploadPath svr ->
  isUploadDirOrAncestor svr' d = isUploadDirOrAncestor svr d.
Proof. unfold isUploadDirOrAncestor. now intros ->. Qed.



(** The listing of "/" on a server that serves "/srv/up": one entry,
    "srv", the first time, and end-of-stream the second time. *)
Example readdir_root_twice :
  exists st2,
    sshFxpReaddirPacket_respond (example_env no_failure) 2 "1" (start deep_server)
    = Returns None st2 /\
    trace st2 = [time_Now; one_child_listing (example_env no_failure) 2 "srv" 0] /\
    openDirs (server st2) !! "1" = Some (mkDirInfo "/" true) /\
    sshFxpReaddirPacket_respond (example_env no_failure) 3 "1" st2
    = Returns None
        (mkState (server st2)
           (trace st2
            ++ [sendPacket_of (R_Status (mkStatus 3 (mkStatusError ssh_FX_EOF "EOF")))])).
Proof. eexists. repeat split. Qed.

(** The upload path is assumed absolute above.  [NewServer] cleans the
    path but does not make it absolute; for the relative upload path "up"
    the listing of "/" names the upload path without its first byte. *)
Example readdir_root_relative_upload_path :
  let svr := set_uploadPath deep_server "up" in
  exists st2,
    sshFxpReaddirPacket_respond (example_env no_failure) 2 "1" (start svr)
    = Returns None st2 /\
    trace st2 = [time_Now; one_child_listing (example_env no_failure) 2 "p" 0].
Proof. eexists. split; reflexivity. Qed.

(** * Further properties *)

(** ** One answer for each request *)

Lemma errors_Wrap_None (e : option error) (m : string) :
  errors_Wrap e m = None <-> e = None.
Proof. destruct e; cbn; split; congruence. Qed.

Lemma statusFromError_ID (env : Env) (p : Packet) (err : option error) :
  st_ID (statusFromError env p err) = id p.
Proof.
  destruct err as [[|e|op path [|e| | |]|cause m|text]|]; reflexivity.
Qed.

Ltac all_permitted :=
  repeat match goal with
         | |- Forall _ (_ :: _) =>
             constructor; [cbn; repeat split; (reflexivity || assumption)|]
         | |- Forall _ [] => constructor
         end.

(** From a run that is spelled out to [answered]. *)
Ltac spelled_out H :=
  injection H as <- <-; cbn [trace server];
  rewrite <- ?app_assoc; cbn [app];
  first
    [ exists []; eexists; rewrite ?app_nil_r; split; [reflexivity|]
    | eexists [_]; eexists; rewrite <- ?app_assoc; split; [reflexivity|]
    | eexists [_; _]; eexists; rewrite <- ?app_assoc; split; [reflexivity|]
    | eexists [_; _; _]; eexists; rewrite <- ?app_assoc; split; [reflexivity|]
    | eexists [_; _; _; _]; eexists; rewrite <- ?app_assoc; split; [reflexivity|] ];
  (split; [all_permitted|]);
  (split; [rewrite ?errors_Wrap_None, ?app_nil_r, <- ?app_assoc; reflexivity
          |first [reflexivity
                 |exact (f_equal Some (statusFromError_ID _ _ _))
                 |repeat match goal with
                         | |- context [match ?x with _ => _ end] => destruct x
                         end; reflexivity]]).

Lemma open_answered (env : Env) (p : sshFxpOpenPacket) (st st' : State) (r : option error) :
  sshFxpOpenPacket_respond env p st = Returns r st' ->
  answered env (P_Open p) st st' r.
Proof.
  unfold sshFxpOpenPacket_respond, open_or_create, nextHandle. run. intros H.
  split_matches H; try discriminate H;
    repeat match goal with
           | E : _ && _ = true |- _ => apply andb_true_iff in E as [? ?]
           | E : _ || _ = false |- _ => apply orb_false_iff in E as [? ?]
           | E : negb _ = false |- _ => apply negb_false_iff in E
           end;
    try (assert (readonly p = false)
          by (unfold readonly;
              match goal with E : hasPflags p [ssh_FXF_WRITE] = true |- _ => now rewrite E end));
    unfold answered; spelled_out H.
Qed.

Lemma readdir_answered (env : Env) (ID : Z) (h : string) (st st' : State) (r : option error) :
  sshFxpReaddirPacket_respond env ID h st = Returns r st' ->
  answered env (sshFxpReaddirPacket ID h) st st' r.
Proof.
  unfold sshFxpReaddirPacket_respond, list_directory, mark_read. run. intros H.
  split_matches H; try discriminate H; unfold answered; spelled_out H.
Qed.

Lemma fsetstat_answered (env : Env) (ID : Z) (h : string) (fl : Z) (a : list Byte.byte)
    (st st' : State) (r : option error) :
  sshFxpFsetstatPacket_respond env (sshFxpFsetstatPacket ID h fl a) h fl a st
  = Returns r st' ->
  answered env (sshFxpFsetstatPacket ID h fl a) st st' r.
Proof.
  unfold sshFxpFsetstatPacket_respond. run. intros H.
  split_matches H; try discriminate H; unfold answered; spelled_out H.
Qed.

Lemma answered_wrap (env : Env) (pkt : Packet) (st st' : State) (a : option error)
    (message : string) :
  answered env pkt st st' a -> answered env pkt st st' (errors_Wrap a message).
Proof.
  intros (pre & m & Ht & Hp & Hr & Hi). exists pre, m.
  rewrite errors_Wrap_None. auto.
Qed.

Lemma close_answered (env : Env) (ID : Z) (h : string) (st st' : State) (r : option error) :
  handlePacket env (sshFxpClosePacket ID h) st = Returns r st' ->
  answered env (sshFxpClosePacket ID h) st st' r.
Proof.
  unfold handlePacket. run. intros H.
  destruct (openFiles (server st) !! h) as [f|] eqn:Hf.
  - rewrite (closeHandle_known env st h f Hf) in H. cbn [server trace] in H.
    destruct (uploadNotifier (server st)); [destruct (openDirs (server st) !! h)|];
      unfold answered; spelled_out H.
  - rewrite (closeHandle_unknown env st h Hf) in H.
    unfold answered; spelled_out H.
Qed.

Lemma opendir_answered (env : Env) (ID : Z) (path : string) (st st' : State)
    (r : option error) :
  sshFxpOpenPacket_respond env (mkOpen ID path ssh_FXF_READ 0) st = Returns r st' ->
  answered env (sshFxpOpendirPacket ID path) st st' r.
Proof.
  intros H. apply open_answered in H as (pre & m & Ht & Hp & Hr & Hi).
  exists pre, m. repeat split; try assumption; try apply Hr.
  eapply Forall_impl; [exact Hp|]. intros [] Hev; cbn in *; try tauto.
  discriminate.
Qed.

Lemma handlePacket_answered (env : Env) (pkt : Packet) (st st' : State) (r : option error) :
  not_extended pkt ->
  handlePacket env pkt st = Returns r st' ->
  answered env pkt st st' r.
Proof.
  intros Hx H. destruct pkt; cbn [not_extended] in Hx; try contradiction.
  all: try (apply close_answered; exact H).
  all: unfold handlePacket, doStat, sshFxpSetstatPacket_respond in H; revert H; run; intros H.
  all: try (split_matches H; try discriminate H; unfold answered; spelled_out H).
  all: try (apply opendir_answered; exact H).
  all: match goal with
       | H : match ?x with _ => _ end = Returns _ _ |- _ =>
           let E := fresh "E" in
           destruct x eqn:E; [|discriminate H]; cbv beta iota in H;
           injection H as <- <-; apply answered_wrap
       end.
  - now apply open_answered.
  - now apply fsetstat_answered.
  - now apply readdir_answered.
Qed.

(** No handler panics on a server whose upload path is not empty. *)
Lemma open_returns (env : Env) (p : sshFxpOpenPacket) (st : State) :
  exists r st', sshFxpOpenPacket_respond env p st = Returns r st'.
Proof.
  unfold sshFxpOpenPacket_respond, open_or_create, nextHandle. run.
  destruct (isUploadDirOrAncestor (server st) (path_Clean env (Path p)) && readonly p).
  { destruct (opendirHook (server st)); cbn [server trace];
      destruct (result_error env (trace st) (os_Open "/dev/null")); eauto. }
  destruct (negb (hasPflags p [ssh_FXF_WRITE]) || hasPflags p [ssh_FXF_APPEND]); [eauto|].
  fold (upload_prefix (server st)).
  destruct (GoString.HasPrefix (Path p) (upload_prefix (server st))) eqn:Hpre;
    cbn [negb]; [|eauto].
  destruct (GoStringFacts.HasPrefix_inv _ _ Hpre) as [rest ->].
  rewrite GoStringFacts.slice_from_app.
  destruct (GoString.ContainsRune rest "/"); [eauto|].
  destruct (fileNameMapper (server st)) as [mapper|].
  - destruct (mapper rest) as [[mapped ok] [e|]]; [eauto|]. destruct ok; cbn [negb]; [|eauto].
    destruct (result_error env (trace st) (os_Create mapped)); eauto.
  - destruct (result_error env (trace st) (os_Create rest)); eauto.
Qed.

Lemma readdir_returns (env : Env) (ID : Z) (h : string) (st : State) :
  uploadPath (server st) <> "" ->
  exists r st', sshFxpReaddirPacket_respond env ID h st = Returns r st'.
Proof.
  intros Hup. unfold sshFxpReaddirPacket_respond, list_directory, mark_read. run.
  destruct (openFiles (server st) !! h) as [f|]; [|eauto].
  destruct (readdirHook (server st)).
  2:{ destruct (result_error env (trace st) (File_Readdir f 128)); eauto. }
  destruct (openDirs (server st) !! h) as [[d rd]|]; [|eauto]. cbn [di_name di_read].
  destruct (String.eqb d (uploadPath (server st))) eqn:Ed.
  { destruct (result_error env (trace st) call_readdirHook); eauto. }
  destruct (isUploadDirOrAncestor (server st) d) eqn:Hanc; [|eauto].
  destruct rd; [eauto|].
  assert (exists tail,
             GoString.slice_from (uploadPath (server st))
               (if String.eqb d "/" then 1 else GoString.len d + 1) = Some tail)
    as [tail ->].
  { destruct (String.eqb d "/") eqn:E.
    - unfold GoString.slice_from, GoString.len.
      destruct (uploadPath (server st)) as [|c up]; [congruence|].
      cbn [String.length]. rewrite Nat2Z.inj_succ.
      replace (1 <=? Z.succ (Z.of_nat (String.length up))) with true
        by (symmetry; apply Z.leb_le; lia).
      cbn. eauto.
    - apply String.eqb_neq in E, Ed.
      destruct (ancestor_below (server st) d Hanc Ed E) as [rest Hrest].
      exists rest. rewrite Hrest.
      replace (GoString.len d + 1) with (GoString.len (d +:+ "/"))
        by (rewrite GoStringFacts.len_app; reflexivity).
      apply GoStringFacts.slice_from_app. }
  destruct (GoString.Index tail "/" =? -1) eqn:Ei; [eauto|].
  apply Z.eqb_neq in Ei.
  destruct (GoStringFacts.Index_slash_split tail Ei) as (seg & rest & -> & _).
  eauto.
Qed.

Lemma fsetstat_returns (env : Env) (p : Packet) (h : string) (fl : Z) (a : list Byte.byte)
    (st : State) :
  exists r st', sshFxpFsetstatPacket_respond env p h fl a st = Returns r st'.
Proof.
  unfold sshFxpFsetstatPacket_respond. run.
  repeat match goal with
         | |- exists _ _, Returns _ _ = Returns _ _ => eauto
         | |- context [match ?x with _ => _ end] => destruct_inner x; cbv beta iota
         end.
Qed.

Lemma handlePacket_returns (env : Env) (pkt : Packet) (st : State) :
  not_extended pkt ->
  uploadPath (server st) <> "" ->
  exists r st', handlePacket env pkt st = Returns r st'.
Proof.
  intros Hx Hup.
  destruct pkt as [v|i s|p|i h|i h o l|i h o d|i h|i s fl a|i h fl a|i s|i h|i s|i s fl
                  |i s|i s|i s|i o n|i s|i t l|i r sp];
    cbn [not_extended] in Hx; try contradiction;
    unfold handlePacket, doStat, sshFxpSetstatPacket_respond; run.
  all: try (repeat match goal with
                   | |- exists _ _, Returns _ _ = Returns _ _ => eauto
                   | |- context [match ?x with _ => _ end] =>
                       destruct_inner x; cbv beta iota
                   end; fail).
  - destruct (open_returns env p st) as (r & st' & ->). eauto.
  - destruct (openFiles (server st) !! h) as [f|] eqn:Hf.
    + rewrite (closeHandle_known env st h f Hf). eauto.
    + rewrite (closeHandle_unknown env st h Hf). eauto.
  - destruct (fsetstat_returns env (sshFxpFsetstatPacket i h fl a) h fl a st)
      as (r & st' & ->). eauto.
  - apply open_returns.
  - destruct (readdir_returns env i h st Hup) as (r & st' & ->). eauto.
Qed.

(** A decoded packet is not an init packet unless its type is init. *)
Lemma decode_init (env : Env) (t : fxp) (b : list Byte.byte) (pkt : Packet) (ro : bool) :
  decode env t b = Some (inr pkt, ro) ->
  request_ID pkt = None -> t = ssh_FXP_INIT /\ ro = true.
Proof.
  destruct t; cbn [decode]; try discriminate; decoded_cases env b;
    intros H; inversion H; subst; cbn; intros; try discriminate; auto.
Qed.

Lemma gate_answered (env : Env) (pkt : Packet) (st : State) (code : option fx)
    (message : string) :
  request_ID pkt = Some (id pkt) ->
  let m := match code with
           | Some c => R_Status (mkStatus (id pkt) (mkStatusError c (code_text env c)))
           | None => R_Status (statusFromError env pkt (Some EPERM))
           end in
  answered env pkt st (mkState (server st) (trace st ++ [sendPacket_of m]))
    (errors_Wrap (result_error env (trace st) (sendPacket_of m)) message).
Proof.
  intros Hid m. exists [], m. rewrite app_nil_r, errors_Wrap_None.
  repeat split; try constructor; auto.
  rewrite Hid. destruct code; [reflexivity|].
  exact (f_equal Some (statusFromError_ID env pkt (Some EPERM))).
Qed.

(** X1. Every packet that the worker decodes is answered exactly once.  On
    a server whose upload path is not empty the turn returns (no slice is
    out of range); the last event of the turn is the one response that is
    sent, with the ID of the request (the version packet that answers init
    has none); the calls before it are calls of the handler of that kind
    of packet; and the turn ends the worker with an error exactly when the
    response could not be sent. *)
Theorem turn_answered (env : Env) (p : rxPacket) (pkt : Packet) (ro : bool) (st : State) :
  decode env (pktType p) (pktBytes p) = Some (inr pkt, ro) ->
  uploadPath (server st) <> "" ->
  exists r st',
    sftpServerWorker_turn env p st = Returns r st' /\ answered env pkt st st' r.
Proof.
  intros Hd Hup.
  assert (Hgate : allowedPacketTypes (pktType p) = false \/ classify pkt ro = false ->
                  request_ID pkt = Some (id pkt)).
  { intros Hg. destruct (request_ID pkt) eqn:Hi.
    - destruct pkt; cbn in Hi |- *; congruence.
    - destruct (decode_init env _ _ _ _ Hd Hi) as [Ht ->]. rewrite Ht in Hg.
      destruct pkt; cbn in Hi, Hg; try discriminate; intuition discriminate. }
  destruct (allowedPacketTypes (pktType p)) eqn:Ha.
  - destruct (classify pkt ro) eqn:Hc; [|destruct (readOnly (server st)) eqn:Hr].
    + rewrite (turn_handled env p pkt ro st Hd Ha) by auto.
      pose proof (decode_allowed_not_extended env _ _ _ _ Hd Ha) as Hx.
      destruct (handlePacket_returns env pkt st Hx Hup) as (r & st' & H).
      exists r, st'. split; [exact H|]. now apply handlePacket_answered.
    + rewrite (turn_denied env p pkt ro st Hd Ha Hc Hr). do 2 eexists. split; [reflexivity|].
      apply (gate_answered env pkt st None). auto.
    + rewrite (turn_handled env p pkt ro st Hd Ha) by auto.
      pose proof (decode_allowed_not_extended env _ _ _ _ Hd Ha) as Hx.
      destruct (handlePacket_returns env pkt st Hx Hup) as (r & st' & H).
      exists r, st'. split; [exact H|]. now apply handlePacket_answered.
  - rewrite (turn_unsupported env p pkt ro st Hd Ha). do 2 eexists. split; [reflexivity|].
    apply (gate_answered env pkt st (Some ssh_FX_OP_UNSUPPORTED)). auto.
Qed.

Lemma turn_answered_witness :
  exists r st',
    sftpServerWorker_turn (example_env no_failure)
      (mkRx ssh_FXP_STAT [Byte.x01; Byte.x2f]) (start example_server) = Returns r st' /\
    answered (example_env no_failure) (sshFxpStatPacket 1 "/") (start example_server) st' r.
Proof.
  apply (turn_answered (example_env no_failure) (mkRx ssh_FXP_STAT [Byte.x01; Byte.x2f])
           (sshFxpStatPacket 1 "/") true (start example_server)
           eq_refl ltac:(discriminate)).
Defined.

(** ** What the worker calls *)

(** The settings of the server are not touched by a step. *)
Lemma step_settings (svr svr' : Server) :
  server_step svr svr' ->
  uploadPath svr' = uploadPath svr /\ readOnly svr' = readOnly svr.
Proof. intros []; auto. Qed.

(** What the handler of a packet of an allowed type may call, the worker
    may call. *)
Lemma permitted_confined (env : Env) (t : fxp) (b : list Byte.byte) (pkt : Packet)
    (ro : bool) (ev : Event) :
  decode env t b = Some (inr pkt, ro) ->
  allowedPacketTypes t = true ->
  permitted pkt ev -> confined ev.
Proof.
  destruct t; cbn [decode allowedPacketTypes]; try discriminate;
    decoded_cases env b; intros H; inversion H; subst; intros _;
    destruct ev; cbn; tauto.
Qed.

(** A packet that the worker takes for read-only makes no call that
    changes a file. *)
Lemma permitted_readonly (env : Env) (t : fxp) (b : list Byte.byte) (pkt : Packet)
    (ro : bool) (ev : Event) :
  decode env t b = Some (inr pkt, ro) ->
  allowedPacketTypes t = true ->
  classify pkt ro = true ->
  permitted pkt ev -> ~ writes ev.
Proof.
  destruct t; cbn [decode allowedPacketTypes]; try discriminate;
    decoded_cases env b; intros H; inversion H; subst; intros _;
    cbn [classify]; intros Hc; destruct ev; cbn; try tauto; try discriminate.
  rewrite Hc. discriminate.
Qed.

(** One turn of the worker: it returns, and what it adds to the trace. *)
Lemma turn_events (env : Env) (p : rxPacket) (st : State) :
  uploadPath (server st) <> "" ->
  exists r st' evs,
    sftpServerWorker_turn env p st = Returns r st' /\
    trace st' = trace st ++ evs /\
    Forall confined evs /\
    (readOnly (server st) = true -> Forall (fun ev => ~ writes ev) evs).
Proof.
  intros Hup.
  destruct (decode env (pktType p) (pktBytes p)) as [[[e|pkt] ro]|] eqn:Hd.
  - exists (Some e), st, []. unfold sftpServerWorker_turn. rewrite Hd.
    rewrite app_nil_r. repeat split; constructor.
  - destruct (allowedPacketTypes (pktType p)) eqn:Ha.
    + destruct (classify pkt ro) eqn:Hc; [|destruct (readOnly (server st)) eqn:Hr].
      * pose proof (decode_allowed_not_extended env _ _ _ _ Hd Ha) as Hx.
        destruct (handlePacket_returns env pkt st Hx Hup) as (r & st' & H).
        pose proof (handlePacket_answered env pkt st st' r Hx H) as (pre & m & Ht & Hp & _).
        exists r, st', (pre ++ [sendPacket_of m]).
        rewrite (turn_handled env p pkt ro st Hd Ha) by auto.
        split; [exact H|]. split; [now rewrite app_assoc|]. split.
        -- apply Forall_app. split; [|repeat constructor].
           eapply Forall_impl; [exact Hp|]. intros ev.
           apply (permitted_confined env _ _ _ _ ev Hd Ha).
        -- intros _. apply Forall_app. split; [|repeat constructor; cbn; tauto].
           eapply Forall_impl; [exact Hp|]. intros ev.
           apply (permitted_readonly env _ _ _ _ ev Hd Ha Hc).
      * rewrite (turn_denied env p pkt ro st Hd Ha Hc Hr).
        do 3 eexists. split; [reflexivity|]. cbn [trace].
        split; [reflexivity|]. split; repeat constructor; cbn; tauto.
      * pose proof (decode_allowed_not_extended env _ _ _ _ Hd Ha) as Hx.
        destruct (handlePacket_returns env pkt st Hx Hup) as (r & st' & H).
        pose proof (handlePacket_answered env pkt st st' r Hx H) as (pre & m & Ht & Hp & _).
        exists r, st', (pre ++ [sendPacket_of m]).
        rewrite (turn_handled env p pkt ro st Hd Ha) by auto.
        split; [exact H|]. split; [now rewrite app_assoc|]. split; [|discriminate].
        apply Forall_app. split; [|repeat constructor].
        eapply Forall_impl; [exact Hp|]. intros ev.
        apply (permitted_confined env _ _ _ _ ev Hd Ha).
    + rewrite (turn_unsupported env p pkt ro st Hd Ha).
      do 3 eexists. split; [reflexivity|]. cbn [trace].
      split; [reflexivity|]. split; repeat constructor; cbn; tauto.
  - do 3 eexists. unfold sftpServerWorker_turn. rewrite Hd.
    split; [reflexivity|]. rewrite app_nil_r.
    split; [reflexivity|]. split; intros; constructor.
Qed.

(** The worker on any packets: it returns, and what it adds to the
    trace. *)
Lemma worker_events (env : Env) (pkts : list rxPacket) :
  forall st : State,
    uploadPath (server st) <> "" ->
    exists r st' evs,
      sftpServerWorker env pkts st = Returns r st' /\
      trace st' = trace st ++ evs /\
      Forall confined evs /\
      (readOnly (server st) = true -> Forall (fun ev => ~ writes ev) evs).
Proof.
  induction pkts as [|p pkts IH]; intros st Hup.
  - exists None, st, []. rewrite app_nil_r. repeat split; constructor.
  - destruct (turn_events env p st Hup) as (r1 & st1 & evs1 & Hturn & Ht1 & Hc1 & Hw1).
    cbn [sftpServerWorker]. unfold bind. rewrite Hturn.
    destruct (step_settings _ _ (turn_step env p st st1 r1 Hturn)) as [Hup1 Hro1].
    destruct r1 as [e|].
    + exists (Some e), st1, evs1. auto.
    + destruct (IH st1) as (r & st' & evs & Hrun & Ht & Hc & Hw); [now rewrite Hup1|].
      exists r, st', (evs1 ++ evs). split; [exact Hrun|].
      split; [now rewrite Ht, Ht1, app_assoc|].
      split; [apply Forall_app; auto|].
      intros Hr. apply Forall_app. split; [auto|]. apply Hw. now rewrite Hro1.
Qed.

(** X2. Whatever packets arrive, the worker returns, and all it does
    outside the server is: open "/dev/null", create a file, write at an
    offset, list 128 entries of an open file, close a file, read the
    clock, call a hook, send a response.  It never makes a directory,
    removes, renames, links, reads a link, reads, stats, truncates or
    changes the mode, owner or times of a file. *)
Theorem worker_confined (env : Env) (pkts : list rxPacket) (st : State) :
  uploadPath (server st) <> "" ->
  exists r st' evs,
    sftpServerWorker env pkts st = Returns r st' /\
    trace st' = trace st ++ evs /\
    Forall confined evs.
Proof.
  intros Hup. destruct (worker_events env pkts st Hup) as (r & st' & evs & H1 & H2 & H3 & _).
  exists r, st', evs. auto.
Qed.

Lemma worker_confined_witness :
  exists r st' evs,
    sftpServerWorker (example_env no_failure)
      [mkRx ssh_FXP_OPENDIR [Byte.x01; Byte.x2f]; mkRx ssh_FXP_MKDIR [Byte.x02; Byte.x64]]
      (start example_server) = Returns r st' /\
    trace st' = [] ++ evs /\
    Forall confined evs.
Proof.
  apply (worker_confined (example_env no_failure)
           [mkRx ssh_FXP_OPENDIR [Byte.x01; Byte.x2f]; mkRx ssh_FXP_MKDIR [Byte.x02; Byte.x64]]
           (start example_server) ltac:(discriminate)).
Defined.

(** X3. A read-only server makes no call that changes a file, whatever
    packets arrive: it creates no file and writes nothing. *)
Theorem readonly_never_writes (env : Env) (pkts : list rxPacket) (st : State) :
  uploadPath (server st) <> "" ->
  readOnly (server st) = true ->
  exists r st' evs,
    sftpServerWorker env pkts st = Returns r st' /\
    trace st' = trace st ++ evs /\
    Forall (fun ev => ~ writes ev) evs.
Proof.
  intros Hup Hr. destruct (worker_events env pkts st Hup) as (r & st' & evs & H1 & H2 & _ & H4).
  exists r, st', evs. auto.
Qed.

Lemma readonly_never_writes_witness :
  exists r st' evs,
    sftpServerWorker (example_env no_failure)
      [mkRx ssh_FXP_OPEN [Byte.x01; Byte.x02; Byte.x2f; Byte.x75; Byte.x70; Byte.x2f; Byte.x66];
       mkRx ssh_FXP_WRITE [Byte.x02; Byte.x00; Byte.x31; Byte.x61]]
      (start readonly_server) = Returns r st' /\
    trace st' = [] ++ evs /\
    Forall (fun ev => ~ writes ev) evs.
Proof.
  apply (readonly_never_writes (example_env no_failure)
           [mkRx ssh_FXP_OPEN [Byte.x01; Byte.x02; Byte.x2f; Byte.x75; Byte.x70; Byte.x2f; Byte.x66];
            mkRx ssh_FXP_WRITE [Byte.x02; Byte.x00; Byte.x31; Byte.x61]]
           (start readonly_server) ltac:(discriminate) eq_refl).
Defined.

(** ** The worker on a list of packets *)

(** X4. The worker handles packets in sequence: on one list of packets
    after another it goes on with the second list from the state that the
    first left, unless the first list ended it (with an error or a
    panic), and then the second list is not looked at. *)
Theorem worker_app (env : Env) (pkts1 pkts2 : list rxPacket) (st : State) :
  sftpServerWorker env (pkts1 ++ pkts2) st =
  match sftpServerWorker env pkts1 st with
  | Returns None st1 => sftpServerWorker env pkts2 st1
  | stopped => stopped
  end.
Proof.
  revert st. induction pkts1 as [|p pkts1 IH]; intros st; [reflexivity|].
  cbn [app sftpServerWorker]. unfold bind.
  destruct (sftpServerWorker_turn env p st) as [[e|] st1|]; [reflexivity| |reflexivity].
  apply IH.
Qed.

(** X5. A packet whose type has no case in the worker, or whose body
    does not decode, ends the worker with an error: nothing is sent for
    it, the server stays as the packets before it left it, and no packet
    after it is handled. *)
Theorem worker_undecodable (env : Env) (pkts1 pkts2 : list rxPacket) (p : rxPacket)
    (st st1 : State) :
  undecodable env p ->
  sftpServerWorker env pkts1 st = Returns None st1 ->
  exists e, sftpServerWorker env (pkts1 ++ p :: pkts2) st = Returns (Some e) st1.
Proof.
  intros Hp. revert st. induction pkts1 as [|q pkts1 IH]; intros st Hrun.
  - injection Hrun as <-. cbn [app sftpServerWorker]. unfold bind, sftpServerWorker_turn.
    unfold undecodable in Hp.
    destruct (decode env (pktType p) (pktBytes p)) as [[[e|pkt] ro]|];
      [eauto|contradiction|eauto].
  - cbn [app sftpServerWorker] in *. unfold bind in *.
    destruct (sftpServerWorker_turn env q st) as [[e|] st2|]; try discriminate.
    now apply IH.
Qed.

Lemma worker_undecodable_witness :
  exists e,
    sftpServerWorker (example_env no_failure)
      ([] ++ mkRx ssh_FXP_OPEN [] :: [mkRx ssh_FXP_STAT [Byte.x01; Byte.x2f]])
      (start example_server)
    = Returns (Some e) (start example_server).
Proof.
  apply (worker_undecodable (example_env no_failure) []
           [mkRx ssh_FXP_STAT [Byte.x01; Byte.x2f]] (mkRx ssh_FXP_OPEN [])
           (start example_server) (start example_server) I eq_refl).
Defined.

(** ** More on the table of handles *)

(** The tables of the servers of the examples hold issued handles only. *)
Lemma example_server_issued : handles_issued example_server.
Proof. apply new_server_issued; [reflexivity..|cbn; lia]. Qed.

Lemma busy_server_issued : handles_issued busy_server.
Proof.
  split; [cbn; lia|]. intros h Hh.
  destruct (decide (h = "1")) as [->|H1]; [exists 1; split; [reflexivity|cbn; lia]|].
  destruct (decide (h = "2")) as [->|H2]; [exists 2; split; [reflexivity|cbn; lia]|].
  exfalso. cbn in Hh.
  rewrite !lookup_insert_ne, !lookup_empty in Hh by congruence.
  destruct Hh as [[x Hx]|[x Hx]]; discriminate.
Qed.

Lemma busy_server_dirs_are_files : dirs_are_files busy_server.
Proof.
  intros h Hh. cbn in *.
  destruct (decide (h = "2")) as [->|H2]; [eexists; reflexivity|].
  rewrite lookup_insert_ne, lookup_empty in Hh by congruence.
  destruct Hh as [x Hx]. discriminate.
Qed.

(** The handle that comes next is not in a table that holds issued
    handles only. *)
Lemma issued_fresh (svr : Server) :
  handles_issued svr -> handleCount svr + 1 < 2 ^ 63 ->
  int64 (handleCount svr + 1) = handleCount svr + 1 /\
  openFiles svr !! Itoa (handleCount svr + 1) = None /\
  openDirs svr !! Itoa (handleCount svr + 1) = None.
Proof.
  intros [H0 Hwf] Hb. split; [apply int64_in_range; lia|].
  assert (Hno : ~ (is_Some (openFiles svr !! Itoa (handleCount svr + 1)) \/
                   is_Some (openDirs svr !! Itoa (handleCount svr + 1)))).
  { intros Hh. destruct (Hwf _ Hh) as (n & E & Hn). apply Itoa_inj in E. lia. }
  split.
  - destruct (openFiles svr !! _); [exfalso; apply Hno; left; eauto|reflexivity].
  - destruct (openDirs svr !! _); [exfalso; apply Hno; right; eauto|reflexivity].
Qed.

Lemma nextHandle_run (f : File) (dirName : string) (st : State) :
  nextHandle f dirName st =
  Returns (Itoa (int64 (handleCount (server st) + 1)))
    (mkState (if String.eqb dirName "" then with_file_handle (server st) f
              else with_dir_handle (server st) f dirName) (trace st)).
Proof.
  unfold nextHandle. run. destruct (String.eqb dirName ""); reflexivity.
Qed.

(** X6. While the counter does not overflow, on a table that holds issued
    handles only, [nextHandle] returns a handle that was in neither table;
    afterwards [getHandle] finds the file under it, [getHandleDirInfo]
    finds the unread entry of the directory exactly when a directory name
    was given, every other handle is bound as before, nothing is called,
    and the table still holds issued handles only. *)
Theorem nextHandle_fresh (f : File) (dirName : string) (st : State) :
  handles_issued (server st) ->
  handleCount (server st) + 1 < 2 ^ 63 ->
  exists h st',
    nextHandle f dirName st = Returns h st' /\
    trace st' = trace st /\
    openFiles (server st) !! h = None /\
    openDirs (server st) !! h = None /\
    getHandle h st' = Returns (Some f) st' /\
    getHandleDirInfo h st'
    = Returns (if String.eqb dirName "" then None else Some (mkDirInfo dirName false)) st' /\
    (forall h', h' <> h ->
                openFiles (server st') !! h' = openFiles (server st) !! h' /\
                openDirs (server st') !! h' = openDirs (server st) !! h') /\
    handles_issued (server st').
Proof.
  intros Hwf Hb. destruct (issued_fresh _ Hwf Hb) as (Hn & Hf & Hd).
  assert (Hwf' : handles_issued (if String.eqb dirName ""
                                 then with_file_handle (server st) f
                                 else with_dir_handle (server st) f dirName)).
  { destruct (String.eqb dirName "") eqn:E.
    - apply (step_issued (server st) _ Hwf Hb), step_file.
    - apply (step_issued (server st) _ Hwf Hb), step_dir. now apply String.eqb_neq in E. }
  rewrite nextHandle_run. do 2 eexists. split; [reflexivity|].
  cbn [trace server]. split; [reflexivity|].
  rewrite Hn. split; [exact Hf|]. split; [exact Hd|].
  unfold getHandle, getHandleDirInfo. run.
  split; [|split; [|split; [|exact Hwf']]]; clear Hwf'.
  - destruct (String.eqb dirName ""); unfold with_dir_handle, with_file_handle;
      rewrite ?Hn; cbn; now rewrite lookup_insert_eq.
  - destruct (String.eqb dirName ""); unfold with_dir_handle, with_file_handle;
      rewrite ?Hn; cbn; [now rewrite Hd|].
    now rewrite lookup_insert_eq.
  - intros h' Hne. destruct (String.eqb dirName "");
      unfold with_dir_handle, with_file_handle; rewrite ?Hn; cbn;
      rewrite ?lookup_insert_ne by congruence; auto.
Qed.

Lemma nextHandle_fresh_witness :
  exists h st',
    nextHandle (mkFile "a.txt" 0) "" (start busy_server) = Returns h st' /\
    openFiles busy_server !! h = None /\
    getHandle h st' = Returns (Some (mkFile "a.txt" 0)) st'.
Proof.
  destruct (nextHandle_fresh (mkFile "a.txt" 0) "" (start busy_server)
              busy_server_issued ltac:(cbn; lia))
    as (h & st' & H1 & _ & H2 & _ & H3 & _).
  exists h, st'. auto.
Defined.

(** X7. Closing the handle that [nextHandle] has just issued restores both
    tables; the counter stays advanced, the file is closed, and the upload
    notifier is called exactly when it is set and the handle is not that
    of a directory. *)
Theorem nextHandle_closeHandle (env : Env) (f : File) (dirName : string) (st : State) :
  handles_issued (server st) ->
  handleCount (server st) + 1 < 2 ^ 63 ->
  exists h st1 st2,
    nextHandle f dirName st = Returns h st1 /\
    closeHandle env h st1
    = Returns (result_error env (trace st) (File_Close f)) st2 /\
    openFiles (server st2) = openFiles (server st) /\
    openDirs (server st2) = openDirs (server st) /\
    handleCount (server st2) = handleCount (server st) + 1 /\
    trace st2 = trace st ++ File_Close f ::
                  (if uploadNotifier (server st) && String.eqb dirName ""
                   then [call_uploadNotifier (Name f)] else []).
Proof.
  intros Hwf Hb. destruct (issued_fresh _ Hwf Hb) as (Hn & Hf & Hd).
  rewrite nextHandle_run, Hn.
  destruct (String.eqb dirName "") eqn:E.
  - do 3 eexists. split; [reflexivity|].
    erewrite closeHandle_known; cycle 1.
    { unfold with_file_handle. cbn [server openFiles set_openFiles].
      rewrite Hn. apply lookup_insert_eq. }
    split; [reflexivity|]. unfold with_file_handle. rewrite Hn. cbn. rewrite Hd.
    rewrite (delete_insert_id _ _ _ Hf), (delete_id _ _ Hd), andb_true_r.
    repeat split.
  - do 3 eexists. split; [reflexivity|].
    erewrite closeHandle_known; cycle 1.
    { unfold with_dir_handle, with_file_handle.
      cbn [server openFiles set_openFiles set_openDirs].
      rewrite Hn. apply lookup_insert_eq. }
    split; [reflexivity|]. unfold with_dir_handle, with_file_handle. rewrite Hn. cbn.
    rewrite lookup_insert_eq.
    rewrite (delete_insert_id _ _ _ Hf), (delete_insert_id _ _ _ Hd), andb_false_r.
    destruct (uploadNotifier (server st)); repeat split.
Qed.

Lemma nextHandle_closeHandle_witness :
  exists h st1 st2,
    nextHandle (mkFile "a.txt" 0) "" (start busy_server) = Returns h st1 /\
    closeHandle (example_env no_failure) h st1 = Returns None st2 /\
    openFiles (server st2) = openFiles busy_server /\
    openDirs (server st2) = openDirs busy_server.
Proof.
  destruct (nextHandle_closeHandle (example_env no_failure) (mkFile "a.txt" 0) ""
              (start busy_server) busy_server_issued ltac:(cbn; lia))
    as (h & st1 & st2 & H1 & H2 & H3 & H4 & _).
  exists h, st1, st2. auto.
Defined.

(** Across one step a handle of the table keeps its file or goes away. *)
Lemma step_file_stable (svr svr' : Server) (h : string) (f : File) :
  handles_issued svr -> handleCount svr + 1 < 2 ^ 63 ->
  server_step svr svr' ->
  openFiles svr !! h = Some f ->
  openFiles svr' !! h = Some f \/ openFiles svr' !! h = None.
Proof.
  intros Hwf Hb Hs Hh. destruct (issued_fresh _ Hwf Hb) as (Hn & Hf & _).
  assert (Hne : Itoa (handleCount svr + 1) <> h) by (intros <-; congruence).
  destruct Hs as [|h'|f'|f' d Hd|h']; cbn; rewrite ?Hn.
  - auto.
  - destruct (decide (h' = h)) as [->|Hne'].
    + right. apply lookup_delete_eq.
    + left. now rewrite lookup_delete_ne.
  - left. now rewrite lookup_insert_ne.
  - left. now rewrite lookup_insert_ne.
  - auto.
Qed.

Lemma step_file_gone (svr svr' : Server) (n : Z) :
  handles_issued svr -> handleCount svr + 1 < 2 ^ 63 ->
  server_step svr svr' ->
  n <= handleCount svr ->
  openFiles svr !! Itoa n = None ->
  openFiles svr' !! Itoa n = None.
Proof.
  intros [H0 _] Hb Hs Hn Hh.
  assert (Hnext : int64 (handleCount svr + 1) = handleCount svr + 1)
    by (apply int64_in_range; lia).
  assert (Hne : Itoa (handleCount svr + 1) <> Itoa n).
  { intros E. apply Itoa_inj in E. lia. }
  destruct Hs as [|h'|f'|f' d Hd|h']; cbn; rewrite ?Hnext.
  - exact Hh.
  - destruct (decide (h' = Itoa n)) as [->|Hne'].
    + apply lookup_delete_eq.
    + now rewrite lookup_delete_ne.
  - now rewrite lookup_insert_ne.
  - now rewrite lookup_insert_ne.
  - exact Hh.
Qed.

Lemma worker_file_stable (env : Env) (pkts : list rxPacket) :
  forall (st st' : State) (r : option error) (n : Z) (f : File),
    sftpServerWorker env pkts st = Returns r st' ->
    handles_issued (server st) ->
    handleCount (server st) + Z.of_nat (length pkts) < 2 ^ 63 ->
    n <= handleCount (server st) ->
    openFiles (server st) !! Itoa n = Some f \/ openFiles (server st) !! Itoa n = None ->
    openFiles (server st') !! Itoa n = Some f \/ openFiles (server st') !! Itoa n = None.
Proof.
  induction pkts as [|p pkts IH]; intros st st' r n f Hrun Hwf Hb Hn Hh.
  - cbn in Hrun. apply Returns_server in Hrun. now rewrite <- Hrun.
  - cbn [sftpServerWorker] in Hrun. unfold bind in Hrun.
    destruct (sftpServerWorker_turn env p st) as [r1 st1|] eqn:Hturn; [|discriminate].
    apply turn_step in Hturn.
    cbn [length] in Hb. rewrite Nat2Z.inj_succ in Hb.
    assert (Hb1 : handleCount (server st) + 1 < 2 ^ 63) by lia.
    destruct (step_issued _ _ Hwf Hb1 Hturn) as [Hwf1 Hc1].
    assert (Hh1 : openFiles (server st1) !! Itoa n = Some f \/
                  openFiles (server st1) !! Itoa n = None).
    { destruct Hh as [Hh|Hh].
      - apply (step_file_stable _ _ _ _ Hwf Hb1 Hturn Hh).
      - right. apply (step_file_gone _ _ n Hwf Hb1 Hturn Hn Hh). }
    destruct r1 as [e|].
    + apply Returns_server in Hrun. now rewrite <- Hrun.
    + eapply (IH st1 st' r n f); try eassumption; lia.
Qed.

(** X8. While the counter does not overflow, whatever packets the worker
    handles, a handle of the table stays bound to the file it was issued
    for, or is gone: it is never bound to another file. *)
Theorem worker_handles_stable (env : Env) (pkts : list rxPacket) (st : State)
    (h : string) (f : File) :
  uploadPath (server st) <> "" ->
  handles_issued (server st) ->
  handleCount (server st) + Z.of_nat (length pkts) < 2 ^ 63 ->
  openFiles (server st) !! h = Some f ->
  exists r st',
    sftpServerWorker env pkts st = Returns r st' /\
    (openFiles (server st') !! h = Some f \/ openFiles (server st') !! h = None).
Proof.
  intros Hup Hwf Hb Hh.
  destruct (worker_events env pkts st Hup) as (r & st' & _ & Hrun & _).
  exists r, st'. split; [exact Hrun|].
  destruct Hwf as [H0 Hall]. destruct (Hall h) as (n & -> & Hn); [left; eauto|].
  apply (worker_file_stable env pkts st st' r n f Hrun); auto; [split; auto|lia].
Qed.

Lemma worker_handles_stable_witness :
  exists r st',
    sftpServerWorker (example_env no_failure)
      [mkRx ssh_FXP_CLOSE [Byte.x05; Byte.x32]] (start busy_server) = Returns r st' /\
    (openFiles (server st') !! "1" = Some (mkFile "file.txt" 0) \/
     openFiles (server st') !! "1" = None).
Proof.
  apply (worker_handles_stable (example_env no_failure)
           [mkRx ssh_FXP_CLOSE [Byte.x05; Byte.x32]] (start busy_server) "1"
           (mkFile "file.txt" 0) ltac:(discriminate) busy_server_issued
           ltac:(cbn; lia) eq_refl).
Defined.

(** X9. While the counter does not overflow, the worker advances it by at
    most one for each packet and never moves it back, and the tables keep
    holding only handles that the counter has passed. *)
Theorem worker_handle_count (env : Env) (pkts : list rxPacket) (st : State) :
  uploadPath (server st) <> "" ->
  handles_issued (server st) ->
  handleCount (server st) + Z.of_nat (length pkts) < 2 ^ 63 ->
  exists r st',
    sftpServerWorker env pkts st = Returns r st' /\
    handles_issued (server st') /\
    handleCount (server st) <= handleCount (server st')
    <= handleCount (server st) + Z.of_nat (length pkts).
Proof.
  intros Hup Hwf Hb.
  destruct (worker_events env pkts st Hup) as (r & st' & _ & Hrun & _).
  exists r, st'. split; [exact Hrun|].
  apply (worker_issued env pkts st st' r Hrun Hwf Hb).
Qed.

Lemma worker_handle_count_witness :
  exists r st',
    sftpServerWorker (example_env no_failure)
      [mkRx ssh_FXP_OPENDIR [Byte.x01; Byte.x2f]] (start busy_server) = Returns r st' /\
    handles_issued (server st') /\
    2 <= handleCount (server st') <= 3.
Proof.
  apply (worker_handle_count (example_env no_failure)
           [mkRx ssh_FXP_OPENDIR [Byte.x01; Byte.x2f]] (start busy_server)
           ltac:(discriminate) busy_server_issued ltac:(cbn; lia)).
Defined.

Lemma step_dirs_are_files (svr svr' : Server) :
  dirs_are_files svr -> server_step svr svr' -> dirs_are_files svr'.
Proof.
  intros Hinv Hs h. destruct Hs as [|h'|f'|f' d Hd|h']; cbn.
  - apply Hinv.
  - destruct (decide (h' = h)) as [->|Hne].
    + rewrite lookup_delete_eq. now intros [x Hx].
    + rewrite !lookup_delete_ne by exact Hne. apply Hinv.
  - destruct (decide (Itoa (int64 (handleCount svr + 1)) = h)) as [->|Hne].
    + rewrite lookup_insert_eq. eauto.
    + rewrite lookup_insert_ne by exact Hne. apply Hinv.
  - destruct (decide (Itoa (int64 (handleCount svr + 1)) = h)) as [->|Hne].
    + rewrite !lookup_insert_eq. eauto.
    + rewrite !lookup_insert_ne by exact Hne. apply Hinv.
  - destruct (decide (h' = h)) as [->|Hne].
    + rewrite lookup_alter_eq. intros Hx. apply Hinv.
      destruct (openDirs svr !! h); [eauto|]. now destruct Hx.
    + rewrite lookup_alter_ne by exact Hne. apply Hinv.
Qed.

Lemma worker_dirs_files (env : Env) (pkts : list rxPacket) :
  forall (st st' : State) (r : option error),
    sftpServerWorker env pkts st = Returns r st' ->
    dirs_are_files (server st) -> dirs_are_files (server st').
Proof.
  induction pkts as [|p pkts IH]; intros st st' r Hrun Hinv.
  - cbn in Hrun. apply Returns_server in Hrun. now rewrite <- Hrun.
  - cbn [sftpServerWorker] in Hrun. unfold bind in Hrun.
    destruct (sftpServerWorker_turn env p st) as [r1 st1|] eqn:Hturn; [|discriminate].
    apply turn_step in Hturn. apply (step_dirs_are_files _ _ Hinv) in Hturn.
    destruct r1 as [e|].
    + apply Returns_server in Hrun. now rewrite <- Hrun.
    + eapply IH; eassumption.
Qed.

(** X10. The worker keeps every handle of a directory a handle of a file
    too; so [closeHandle] on a handle of a directory finds it, removes the
    entry of the directory, and does not call the upload notifier. *)
Theorem worker_dirs_are_files (env : Env) (pkts : list rxPacket) (st : State) :
  uploadPath (server st) <> "" ->
  dirs_are_files (server st) ->
  exists r st',
    sftpServerWorker env pkts st = Returns r st' /\
    dirs_are_files (server st') /\
    forall h di, openDirs (server st') !! h = Some di ->
                 exists r' st'',
                   closeHandle env h st' = Returns r' st'' /\
                   openDirs (server st'') !! h = None /\
                   notifications (trace st'') = notifications (trace st').
Proof.
  intros Hup Hinv.
  destruct (worker_events env pkts st Hup) as (r & st' & _ & Hrun & _).
  exists r, st'. split; [exact Hrun|].
  pose proof (worker_dirs_files env pkts st st' r Hrun Hinv) as Hinv'.
  split; [exact Hinv'|]. intros h di Hdi.
  destruct (Hinv' h) as [f Hf]; [eauto|].
  rewrite (closeHandle_known env st' h f Hf). do 2 eexists. split; [reflexivity|].
  cbn [server trace]. split; [apply lookup_delete_eq|].
  rewrite Hdi, notifications_app. cbn.
  destruct (uploadNotifier (server st')); cbn; now rewrite app_nil_r.
Qed.

Lemma worker_dirs_are_files_witness :
  exists r st',
    sftpServerWorker (example_env no_failure)
      [mkRx ssh_FXP_OPENDIR [Byte.x01; Byte.x2f]] (start busy_server) = Returns r st' /\
    dirs_are_files (server st').
Proof.
  destruct (worker_dirs_are_files (example_env no_failure)
              [mkRx ssh_FXP_OPENDIR [Byte.x01; Byte.x2f]] (start busy_server)
              ltac:(discriminate) busy_server_dirs_are_files)
    as (r & st' & H1 & H2 & _).
  exists r, st'. auto.
Defined.

(** ** A handle that is not in the table *)

(** X11. Close, read, write, fstat, fsetstat and readdir on a handle
    that is not in the table: the handler sends one status, the
    translation of EBADF (code FAILURE with the message of errno 9),
    calls nothing else and leaves the server as it is. *)
Theorem unknown_handle (env : Env) (pkt : Packet) (h : string) (st : State) :
  handle_of pkt = Some h ->
  openFiles (server st) !! h = None ->
  let answer := errno_answer env pkt ssh_FX_FAILURE syscall_EBADF in
  exists r,
    handlePacket env pkt st = Returns r (mkState (server st) (trace st ++ [answer])) /\
    (r = None <-> result_error env (trace st) answer = None).
Proof.
  intros Hh Hno answer. subst answer. unfold errno_answer.
  destruct pkt; cbn [handle_of] in Hh; try discriminate; injection Hh as ->.
  - unfold handlePacket. run. rewrite (closeHandle_unknown env st h Hno).
    eexists. split; [reflexivity|]. reflexivity.
  - unfold handlePacket. run. rewrite Hno. eexists. split; reflexivity.
  - unfold handlePacket. run. rewrite Hno. eexists. split; reflexivity.
  - unfold handlePacket. run. rewrite Hno. eexists. split; reflexivity.
  - unfold handlePacket, sshFxpFsetstatPacket_respond. run. rewrite Hno.
    eexists. split; [reflexivity|]. apply errors_Wrap_None.
  - unfold handlePacket, sshFxpReaddirPacket_respond. run. rewrite Hno.
    eexists. split; [reflexivity|]. apply errors_Wrap_None.
Qed.

Lemma unknown_handle_witness :
  exists r,
    handlePacket (example_env no_failure) (sshFxpClosePacket 5 "7") (start busy_server)
    = Returns r
        (mkState busy_server
           [errno_answer (example_env no_failure) (sshFxpClosePacket 5 "7")
              ssh_FX_FAILURE syscall_EBADF]).
Proof.
  destruct (unknown_handle (example_env no_failure) (sshFxpClosePacket 5 "7") "7"
              (start busy_server) eq_refl eq_refl) as (r & H & _).
  exists r. exact H.
Defined.

(** ** Stat *)

Lemma HasPrefix_len (s pre : string) :
  GoString.HasPrefix s pre = true -> GoString.len pre <= GoString.len s.
Proof.
  intros H. apply GoStringFacts.HasPrefix_inv in H as [rest ->].
  rewrite GoStringFacts.len_app. pose proof (GoStringFacts.len_nonneg rest). lia.
Qed.

Lemma len_nonempty (s : string) : s <> "" -> 0 < GoString.len s.
Proof.
  destruct s; [congruence|]. intros _. unfold GoString.len. cbn [String.length]. lia.
Qed.

(** A path below the upload directory is not a virtual directory. *)
Lemma below_not_virtual (svr : Server) (name : string) :
  name <> "" ->
  isUploadDirOrAncestor svr (upload_prefix svr +:+ name) = false.
Proof.
  intros Hn. apply len_nonempty in Hn.
  pose proof (GoStringFacts.len_nonneg (uploadPath svr)) as Hup.
  assert (Hlen : GoString.len (uploadPath svr) < GoString.len (upload_prefix svr +:+ name) /\
                 1 < GoString.len (upload_prefix svr +:+ name)).
  { rewrite GoStringFacts.len_app. unfold upload_prefix.
    destruct (String.eqb (uploadPath svr) "/") eqn:E.
    - apply String.eqb_eq in E. rewrite E in *. change (GoString.len "/") with 1. lia.
    - rewrite GoStringFacts.len_app. change (GoString.len "/") with 1. lia. }
  destruct Hlen as [H1 H2]. unfold isUploadDirOrAncestor.
  destruct (String.eqb (upload_prefix svr +:+ name) (uploadPath svr)) eqn:E1.
  { apply String.eqb_eq in E1. rewrite E1 in H1. lia. }
  destruct (String.eqb (upload_prefix svr +:+ name) "/") eqn:E2.
  { apply String.eqb_eq in E2. rewrite E2 in H2. change (GoString.len "/") with 1 in H2. lia. }
  cbn [orb].
  destruct (GoString.HasPrefix (uploadPath svr) ((upload_prefix svr +:+ name) +:+ "/")) eqn:E3;
    [|reflexivity].
  apply HasPrefix_len in E3. rewrite GoStringFacts.len_app in E3.
  change (GoString.len "/") with 1 in E3. lia.
Qed.

(** X12. Stat and lstat do not look at the file system: a clean path
    strictly below the upload directory, an uploaded file for one, is
    answered with NO_SUCH_FILE and nothing else is called. *)
Theorem stat_below_upload_directory (env : Env) (st : State) (ID : Z) (name : string)
    (lstat : bool) :
  name <> "" ->
  let path := upload_prefix (server st) +:+ name in
  path_Clean env path = path ->
  let p := if lstat then sshFxpLstatPacket ID path else sshFxpStatPacket ID path in
  let answer := errno_answer env p ssh_FX_NO_SUCH_FILE syscall_ENOENT in
  handlePacket env p st
  = Returns (result_error env (trace st) answer)
      (mkState (server st) (trace st ++ [answer])).
Proof.
  intros Hn path Hc p answer. subst p answer. unfold errno_answer.
  destruct lstat; unfold handlePacket, doStat; run; rewrite Hc;
    unfold path; rewrite (below_not_virtual (server st) name Hn); reflexivity.
Qed.

Lemma stat_below_upload_directory_witness :
  let answer := errno_answer (example_env no_failure) (sshFxpStatPacket 1 "/up/a.txt")
                  ssh_FX_NO_SUCH_FILE syscall_ENOENT in
  handlePacket (example_env no_failure) (sshFxpStatPacket 1 "/up/a.txt")
    (start example_server)
  = Returns None (mkState example_server [answer]).
Proof.
  apply (stat_below_upload_directory (example_env no_failure) (start example_server) 1
           "a.txt" false ltac:(discriminate) eq_refl).
Defined.

(** ** The entry that a virtual directory lists *)

Lemma next_segment_virtual (svr : Server) (d child : string) :
  next_segment d (uploadPath svr) child ->
  isUploadDirOrAncestor svr (child_path d child) = true.
Proof.
  intros (_ & rest & Hup & [->|Hrest]); unfold isUploadDirOrAncestor.
  - rewrite GoStringFacts.app_empty_r in Hup. rewrite Hup, String.eqb_refl. reflexivity.
  - apply GoStringFacts.HasPrefix_inv in Hrest as [r ->].
    destruct (_ || _); [reflexivity|].
    rewrite Hup, <- GoStringFacts.app_assoc. apply GoStringFacts.HasPrefix_app.
Qed.

(** X13. The entry that the first readdir on a virtual directory lists
    names a directory that is virtual itself: the path of the child is the
    upload directory or an ancestor of it. *)
Theorem listed_child_is_virtual (env : Env) (st : State) (ID : Z) (h : string)
    (f : File) (d : string) :
  readdirHook (server st) = true ->
  GoString.HasPrefix (uploadPath (server st)) "/" = true ->
  openFiles (server st) !! h = Some f ->
  openDirs (server st) !! h = Some (mkDirInfo d false) ->
  isUploadDirOrAncestor (server st) d = true ->
  d <> uploadPath (server st) ->
  exists child r st',
    sshFxpReaddirPacket_respond env ID h st = Returns r st' /\
    last (trace st') = Some (one_child_listing env ID child (result_time env (trace st))) /\
    isUploadDirOrAncestor (server st') (child_path d child) = true.
Proof.
  intros Hhook Habs Hf Hd Hanc Hne.
  destruct (readdir_first env st ID h f d Hhook Habs Hf Hd Hanc Hne) as (child & Hseg & Hrun).
  exists child. do 2 eexists. split; [exact Hrun|]. cbn [trace server]. split.
  - change [time_Now; ?a] with ([time_Now] ++ [a]).
    rewrite app_assoc. apply last_snoc.
  - rewrite (ancestor_same_path (server st)); [|reflexivity].
    now apply next_segment_virtual.
Qed.

Lemma listed_child_is_virtual_witness :
  exists child r st',
    sshFxpReaddirPacket_respond (example_env no_failure) 3 "1" (start deep_server)
    = Returns r st' /\
    last (trace st')
    = Some (one_child_listing (example_env no_failure) 3 child 0) /\
    isUploadDirOrAncestor (server st') (child_path "/" child) = true.
Proof.
  apply (listed_child_is_virtual (example_env no_failure) (start deep_server) 3 "1"
           (mkFile "/dev/null" 0) "/" eq_refl eq_refl eq_refl eq_refl eq_refl
           ltac:(discriminate)).
Defined.

(** ** The virtual directories are closed under parent *)

Lemma HasPrefix_app_l (s a b : string) :
  GoString.HasPrefix s (a +:+ b) = true -> GoString.HasPrefix s a = true.
Proof.
  intros H. apply GoStringFacts.HasPrefix_inv in H as [rest ->].
  rewrite GoStringFacts.app_assoc. apply GoStringFacts.HasPrefix_app.
Qed.

(** X14. The virtual directories are closed under parent: if [dir/child]
    is the upload directory or an ancestor of it, so is [dir], for every
    [dir] that is not empty. *)
Theorem virtual_parent (svr : Server) (d child : string) :
  d <> "" ->
  isUploadDirOrAncestor svr (child_path d child) = true ->
  isUploadDirOrAncestor svr d = true.
Proof.
  intros Hd. unfold isUploadDirOrAncestor, child_path.
  destruct (String.eqb d "/") eqn:Eroot; [now rewrite orb_true_r|].
  rewrite orb_false_r.
  destruct (String.eqb d (uploadPath svr)); [reflexivity|].
  destruct (String.eqb_spec (d +:+ "/" +:+ child) (uploadPath svr)) as [E|_].
  { intros _. rewrite <- E, <- GoStringFacts.app_assoc.
    apply GoStringFacts.HasPrefix_app. }
  destruct (String.eqb_spec (d +:+ "/" +:+ child) "/") as [E|_].
  { destruct d as [|c d]; [congruence|]. cbn in E. injection E as _ E.
    destruct d; discriminate. }
  cbn [orb]. intros H.
  apply (HasPrefix_app_l _ (d +:+ "/") (child +:+ "/")).
  now rewrite !GoStringFacts.app_assoc in *.
Qed.

Lemma virtual_parent_witness :
  isUploadDirOrAncestor deep_server (child_path "/srv" "up") = true /\
  isUploadDirOrAncestor deep_server "/srv" = true.
Proof.
  split; [reflexivity|].
  apply (virtual_parent deep_server "/srv" "up" ltac:(discriminate) eq_refl).
Defined.

(** ** Opendir *)

(** X15. Opendir on a virtual directory when [os.Open] fails: the opendir
    hook, if set, is called all the same, the translated error is sent,
    and no handle is allocated. *)
Theorem opendir_failed_open (env : Env) (ID : Z) (path : string) (st : State) (err : error) :
  isUploadDirOrAncestor (server st) (path_Clean env path) = true ->
  result_error env (trace st) (os_Open "/dev/null") = Some err ->
  let opened := trace st ++ os_Open "/dev/null"
                  :: (if opendirHook (server st) then [call_opendirHook] else []) in
  let answer := sendPacket_of
                  (R_Status (statusFromError env (P_Open (mkOpen ID path ssh_FXF_READ 0))
                               (Some err))) in
  handlePacket env (sshFxpOpendirPacket ID path) st
  = Returns (result_error env opened answer) (mkState (server st) (opened ++ [answer])).
Proof.
  intros Hv He opened answer. subst opened answer.
  unfold handlePacket, sshFxpOpenPacket_respond, open_or_create. run.
  cbn [Path]. rewrite Hv. change (readonly (mkOpen ID path ssh_FXF_READ 0)) with true.
  cbn [andb]. rewrite He.
  destruct (opendirHook (server st)); cbn [server trace];
    rewrite <- ?app_assoc; reflexivity.
Qed.

Lemma opendir_failed_open_witness :
  let fails := fun ev => match ev with
                         | os_Open _ => Some (syscall_Errno 24)
                         | _ => None
                         end in
  let answer := sendPacket_of
                  (R_Status (mkStatus 1 (mkStatusError ssh_FX_FAILURE "too many open files"))) in
  handlePacket (example_env fails) (sshFxpOpendirPacket 1 "/") (start example_server)
  = Returns None (mkState example_server [os_Open "/dev/null"; answer]).
Proof.
  apply (opendir_failed_open
           (example_env (fun ev => match ev with
                                   | os_Open _ => Some (syscall_Errno 24)
                                   | _ => None
                                   end))
           1 "/" (start example_server) (syscall_Errno 24) eq_refl eq_refl).
Defined.

(** ** Write without a limit *)

(** X16. With a limit of zero or below (no limit), a write on a handle of
    the table is never refused for its size: the data is written at the
    offset, whatever the offset, and the status reports what the write
    returned. *)
Theorem write_without_limit (env : Env) (st : State) (ID : Z) (handle : string)
    (Offset : Z) (Data : list Byte.byte) (f : File) :
  openFiles (server st) !! handle = Some f ->
  fileSizeLimit (server st) <= 0 ->
  let p := sshFxpWritePacket ID handle Offset Data in
  let write := File_WriteAt f Data (int64 Offset) in
  let answer := sendPacket_of
                  (R_Status (statusFromError env p (result_error env (trace st) write))) in
  handlePacket env p st
  = Returns (result_error env (trace st ++ [write]) answer)
      (mkState (server st) (trace st ++ [write; answer])).
Proof.
  intros Hf Hl p write answer. subst p write answer.
  pose proof (write_on_handle env st ID handle Offset Data f Hf) as H.
  cbv zeta in H. rewrite H.
  destruct (Z.gtb_spec (fileSizeLimit (server st)) 0); [lia|reflexivity].
Qed.

Lemma write_without_limit_witness :
  exists answer,
    handlePacket (example_env no_failure) (sshFxpWritePacket 2 "1" (2 ^ 63 - 1) [Byte.x61])
      (start busy_server)
    = Returns None
        (mkState busy_server
           [File_WriteAt (mkFile "file.txt" 0) [Byte.x61] (2 ^ 63 - 1); answer]).
Proof.
  eexists.
  apply (write_without_limit (example_env no_failure) (start busy_server) 2 "1"
           (2 ^ 63 - 1) [Byte.x61] (mkFile "file.txt" 0) eq_refl ltac:(cbn; lia)).
Defined.

(** ** Read *)

Lemma clamp_min (v max : Z) : clamp v max = Z.min v max.
Proof. unfold clamp. destruct (Z.gtb_spec v max); lia. Qed.

(** X17. Read on a handle of the table reads at most the lesser of the
    requested length and [maxTxPacket] bytes.  The bytes are sent when the
    read succeeded, and also when it hit the end of the file after at
    least one byte; an end of file with no byte, and every other error
    (whatever was read), is answered with the status of the error. *)
Theorem read_reply (env : Env) (st : State) (ID : Z) (handle : string)
    (Offset Len : Z) (f : File) :
  openFiles (server st) !! handle = Some f ->
  let p := sshFxpReadPacket ID handle Offset Len in
  let buflen := Z.min Len (maxTxPacket (server st)) in
  let read := File_ReadAt f buflen (int64 Offset) in
  let data := firstn (Z.to_nat buflen) (result_bytes env (trace st) read) in
  let answer := sendPacket_of
                  (read_answer env p ID data (result_error env (trace st) read)) in
  handlePacket env p st
  = Returns (result_error env (trace st ++ [read]) answer)
      (mkState (server st) (trace st ++ [read; answer])) /\
  Z.of_nat (length data) <= Z.max 0 Len /\
  Z.of_nat (length data) <= Z.max 0 (maxTxPacket (server st)).
Proof.
  intros Hf p buflen read data answer. split.
  - subst p answer data read buflen. unfold handlePacket. run. rewrite Hf.
    rewrite clamp_min. cbn [server trace].
    set (read := File_ReadAt f _ _).
    set (data := firstn _ _).
    unfold read_answer.
    destruct (result_error env (trace st) read) as [e|];
      [|cbn [server trace]; rewrite <- app_assoc; reflexivity].
    destruct e; cbn [is_EOF negb orb];
      try (cbn [server trace]; rewrite <- app_assoc; reflexivity).
    destruct data as [|b data]; cbn [length].
    + change (Z.of_nat 0 =? 0) with true. cbn [server trace].
      rewrite <- app_assoc. reflexivity.
    + replace (Z.of_nat (S (length data)) =? 0) with false
        by (symmetry; apply Z.eqb_neq; lia).
      cbn [server trace]. rewrite <- app_assoc. reflexivity.
  - subst data. rewrite length_firstn. subst buflen. lia.
Qed.

Lemma read_reply_witness :
  handlePacket (example_env no_failure) (sshFxpReadPacket 2 "1" 0 10) (start busy_server)
  = Returns None
      (mkState busy_server
         [File_ReadAt (mkFile "file.txt" 0) 10 0;
          sendPacket_of (sshFxpDataPacket 2 0 [])]).
Proof.
  apply (read_reply (example_env no_failure) (start busy_server) 2 "1" 0 10
           (mkFile "file.txt" 0) eq_refl).
Defined.

(** ** Fsetstat *)

(** X18. Fsetstat does not stop at a failure: with the size and the
    permissions flagged, the file is truncated and then its mode is
    changed, and the status that is sent reports the result of the change
    of mode alone, whatever truncating returned. *)
Theorem fsetstat_reports_last (env : Env) (st : State) (ID : Z) (handle : string)
    (Flags : Z) (a b b' : list Byte.byte) (size mode : Z) (f : File) :
  openFiles (server st) !! handle = Some f ->
  Z.land Flags ssh_FILEXFER_ATTR_SIZE <> 0 ->
  Z.land Flags ssh_FILEXFER_ATTR_PERMISSIONS <> 0 ->
  Z.land Flags ssh_FILEXFER_ATTR_ACMODTIME = 0 ->
  Z.land Flags ssh_FILEXFER_ATTR_UIDGID = 0 ->
  unmarshalUint64Safe env a = (size, b, None) ->
  unmarshalUint32Safe env b = (mode, b', None) ->
  let p := sshFxpFsetstatPacket ID handle Flags a in
  let truncate := File_Truncate f (int64 size) in
  let chmod := File_Chmod f mode in
  let answer := sendPacket_of
                  (R_Status (statusFromError env p
                     (result_error env (trace st ++ [truncate]) chmod))) in
  sshFxpFsetstatPacket_respond env p handle Flags a st
  = Returns (result_error env (trace st ++ [truncate; chmod]) answer)
      (mkState (server st) (trace st ++ [truncate; chmod; answer])).
Proof.
  intros Hf Hs Hp Ht Hu Ha Hb p truncate chmod answer.
  unfold sshFxpFsetstatPacket_respond. run. rewrite Hf.
  apply Z.eqb_neq in Hs, Hp. apply Z.eqb_eq in Ht, Hu.
  rewrite Hs, Hp, Ht, Hu. cbn [negb]. rewrite Ha. cbn [server trace]. rewrite Hb.
  cbn [server trace]. rewrite <- !app_assoc. reflexivity.
Qed.

Lemma fsetstat_reports_last_witness :
  let a := repeat Byte.x00 12 in
  let p := sshFxpFsetstatPacket 4 "1" 5 a in
  let f := mkFile "file.txt" 0 in
  exists answer,
    sshFxpFsetstatPacket_respond (example_env no_failure) p "1" 5 a (start busy_server)
    = Returns None
        (mkState busy_server [File_Truncate f 0; File_Chmod f 0; answer]).
Proof.
  eexists.
  apply (fsetstat_reports_last (example_env no_failure) (start busy_server) 4 "1" 5
           (repeat Byte.x00 12) (repeat Byte.x00 4) [] 0 0 (mkFile "file.txt" 0)
           eq_refl ltac:(vm_compute; discriminate) ltac:(vm_compute; discriminate)
           eq_refl eq_refl eq_refl eq_refl).
Defined.

(** ** The flags of an open *)

Lemma land_2 (x : Z) : Z.land x 2 = if Z.testbit x 1 then 2 else 0.
Proof.
  apply Z.bits_inj'. intros n Hn. rewrite Z.land_spec.
  change 2 with (2 ^ 1) at 1. rewrite Z.pow2_bits_eqb by lia.
  destruct (Z.eqb_spec 1 n) as [<-|Hne].
  - rewrite andb_true_r. destruct (Z.testbit x 1); reflexivity.
  - rewrite andb_false_r. destruct (Z.testbit x 1); [|now rewrite Z.bits_0].
    change 2 with (2 ^ 1). rewrite Z.pow2_bits_eqb by lia.
    symmetry. now apply Z.eqb_neq.
Qed.

(** X19. An open is read-only exactly when bit 1 of its flags, the write
    flag, is clear; no other flag matters. *)
Theorem readonly_write_bit (p : sshFxpOpenPacket) :
  readonly p = negb (Z.testbit (Pflags p) 1).
Proof.
  unfold readonly, hasPflags, ssh_FXF_WRITE. cbn [forallb]. rewrite land_2.
  destruct (Z.testbit (Pflags p) 1); reflexivity.
Qed.

(** ** An upload from open to close *)

(** X22. An upload from open to close, when every call succeeds: on a
    server without a limit and without a filename-mapping hook, an open
    for writing of a child of the upload directory, a write on the handle
    that it returns and a close of that handle create the file under the
    bare name, write the data at the offset, close the file and then call
    the upload notifier, if set, once with that name; each request is
    answered, both tables are as before and the counter has advanced by
    one. *)
Theorem upload_session (env : Env) (st : State) (name : string) (pflags : Z)
    (data : list Byte.byte) (off ID1 ID2 ID3 : Z) :
  let svr := server st in
  let p := mkOpen ID1 (upload_prefix svr +:+ name) pflags 0 in
  let h := Itoa (handleCount svr + 1) in
  let f := mkFile name (length (trace st)) in
  let ok := fun pkt => sendPacket_of (R_Status (statusFromError env pkt None)) in
  handles_issued svr ->
  handleCount svr + 1 < 2 ^ 63 ->
  fileNameMapper svr = None ->
  fileSizeLimit svr <= 0 ->
  GoString.ContainsRune name "/" = false ->
  hasPflags p [ssh_FXF_WRITE] = true ->
  hasPflags p [ssh_FXF_APPEND] = false ->
  (forall tr ev, result_error env tr ev = None) ->
  exists st1 st2 st3,
    handlePacket env (P_Open p) st = Returns None st1 /\
    handlePacket env (sshFxpWritePacket ID2 h off data) st1 = Returns None st2 /\
    handlePacket env (sshFxpClosePacket ID3 h) st2 = Returns None st3 /\
    trace st3
    = trace st
      ++ [os_Create name; sendPacket_of (sshFxpHandlePacket ID1 h);
          File_WriteAt f data (int64 off); ok (sshFxpWritePacket ID2 h off data);
          File_Close f]
      ++ (if uploadNotifier svr then [call_uploadNotifier name] else [])
      ++ [ok (sshFxpClosePacket ID3 h)] /\
    openFiles (server st3) = openFiles svr /\
    openDirs (server st3) = openDirs svr /\
    handleCount (server st3) = handleCount svr + 1.
Proof.
  intros svr p h f ok Hwf Hb Hmap Hlim Hslash Hw Ha Hok. subst svr.
  destruct (issued_fresh _ Hwf Hb) as (Hn & Hf & Hd).
  pose proof (open_child env p st name Hw Ha eq_refl Hslash) as Hopen.
  rewrite Hmap in Hopen. unfold creates in Hopen.
  rewrite Hok in Hopen. cbv zeta in Hopen. rewrite Hok, Hn in Hopen.
  fold h f in Hopen.
  eexists. eexists. eexists.
  split.
  { unfold handlePacket. run. rewrite Hopen. reflexivity. }
  split.
  { pose proof (write_on_handle env
                  (mkState (with_file_handle (server st) f)
                     ((trace st ++ [os_Create name])
                      ++ [sendPacket_of (sshFxpHandlePacket (ID p) h)]))
                  ID2 h off data f) as Hwrite.
    cbv zeta in Hwrite. rewrite Hwrite; clear Hwrite.
    - cbn [server trace]. unfold with_file_handle at 1 2.
      cbn [fileSizeLimit set_openFiles set_handleCount].
      destruct (Z.gtb_spec (fileSizeLimit (server st)) 0) as [Hgt|_]; [lia|].
      cbn [andb]. rewrite !Hok. reflexivity.
    - cbn [server]. unfold with_file_handle. cbn [openFiles set_openFiles].
      rewrite Hn. apply lookup_insert_eq. }
  split.
  { unfold handlePacket. run. erewrite closeHandle_known; cycle 1.
    { cbn [server]. unfold with_file_handle. cbn [openFiles set_openFiles].
      rewrite Hn. apply lookup_insert_eq. }
    cbn [server trace]. rewrite !Hok. reflexivity. }
  cbn [server trace]. unfold with_file_handle. rewrite Hn. fold h.
  cbn [openFiles openDirs handleCount uploadNotifier set_openFiles set_openDirs
       set_handleCount Name].
  fold h in Hf, Hd. rewrite Hd.
  split; [|split; [apply (delete_insert_id _ _ _ Hf)|split; [apply (delete_id _ _ Hd)|reflexivity]]].
  subst ok f p. cbn [ID]. destruct (uploadNotifier (server st)); cbn [app];
    rewrite <- !app_assoc; reflexivity.
Qed.

Lemma upload_session_witness :
  exists st1 st2 st3,
    handlePacket (example_env no_failure) (P_Open (mkOpen 1 "/up/a.txt" 26 0))
      (start example_server) = Returns None st1 /\
    handlePacket (example_env no_failure) (sshFxpWritePacket 2 "1" 0 [Byte.x61]) st1
    = Returns None st2 /\
    handlePacket (example_env no_failure) (sshFxpClosePacket 3 "1") st2 = Returns None st3 /\
    notifications (trace st3) = ["a.txt"] /\
    openFiles (server st3) = ∅.
Proof.
  destruct (upload_session (example_env no_failure) (start example_server) "a.txt" 26
              [Byte.x61] 0 1 2 3 example_server_issued ltac:(cbn; lia) eq_refl
              ltac:(cbn; lia) eq_refl eq_refl eq_refl ltac:(reflexivity))
    as (st1 & st2 & st3 & H1 & H2 & H3 & Ht & Hf & _).
  exists st1, st2, st3. repeat split; try assumption.
  rewrite Ht. reflexivity.
Defined.

(** ** A read-only server and the upload notifier *)

Ltac quiet :=
  cbn [trace server]; rewrite ?notifications_app; cbn [notifications flat_map app];
  rewrite ?app_nil_r; reflexivity.

Lemma files_are_dirs_insert (svr : Server) (h : string) (f : File) (di : openDirInfo) :
  files_are_dirs svr ->
  forall h', is_Some (<[h := f]> (openFiles svr) !! h') ->
             is_Some (<[h := di]> (openDirs svr) !! h').
Proof.
  intros Hinv h'. destruct (decide (h = h')) as [->|Hne].
  - rewrite !lookup_insert_eq. eauto.
  - rewrite !lookup_insert_ne by exact Hne. apply Hinv.
Qed.

Lemma files_are_dirs_alter (svr : Server) (h : string) (g : openDirInfo -> openDirInfo) :
  files_are_dirs svr ->
  forall h', is_Some (openFiles svr !! h') ->
             is_Some (alter g h (openDirs svr) !! h').
Proof.
  intros Hinv h' Hf. apply Hinv in Hf as [di Hdi].
  destruct (decide (h = h')) as [->|Hne].
  - rewrite lookup_alter_eq, Hdi. eauto.
  - rewrite lookup_alter_ne by exact Hne. eauto.
Qed.

Lemma open_readonly_quiet (env : Env) (p : sshFxpOpenPacket) (st st' : State)
    (r : option error) :
  readonly p = true ->
  path_Clean env (Path p) <> "" ->
  files_are_dirs (server st) ->
  sshFxpOpenPacket_respond env p st = Returns r st' ->
  files_are_dirs (server st') /\ notifications (trace st') = notifications (trace st).
Proof.
  intros Hro Hc Hinv. apply String.eqb_neq in Hc.
  assert (Hw : hasPflags p [ssh_FXF_WRITE] = false).
  { unfold readonly in Hro. now destruct (hasPflags p [ssh_FXF_WRITE]). }
  unfold sshFxpOpenPacket_respond, open_or_create, nextHandle. run.
  rewrite Hro, Hw, andb_true_r. cbn [negb orb]. intros H.
  split_matches H; try discriminate H; try congruence;
    injection H as <- <-; cbn [server trace];
    (split; [|quiet]); try exact Hinv;
    unfold files_are_dirs;
    cbn [openFiles openDirs set_openFiles set_openDirs set_handleCount];
    now apply files_are_dirs_insert.
Qed.

Lemma readdir_quiet (env : Env) (ID : Z) (h : string) (st st' : State) (r : option error) :
  files_are_dirs (server st) ->
  sshFxpReaddirPacket_respond env ID h st = Returns r st' ->
  files_are_dirs (server st') /\ notifications (trace st') = notifications (trace st).
Proof.
  intros Hinv. unfold sshFxpReaddirPacket_respond, list_directory, mark_read. run. intros H.
  split_matches H; try discriminate H; injection H as <- <-; cbn [server trace];
    (split; [|quiet]); try exact Hinv;
    unfold files_are_dirs; cbn [openFiles openDirs set_openDirs];
    now apply files_are_dirs_alter.
Qed.

Lemma close_quiet (env : Env) (h : string) (st st' : State) (r : option error) :
  files_are_dirs (server st) ->
  closeHandle env h st = Returns r st' ->
  files_are_dirs (server st') /\ notifications (trace st') = notifications (trace st).
Proof.
  intros Hinv H. destruct (openFiles (server st) !! h) as [f|] eqn:Hf.
  - rewrite (closeHandle_known env st h f Hf) in H. injection H as <- <-.
    destruct (Hinv h) as [di Hdi]; [eauto|]. rewrite Hdi. cbn [server trace]. split.
    + unfold files_are_dirs. intros h'. cbn [openFiles openDirs set_openFiles set_openDirs].
      destruct (decide (h = h')) as [->|Hne].
      * rewrite lookup_delete_eq. now intros [x Hx].
      * rewrite !lookup_delete_ne by exact Hne. apply Hinv.
    + destruct (uploadNotifier (server st)); quiet.
  - rewrite (closeHandle_unknown env st h Hf) in H. injection H as <- <-. auto.
Qed.

Lemma handled_readonly_quiet (env : Env) (t : fxp) (b : list Byte.byte) (pkt : Packet)
    (ro : bool) (st st' : State) (r : option error) :
  decode env t b = Some (inr pkt, ro) ->
  allowedPacketTypes t = true ->
  classify pkt ro = true ->
  (forall q, path_Clean env q <> "") ->
  files_are_dirs (server st) ->
  handlePacket env pkt st = Returns r st' ->
  files_are_dirs (server st') /\ notifications (trace st') = notifications (trace st).
Proof.
  destruct t; cbn [decode allowedPacketTypes]; try discriminate;
    decoded_cases env b; intros H; inversion H; subst; intros _;
    cbn [classify]; intros Hc Hclean Hinv; try discriminate Hc;
    unfold handlePacket, doStat; run; intros Hrun.
  all: try (split_matches Hrun; cbv beta iota in Hrun; cbn [server trace] in Hrun;
            try discriminate Hrun; injection Hrun as <- <-;
            (split; [exact Hinv|quiet])).
  all: try (eapply open_readonly_quiet; [| | |exact Hrun];
            [reflexivity|apply Hclean|exact Hinv]).
  all: match goal with
       | H : match ?x with _ => _ end = Returns _ _ |- _ =>
           let E := fresh "E" in
           destruct x eqn:E; [|discriminate H]; cbv beta iota in H;
           injection H as <- <-
       end.
  - eapply open_readonly_quiet in E; eauto.
  - apply close_quiet in E; [|exact Hinv]. destruct E as [E1 E2].
    split; [exact E1|]. cbn [trace]. rewrite notifications_app, E2. cbn.
    now rewrite app_nil_r.
  - eapply readdir_quiet in E; eauto.
Qed.

Lemma turn_readonly_quiet (env : Env) (p : rxPacket) (st st' : State) (r : option error) :
  (forall q, path_Clean env q <> "") ->
  readOnly (server st) = true ->
  files_are_dirs (server st) ->
  sftpServerWorker_turn env p st = Returns r st' ->
  files_are_dirs (server st') /\ notifications (trace st') = notifications (trace st).
Proof.
  intros Hclean Hro Hinv.
  destruct (decode env (pktType p) (pktBytes p)) as [[[e|pkt] ro]|] eqn:Hd.
  - unfold sftpServerWorker_turn. rewrite Hd. intros [= <- <-]. auto.
  - destruct (allowedPacketTypes (pktType p)) eqn:Ha.
    + destruct (classify pkt ro) eqn:Hc.
      * rewrite (turn_handled env p pkt ro st Hd Ha) by auto.
        apply (handled_readonly_quiet env _ _ _ _ _ _ _ Hd Ha Hc Hclean Hinv).
      * rewrite (turn_denied env p pkt ro st Hd Ha Hc Hro). intros [= <- <-].
        split; [exact Hinv|quiet].
    + rewrite (turn_unsupported env p pkt ro st Hd Ha). intros [= <- <-].
      split; [exact Hinv|quiet].
  - unfold sftpServerWorker_turn. rewrite Hd. intros [= <- <-]. auto.
Qed.

(** X23. A read-only server on which no upload is open (every handle of a
    file is the handle of a directory) never calls the upload notifier,
    whatever packets arrive, and no upload is open afterwards; [path.Clean]
    is taken not to return the empty string. *)
Theorem readonly_never_notifies (env : Env) (pkts : list rxPacket) :
  forall st : State,
    (forall q, path_Clean env q <> "") ->
    uploadPath (server st) <> "" ->
    readOnly (server st) = true ->
    files_are_dirs (server st) ->
    exists r st',
      sftpServerWorker env pkts st = Returns r st' /\
      files_are_dirs (server st') /\
      notifications (trace st') = notifications (trace st).
Proof.
  intros st Hclean. revert st.
  induction pkts as [|p pkts IH]; intros st Hup Hro Hinv.
  - exists None, st. auto.
  - destruct (turn_events env p st Hup) as (r1 & st1 & _ & Hturn & _).
    cbn [sftpServerWorker]. unfold bind. rewrite Hturn.
    destruct (step_settings _ _ (turn_step env p st st1 r1 Hturn)) as [Hup1 Hro1].
    destruct (turn_readonly_quiet env p st st1 r1 Hclean Hro Hinv Hturn) as [Hinv1 Hq1].
    destruct r1 as [e|]; [eauto|].
    assert (Hup' : uploadPath (server st1) <> "") by congruence.
    assert (Hro' : readOnly (server st1) = true) by congruence.
    destruct (IH st1 Hup' Hro' Hinv1) as (r & st' & Hrun & Hinv' & Hq).
    exists r, st'. split; [exact Hrun|]. split; [exact Hinv'|congruence].
Qed.

Lemma clean_env_nonempty (q : string) : path_Clean clean_env q <> "".
Proof. cbn. destruct (String.eqb_spec q ""); [discriminate|assumption]. Qed.

Lemma readonly_server_files_are_dirs : files_are_dirs readonly_server.
Proof. intros h [x Hx]. cbn in Hx. rewrite lookup_empty in Hx. discriminate. Qed.

Lemma readonly_never_notifies_witness :
  exists r st',
    sftpServerWorker clean_env
      [mkRx ssh_FXP_OPENDIR [Byte.x01; Byte.x2f]; mkRx ssh_FXP_CLOSE [Byte.x02; Byte.x31]]
      (start readonly_server) = Returns r st' /\
    files_are_dirs (server st') /\
    notifications (trace st') = [].
Proof.
  apply (readonly_never_notifies clean_env
           [mkRx ssh_FXP_OPENDIR [Byte.x01; Byte.x2f]; mkRx ssh_FXP_CLOSE [Byte.x02; Byte.x31]]
           (start readonly_server) clean_env_nonempty ltac:(discriminate) eq_refl
           readonly_server_files_are_dirs).
Defined.

(** ** NewServer *)

Lemma take_len (n : nat) (s : string) :
  (n <= String.length s)%nat -> String.length (GoString.take n s) = n.
Proof.
  revert s. induction n as [|n IH]; intros [|c s] H; cbn in *;
    try reflexivity; try lia.
  now rewrite IH by lia.
Qed.

Lemma get_in_range (n : nat) (s : string) :
  (n < String.length s)%nat -> exists c, String.get n s = Some c.
Proof.
  revert n. induction s as [|c s IH]; intros n H; cbn in H; [lia|].
  destruct n as [|n]; cbn; [eauto|]. apply IH. lia.
Qed.

(** The upload path after [NewServer]. *)
Lemma NewServer_cases (env : Env) (options : list ServerOption) :
  match apply_options options new_Server with
  | inl err => NewServer env options = Some (inl err)
  | inr s =>
      exists up,
        NewServer env options = Some (inr (set_uploadPath s up)) /\
        (uploadPath s = "" -> up = "/") /\
        (path_Clean env (uploadPath s) <> "" -> up <> "")
  end.
Proof.
  unfold NewServer. destruct (apply_options options new_Server) as [err|s]; [reflexivity|].
  destruct (String.eqb (uploadPath s) "") eqn:E.
  { exists "/". repeat split; discriminate. }
  apply String.eqb_neq in E.
  set (up := path_Clean env (uploadPath s)).
  destruct (Z.gtb_spec (GoString.len up) 1) as [Hl|Hl].
  - unfold byte_at.
    replace ((0 <=? GoString.len up - 1) && (GoString.len up - 1 <? GoString.len up))
      with true by (symmetry; apply andb_true_iff; split; [apply Z.leb_le|apply Z.ltb_lt]; lia).
    destruct (get_in_range (Z.to_nat (GoString.len up - 1)) up) as [c ->];
      [unfold GoString.len in *; lia|].
    destruct (Ascii.eqb c "/").
    + unfold GoString.slice_to.
      replace ((0 <=? GoString.len up - 1) && (GoString.len up - 1 <=? GoString.len up))
        with true by (symmetry; apply andb_true_iff; split; apply Z.leb_le; lia).
      eexists. split; [reflexivity|]. split; [congruence|]. intros _ H.
      apply (f_equal String.length) in H. rewrite take_len in H;
        unfold GoString.len in *; cbn in H; lia.
    + exists up. split; [reflexivity|]. split; [congruence|auto].
  - exists up. split; [reflexivity|]. split; [congruence|auto].
Qed.

Lemma Serve_returns (env : Env) (received : list rxPacket) (recvErr : error) (st : State) :
  uploadPath (server st) <> "" ->
  exists st', Serve env received recvErr st = Returns (Some recvErr) st'.
Proof.
  intros Hup. destruct (worker_events env received st Hup) as (r & st1 & _ & Hrun & _).
  unfold Serve. run. rewrite Hrun.
  destruct r; run; rewrite close_left_open_trace; eauto.
Qed.

(** X20. If [path.Clean] does not return the empty string for a path that
    is not empty, [NewServer] returns (no index is out of range), the
    server that it returns has an upload path that is not empty, and
    [Serve] on it returns the error of the receive loop whatever packets
    were received: no handler panics. *)
Theorem NewServer_serves (env : Env) (options : list ServerOption) :
  (forall p, p <> "" -> path_Clean env p <> "") ->
  exists made,
    NewServer env options = Some made /\
    forall s, made = inr s ->
              uploadPath s <> "" /\
              forall received recvErr,
              exists st', Serve env received recvErr (start s) = Returns (Some recvErr) st'.
Proof.
  intros Hclean. pose proof (NewServer_cases env options) as H.
  destruct (apply_options options new_Server) as [err|s0].
  - exists (inl err). split; [exact H|]. discriminate.
  - destruct H as (up & Hnew & Hempty & Hup). eexists. split; [exact Hnew|].
    intros s [= <-].
    assert (Hne : up <> "").
    { destruct (String.eqb_spec (uploadPath s0) "") as [E|E].
      - rewrite (Hempty E). discriminate.
      - auto. }
    split; [exact Hne|]. intros received recvErr.
    now apply Serve_returns.
Qed.

Lemma NewServer_serves_witness :
  exists made,
    NewServer (example_env no_failure) [UploadPath "/up/"; ReadOnly] = Some made /\
    forall s, made = inr s ->
              uploadPath s <> "" /\
              forall received recvErr,
              exists st',
                Serve (example_env no_failure) received recvErr (start s)
                = Returns (Some recvErr) st'.
Proof.
  apply (NewServer_serves (example_env no_failure) [UploadPath "/up/"; ReadOnly]).
  intros p Hp. exact Hp.
Defined.

Lemma library_options_fields (options : list ServerOption) :
  Forall library_option options ->
  forall s0 : Server,
  exists s,
    apply_options options s0 = inr s /\
    openFiles s = openFiles s0 /\ openDirs s = openDirs s0 /\
    handleCount s = handleCount s0 /\ maxTxPacket s = maxTxPacket s0 /\
    (readOnly s = true <-> readOnly s0 = true \/ In ReadOnly options).
Proof.
  induction 1 as [|o options Ho _ IH]; intros s0.
  - exists s0. cbn. intuition.
  - cbn [apply_options].
    destruct Ho; cbv beta delta [WithDebug WithFileSizeLimit ReadOnly UploadPath
                                 FileNameMapper UploadNotifier ReaddirHook OpendirHook] iota;
      match goal with |- context [apply_options options ?s1] =>
        destruct (IH s1) as (s & -> & Hf & Hd & Hc & Hm & Hr) end;
      exists s; cbn in Hf, Hd, Hc, Hm, Hr;
      (split; [reflexivity|]); (split; [exact Hf|]); (split; [exact Hd|]);
      (split; [exact Hc|]); (split; [exact Hm|]);
      rewrite Hr; cbn [In]; (split; [intuition auto|]);
      (intros [Hs0|[Heq|Hin]]; [auto|..|auto]);
      try (left; reflexivity);
      apply (f_equal (fun o : ServerOption =>
                        match o s0 with inr s1 => readOnly s1 | inl _ => false end)) in Heq;
      cbn in Heq; auto.
Qed.

(** X21. With the options that server.go defines, [NewServer] does not
    fail; the new server has empty tables, the counter at zero and a
    largest packet of 32768 bytes, and it is read-only exactly when the
    option [ReadOnly] is among the options: no option unsets it. *)
Theorem NewServer_library_options (env : Env) (options : list ServerOption) :
  Forall library_option options ->
  exists s,
    NewServer env options = Some (inr s) /\
    openFiles s = ∅ /\ openDirs s = ∅ /\ handleCount s = 0 /\
    maxTxPacket s = 32768 /\
    handles_issued s /\
    (readOnly s = true <-> In ReadOnly options).
Proof.
  intros Hlib.
  destruct (library_options_fields options Hlib new_Server)
    as (s0 & Hopt & Hf & Hd & Hc & Hm & Hr).
  pose proof (NewServer_cases env options) as H. rewrite Hopt in H.
  destruct H as (up & Hnew & _). exists (set_uploadPath s0 up).
  split; [exact Hnew|]. cbn.
  split; [exact Hf|]. split; [exact Hd|]. split; [exact Hc|]. split; [exact Hm|].
  split.
  - apply new_server_issued; cbn; [exact Hf|exact Hd|rewrite Hc; cbn; lia].
  - rewrite Hr. cbn. intuition discriminate.
Qed.

Lemma NewServer_library_options_witness :
  exists s,
    NewServer (example_env no_failure) [UploadPath "/up/"; ReadOnly] = Some (inr s) /\
    openFiles s = ∅ /\ openDirs s = ∅ /\ handleCount s = 0 /\
    maxTxPacket s = 32768 /\
    handles_issued s /\
    (readOnly s = true <-> In ReadOnly [UploadPath "/up/"; ReadOnly]).
Proof.
  apply (NewServer_library_options (example_env no_failure) [UploadPath "/up/"; ReadOnly]).
  repeat constructor.
Defined.
